(** * Founder Matchmaker: the matching engine

    A shallow embedding of the matching engine of the founder-matchmaker
    application (Next.js route handlers over a Prisma/PostgreSQL store):

    - the scoring function [calculateMatchScore] and the recommendations
      handler (the recommendations route);
    - the like handler (the like route): interest ledger and match formation;
    - the messages handlers (the messages route): the conversation gate;
    - the part of the initial migration these handlers rely on: foreign
      keys and the unique indexes on likes and matches.

    JavaScript numbers are IEEE 754 binary64 values; they are modelled by
    Rocq's primitive floats, which are the same format.  Quantities that
    are integers in the source by construction (array lengths, products and
    minima of those, differences of INTEGER columns) are computed in [Z] and
    enter the floating-point sum through [Num]. *)

From Stdlib Require Import ZArith List String Ascii Bool Lia Arith.
From Stdlib Require Import DecimalString.
From Stdlib Require Import Uint63.
From Stdlib Require Import Floats.PrimFloat Floats.FloatOps Floats.SpecFloat.
From Stdlib Require Import Floats.FloatClass.
From Stdlib Require Import Floats.FloatAxioms.
Import ListNotations.

Local Open Scope string_scope.
Local Open Scope Z_scope.

(** ** JavaScript values *)

Module JS.

(** The Number value of an integer (exact below 2^53 in absolute value). *)
Definition Num (z : Z) : float :=
  if z <? 0 then PrimFloat.opp (PrimFloat.of_uint63 (Uint63.of_Z (- z)))
  else PrimFloat.of_uint63 (Uint63.of_Z z).

(** Truthiness of an optional string: [null], [undefined] and the empty
    string are falsy. *)
Definition truthy_string (s : option string) : bool :=
  match s with
  | Some s => negb (String.eqb s "")
  | None => false
  end.

(** Truthiness of an optional integer: [null], [undefined] and [0] are
    falsy. *)
Definition truthy_int (n : option Z) : bool :=
  match n with
  | Some n => negb (n =? 0)
  | None => false
  end.

(** [Array.prototype.includes] on strings. *)
Definition includes (l : list string) (x : string) : bool :=
  existsb (String.eqb x) l.

(** [Math.max] on two Numbers. *)
Definition Math_max (a b : float) : float :=
  if PrimFloat.is_nan a then a
  else if PrimFloat.is_nan b then b
  else if PrimFloat.ltb a b then b
  else a.

(** [Math.round]: the nearest integer, ties toward +infinity, computed
    exactly from the mantissa and exponent: a value with a non-negative
    exponent is an integer already; otherwise the result is
    [floor (x + 1/2)], a negative zero when [x] is negative and rounds to
    zero.  Zeros, NaN and the infinities are returned as they are. *)
Definition Math_round (x : float) : float :=
  match Prim2SF x with
  | S754_finite s m e =>
      if 0 <=? e then x
      else
        let n := if s then Z.neg m else Z.pos m in
        let z := (2 * n + 2 ^ (- e)) / 2 ^ (- e + 1) in
        if (z =? 0) && s then PrimFloat.opp 0 else Num z
  | _ => x
  end.

(** [Array.prototype.push], as a function of the array. *)
Definition push {A : Type} (l : list A) (x : A) : list A := (l ++ [x])%list.

(** Template-literal rendering of a non-negative integer. *)
Definition show_nat (n : nat) : string :=
  NilEmpty.string_of_uint (Nat.to_uint n).

End JS.

(** ** String values

    A String value is a sequence of UTF-16 code units; its [length] is
    the number of code units.  The ids and the tags of the store are kept
    as opaque names; the texts whose length or content the handlers look
    at (the body of a message, the skills field of a profile) are String
    values. *)

Module JSString.

Definition t : Type := list N.

Definition comma : N := 44.
Definition space : N := 32.

(** The code points [String.prototype.trim] strips: WhiteSpace (TAB, VT,
    FF, ZWNBSP and the space separators) and LineTerminator (LF, CR, LS,
    PS).  All of them are in the basic plane: one code unit each. *)
Definition isWhiteSpace (c : N) : bool :=
  ((c =? 9) || (c =? 10) || (c =? 11) || (c =? 12) || (c =? 13)
   || (c =? 32) || (c =? 160) || (c =? 5760)
   || ((8192 <=? c) && (c <=? 8202))
   || (c =? 8232) || (c =? 8233) || (c =? 8239) || (c =? 8287)
   || (c =? 12288) || (c =? 65279))%N.

Fixpoint trimStart (s : t) : t :=
  match s with
  | [] => []
  | c :: rest => if isWhiteSpace c then trimStart rest else s
  end.

Fixpoint trimEnd (s : t) : t :=
  match s with
  | [] => []
  | c :: rest =>
      match trimEnd rest with
      | [] => if isWhiteSpace c then [] else [c]
      | kept => c :: kept
      end
  end.

(** [s.trim()]. *)
Definition trim (s : t) : t := trimEnd (trimStart s).

(** [s.split(sep)] for a separator of one code unit: the pieces between
    the separators, one more than there are separators. *)
Fixpoint split (sep : N) (s : t) : list t :=
  match s with
  | [] => [[]]
  | c :: rest =>
      if (c =? sep)%N then [] :: split sep rest
      else
        match split sep rest with
        | piece :: pieces => (c :: piece) :: pieces
        | [] => [[c]]
        end
  end.

(** [l.join(sep)]. *)
Fixpoint join (sep : t) (l : list t) : t :=
  match l with
  | [] => []
  | [x] => x
  | x :: rest => (x ++ sep ++ join sep rest)%list
  end.

(** The code units of an ASCII string. *)
Definition units (s : string) : t :=
  map (fun a => N.of_nat (nat_of_ascii a)) (list_ascii_of_string s).

End JSString.


(** ** Scoring (the recommendations route) *)

Module Scoring.
Import JS.

Record TagRow := { tag : string }.
Record Skill := { name : string }.
Record SkillOnUser := { skill : Skill }.

(** [interface UserWithRelations]. *)
Record UserWithRelations := {
  offers : list TagRow;
  lookingFor : list TagRow;
  skills : list SkillOnUser;
  location : option string;
  availability : option Z;
  bio : option string;
  headline : option string
}.

Record MatchScore := {
  score : float;
  reasons : list string
}.

Section Terms.
Variables user1 user2 : UserWithRelations.

Definition user1Offers := map tag (offers user1).
Definition user1LookingFor := map tag (lookingFor user1).
Definition user2Offers := map tag (offers user2).
Definition user2LookingFor := map tag (lookingFor user2).

Definition offerOverlap : nat :=
  List.length
    (filter (fun offer => includes user2LookingFor offer) user1Offers).

Definition lookingForOverlap : nat :=
  List.length (filter (fun lf => includes user2Offers lf) user1LookingFor).

Definition tagScore : Z :=
  Z.min 40 ((Z.of_nat offerOverlap + Z.of_nat lookingForOverlap) * 8).

Definition user1Skills := map (fun s => name (skill s)) (skills user1).
Definition user2Skills := map (fun s => name (skill s)) (skills user2).

Definition skillOverlap : nat :=
  List.length (filter (fun sk => includes user2Skills sk) user1Skills).

Definition skillScore : Z := Z.min 20 (Z.of_nat skillOverlap * 4).

(** The location block; [None] when its guard fails. *)
Definition locationScore : option Z :=
  if truthy_string (location user1) && truthy_string (location user2) then
    match location user1, location user2 with
    | Some l1, Some l2 => Some (if String.eqb l1 l2 then 10 else 5)
    | _, _ => None
    end
  else None.

(** The availability block; [None] when its guard fails. *)
Definition availabilityScore : option float :=
  if truthy_int (availability user1) && truthy_int (availability user2) then
    match availability user1, availability user2 with
    | Some a1, Some a2 =>
        let availabilityDiff := Z.abs (a1 - a2) in
        Some (Math_max 0 (10 - Num availabilityDiff / 10))%float
    | _, _ => None
    end
  else None.

Definition user2Completeness : nat :=
  List.length (filter (fun b : bool => b)
    [ truthy_string (bio user2);
      truthy_string (headline user2);
      truthy_string (location user2);
      (0 <? List.length (skills user2))%nat;
      (0 <? List.length (offers user2))%nat;
      (0 <? List.length (lookingFor user2))%nat ]).

Definition completenessScore : float :=
  ((Num (Z.of_nat user2Completeness) / 6) * 5)%float.

Definition calculateMatchScore : MatchScore :=
  let score := 0%float in
  let reasons : list string := [] in
  (* Tag overlap (40 points max) *)
  let score := (score + Num tagScore)%float in
  let reasons :=
    if (0 <? offerOverlap)%nat
    then push reasons (show_nat offerOverlap ++ " matching skills/offers")
    else reasons in
  (* Skill proximity (20 points max) *)
  let score := (score + Num skillScore)%float in
  let reasons :=
    if (0 <? skillOverlap)%nat
    then push reasons (show_nat skillOverlap ++ " shared skills")
    else reasons in
  (* Location proximity (10 points max) *)
  let '(score, reasons) :=
    match locationScore with
    | Some locationScore =>
        ((score + Num locationScore)%float,
         if locationScore =? 10 then push reasons "Same location"
         else reasons)
    | None => (score, reasons)
    end in
  (* Availability alignment (10 points max) *)
  let '(score, reasons) :=
    match availabilityScore with
    | Some availabilityScore =>
        ((score + availabilityScore)%float,
         if PrimFloat.ltb 7 availabilityScore
         then push reasons "Similar availability"
         else reasons)
    | None => (score, reasons)
    end in
  (* Profile completeness (5 points max) *)
  let score := (score + completenessScore)%float in
  let reasons :=
    if PrimFloat.ltb 4 completenessScore
    then push reasons "Complete profile"
    else reasons in
  {| score := Math_round score;
     reasons := firstn 3 reasons (* Top 3 reasons *) |}.

End Terms.

End Scoring.

Module ScoringExamples.
Import JS Scoring.

Definition tags (l : list string) : list TagRow :=
  map (fun t => {| tag := t |}) l.
Definition skillset (l : list string) : list SkillOnUser :=
  map (fun n => {| skill := {| name := n |} |}) l.

(** The viewer of the scoring example of the specification. *)
Definition viewer : UserWithRelations :=
  {| offers := tags ["Backend Development"];
     lookingFor := tags ["Marketing"];
     skills := skillset ["React"; "Node.js"];
     location := Some "SF";
     availability := Some 80;
     bio := None; headline := None |}.

Definition candidate : UserWithRelations :=
  {| offers := tags ["Marketing"];
     lookingFor := tags ["Backend Development"];
     skills := skillset ["React"];
     location := Some "SF";
     availability := Some 85;
     bio := None; headline := None |}.

End ScoringExamples.

(** ** The store

    The tables of the initial migration that the matching engine touches.
    User ids are the identity provider's strings.  The ids of likes, matches
    and messages are generated on insert by the ORM; the generator is
    modelled by a counter held in the store, and [CURRENT_TIMESTAMP] by a
    logical clock that advances on every insert.  The relations that the
    handlers [include] with a user are carried in the user row. *)

Module User.
Record t := { id : string; profile : Scoring.UserWithRelations }.
End User.

(** A like carries the optional message the handler passes to the ORM (the
    matches route reads it back as [originalLike?.message]). *)
Module Like.
Record t := {
  id : nat;
  fromId : string;
  toId : string;
  message : option string;
  createdAt : nat
}.
End Like.

Module Match.
Record t := {
  id : nat;
  userAId : string;
  userBId : string;
  createdAt : nat;
  active : bool
}.
End Match.

Module Message.
Record t := {
  id : nat;
  matchId : nat;
  senderId : string;
  body : JSString.t;
  readAt : option nat;
  createdAt : nat
}.
End Message.

Module Store.

Record t := {
  users : list User.t;
  likes : list Like.t;
  matches : list Match.t;
  messages : list Message.t;
  (** realtime broadcasts sent so far: channel (match id) and payload *)
  realtime : list (nat * Message.t);
  nextId : nat;
  clock : nat
}.

Inductive PrismaError :=
| UniqueConstraintViolation (index : string)
| ForeignKeyViolation (constraint : string).

Definition result (A : Type) : Type := (PrismaError + A)%type.

Definition user_exists (db : t) (uid : string) : bool :=
  existsb (fun u => String.eqb (User.id u) uid) (users db).

Definition match_exists (db : t) (mid : nat) : bool :=
  existsb (fun m => Nat.eqb (Match.id m) mid) (matches db).

(** [prisma.user.findUnique({ where: { id } })]. *)
Definition user_findUnique (db : t) (uid : string) : option User.t :=
  find (fun u => String.eqb (User.id u) uid) (users db).

(** The [likesSent] relation of a user. *)
Definition likesSent (db : t) (uid : string) : list Like.t :=
  filter (fun l => String.eqb (Like.fromId l) uid) (likes db).

(** [prisma.user.findMany({ where: { id: { not, notIn } }, take })]; rows
    come in table order. *)
Definition user_findMany (db : t) (not_ : string) (notIn : list string)
    (take : nat) : list User.t :=
  firstn take
    (filter (fun u => negb (String.eqb (User.id u) not_)
                      && negb (JS.includes notIn (User.id u)))
            (users db)).

Definition like_is (fromId toId : string) (l : Like.t) : bool :=
  String.eqb (Like.fromId l) fromId && String.eqb (Like.toId l) toId.

(** [prisma.like.findUnique({ where: { fromId_toId: { fromId, toId } } })]. *)
Definition like_findUnique (db : t) (fromId toId : string) : option Like.t :=
  find (like_is fromId toId) (likes db).

(** The row an insert makes: its id from the generator, its [createdAt]
    from the clock. *)
Definition new_like (db : t) (fromId toId : string)
    (message : option string) : Like.t :=
  {| Like.id := nextId db; Like.fromId := fromId; Like.toId := toId;
     Like.message := message; Like.createdAt := clock db |}.

Definition insert_like (db : t) (row : Like.t) : t :=
  {| users := users db; likes := likes db ++ [row];
     matches := matches db; messages := messages db;
     realtime := realtime db;
     nextId := S (nextId db); clock := S (clock db) |}.

(** [prisma.like.create]: the foreign keys [likes_fromId_fkey] and
    [likes_toId_fkey] and the unique index [likes_fromId_toId_key]. *)
Definition like_create (db : t) (fromId toId : string)
    (message : option string) : t * result Like.t :=
  if negb (user_exists db fromId) then
    (db, inl (ForeignKeyViolation "likes_fromId_fkey"))
  else if negb (user_exists db toId) then
    (db, inl (ForeignKeyViolation "likes_toId_fkey"))
  else if existsb (like_is fromId toId) (likes db) then
    (db, inl (UniqueConstraintViolation "likes_fromId_toId_key"))
  else
    let row := new_like db fromId toId message in
    (insert_like db row, inr row).

Definition match_is (userAId userBId : string) (m : Match.t) : bool :=
  String.eqb (Match.userAId m) userAId && String.eqb (Match.userBId m) userBId.

Definition new_match (db : t) (userAId userBId : string) : Match.t :=
  {| Match.id := nextId db; Match.userAId := userAId;
     Match.userBId := userBId; Match.createdAt := clock db;
     Match.active := true |}.

Definition insert_match (db : t) (row : Match.t) : t :=
  {| users := users db; likes := likes db;
     matches := matches db ++ [row]; messages := messages db;
     realtime := realtime db;
     nextId := S (nextId db); clock := S (clock db) |}.

(** [prisma.match.create]: the foreign keys [matches_userAId_fkey] and
    [matches_userBId_fkey], the unique index [matches_userAId_userBId_key]
    on the ordered pair, and the column default [active = true]. *)
Definition match_create (db : t) (userAId userBId : string)
    : t * result Match.t :=
  if negb (user_exists db userAId) then
    (db, inl (ForeignKeyViolation "matches_userAId_fkey"))
  else if negb (user_exists db userBId) then
    (db, inl (ForeignKeyViolation "matches_userBId_fkey"))
  else if existsb (match_is userAId userBId) (matches db) then
    (db, inl (UniqueConstraintViolation "matches_userAId_userBId_key"))
  else
    let row := new_match db userAId userBId in
    (insert_match db row, inr row).

(** The [where] clause of the conversation gate:
    [{ id: matchId, OR: [{ userAId: user }, { userBId: user }],
       active: true }]. *)
Definition gate (matchId : nat) (user : string) (m : Match.t) : bool :=
  Nat.eqb (Match.id m) matchId
  && (String.eqb (Match.userAId m) user || String.eqb (Match.userBId m) user)
  && Bool.eqb (Match.active m) true.

(** [prisma.match.findFirst({ where })] with the gate's clause. *)
Definition match_findFirst (db : t) (matchId : nat) (user : string)
    : option Match.t :=
  find (gate matchId user) (matches db).

(** Stable insertion sort by [createdAt], ascending. *)
Fixpoint insert_by_createdAt (x : Message.t) (l : list Message.t)
    : list Message.t :=
  match l with
  | [] => [x]
  | y :: ys =>
      if (Message.createdAt x <=? Message.createdAt y)%nat then x :: y :: ys
      else y :: insert_by_createdAt x ys
  end.

(** [prisma.message.findMany({ where: { matchId },
    orderBy: { createdAt: 'asc' } })]. *)
Definition message_findMany (db : t) (matchId : nat) : list Message.t :=
  fold_right insert_by_createdAt []
    (filter (fun m => Nat.eqb (Message.matchId m) matchId) (messages db)).

Definition new_message (db : t) (matchId : nat) (senderId : string)
    (body : JSString.t) : Message.t :=
  {| Message.id := nextId db; Message.matchId := matchId;
     Message.senderId := senderId; Message.body := body;
     Message.readAt := None; Message.createdAt := clock db |}.

Definition insert_message (db : t) (row : Message.t) : t :=
  {| users := users db; likes := likes db; matches := matches db;
     messages := messages db ++ [row];
     realtime := realtime db;
     nextId := S (nextId db); clock := S (clock db) |}.

(** [prisma.message.create]: the foreign keys [messages_matchId_fkey] and
    [messages_senderId_fkey]. *)
Definition message_create (db : t) (matchId : nat) (senderId : string)
    (body : JSString.t) : t * result Message.t :=
  if negb (match_exists db matchId) then
    (db, inl (ForeignKeyViolation "messages_matchId_fkey"))
  else if negb (user_exists db senderId) then
    (db, inl (ForeignKeyViolation "messages_senderId_fkey"))
  else
    let row := new_message db matchId senderId body in
    (insert_message db row, inr row).

(** The realtime channel [match-<matchId>]: the broadcast is recorded. *)
Definition broadcast (db : t) (matchId : nat) (payload : Message.t) : t :=
  {| users := users db; likes := likes db; matches := matches db;
     messages := messages db;
     realtime := realtime db ++ [(matchId, payload)];
     nextId := nextId db; clock := clock db |}.

End Store.

(** ** Route handlers as programs over the store

    A handler is a sequence of awaited store calls inside one [try] block.
    It is a tree: a response, a thrown error, or a store call with the rest
    of the handler depending on its result.  [run] executes a handler to its
    response; [step] executes one awaited call, which is the unit at which
    the requests of different users interleave. *)

Module Handler.

Inductive Body :=
| ErrorBody (error : string)
| LikeBody (like : Like.t) (match_ : option Match.t) (isMatch : bool)
           (message : string)
| MessagesBody (messages : list Message.t)
| MessageBody (message : Message.t)
| RecommendationsBody
    (recommendations : list (User.t * float * list string)).

Record Response := { payload : Body; status : nat }.

(** [NextResponse.json(body)] and [NextResponse.json(body, { status })]. *)
Definition json (b : Body) : Response := {| payload := b; status := 200 |}.
Definition json_status (b : Body) (st : nat) : Response :=
  {| payload := b; status := st |}.

Inductive Error :=
| ZodError
| Prisma (e : Store.PrismaError).

Inductive Call : Type -> Type :=
| UserFindUnique (id : string) : Call (option User.t)
| UserFindUniqueWithLikesSent (id : string)
    : Call (option (User.t * list Like.t))
| UserFindMany (not_ : string) (notIn : list string) (take : nat)
    : Call (list User.t)
| LikeFindUnique (fromId toId : string) : Call (option Like.t)
| LikeCreate (fromId toId : string) (message : option string) : Call Like.t
| MatchCreate (userAId userBId : string) : Call Match.t
| MatchFindFirst (matchId : nat) (user : string) : Call (option Match.t)
| MessageFindMany (matchId : nat) : Call (list Message.t)
| MessageCreate (matchId : nat) (senderId : string) (body : JSString.t)
    : Call Message.t
| Broadcast (matchId : nat) (payload : Message.t) : Call unit.

Definition exec {X : Type} (c : Call X) (db : Store.t)
    : Store.t * Store.result X :=
  match c in Call X return Store.t * Store.result X with
  | UserFindUnique id => (db, inr (Store.user_findUnique db id))
  | UserFindUniqueWithLikesSent id =>
      (db, inr (option_map (fun u => (u, Store.likesSent db id))
                           (Store.user_findUnique db id)))
  | UserFindMany not_ notIn take =>
      (db, inr (Store.user_findMany db not_ notIn take))
  | LikeFindUnique fromId toId =>
      (db, inr (Store.like_findUnique db fromId toId))
  | LikeCreate fromId toId message => Store.like_create db fromId toId message
  | MatchCreate userAId userBId => Store.match_create db userAId userBId
  | MatchFindFirst matchId user =>
      (db, inr (Store.match_findFirst db matchId user))
  | MessageFindMany matchId => (db, inr (Store.message_findMany db matchId))
  | MessageCreate matchId senderId body =>
      Store.message_create db matchId senderId body
  | Broadcast matchId payload => (Store.broadcast db matchId payload, inr tt)
  end.

Inductive prog : Type :=
| Ret (r : Response)
| Throw (e : Error)
| Await {X : Type} (c : Call X) (k : X -> prog).

(** [try { body } catch (error) { return handler }]. *)
Record t := { try_ : prog; catch_ : Error -> Response }.

(** One awaited call. *)
Definition step (p : prog) (db : Store.t) : prog * Store.t :=
  match p with
  | Await c k =>
      match exec c db with
      | (db', inr x) => (k x, db')
      | (db', inl e) => (Throw (Prisma e), db')
      end
  | _ => (p, db)
  end.

Fixpoint run_prog (catch : Error -> Response) (p : prog) (db : Store.t)
    : Response * Store.t :=
  match p with
  | Ret r => (r, db)
  | Throw e => (catch e, db)
  | Await c k =>
      match exec c db with
      | (db', inr x) => run_prog catch (k x) db'
      | (db', inl e) => (catch (Prisma e), db')
      end
  end.

Definition run (h : t) (db : Store.t) : Response * Store.t :=
  run_prog (catch_ h) (try_ h) db.

(** The response of a handler that has no call left to await. *)
Definition response (h : t) (p : prog) : option Response :=
  match p with
  | Ret r => Some r
  | Throw e => Some (catch_ h e)
  | Await _ _ => None
  end.

Declare Scope handler_scope.
Delimit Scope handler_scope with handler.
Notation "x <- 'await' c ;; k" := (Await c (fun x => k))
  (at level 61, c at next level, right associativity) : handler_scope.

End Handler.

(** ** The like route: interest ledger and match formation *)

Module LikeRoute.
Import Handler.
Local Open Scope handler_scope.

(** The value [likeSchema.parse] returns. *)
Record LikeInput := { toUserId : string; message : option string }.

(** A request: the user the identity provider authenticates ([None] when
    it reports an error or no user) and what [likeSchema.parse] makes of
    the JSON body ([None] when it throws). *)
Record Request := { auth : option string; parsed : option LikeInput }.

Definition POST (request : Request) : Handler.t :=
  {| try_ :=
       match auth request with
       | None => Ret (json_status (ErrorBody "Unauthorized") 401)
       | Some user =>
       match parsed request with
       | None => Throw ZodError
       | Some input =>
       let toUserId := toUserId input in
       let message := message input in
       if String.eqb user toUserId then
         Ret (json_status (ErrorBody "Cannot like yourself") 400)
       else
       (* Check if user exists *)
       targetUser <- await (UserFindUnique toUserId) ;;
       match targetUser with
       | None => Ret (json_status (ErrorBody "User not found") 404)
       | Some _ =>
       (* Check if already liked *)
       existingLike <- await (LikeFindUnique user toUserId) ;;
       match existingLike with
       | Some _ =>
           Ret (json_status (ErrorBody "Already liked this user") 400)
       | None =>
       (* Create the like *)
       like <- await (LikeCreate user toUserId message) ;;
       (* Check if it's a mutual like (match) *)
       mutualLike <- await (LikeFindUnique toUserId user) ;;
       match mutualLike with
       | Some _ =>
           (* Create a match *)
           match_ <- await (MatchCreate user toUserId) ;;
           Ret (json (LikeBody like (Some match_) true "It's a match! 🎉"))
       | None =>
           Ret (json (LikeBody like None false
             "Like sent! You'll be notified if they like you back."))
       end end end end end;
     catch_ := fun _ =>
       json_status (ErrorBody "Internal server error") 500 |}.

(** [expressInterest(fromId, toId)]: the request [fromId] sends to like
    [toId], without a message. *)
Definition expressInterest (fromId toId : string) : Handler.t :=
  POST {| auth := Some fromId;
          parsed := Some {| toUserId := toId; message := None |} |}.

(** The [isMatch] flag of a response, when it carries one. *)
Definition isMatch (r : Response) : option bool :=
  match payload r with
  | LikeBody _ _ b _ => Some b
  | _ => None
  end.

End LikeRoute.

(** ** The messages route: the conversation gate *)

Module MessagesRoute.
Import Handler.
Local Open Scope handler_scope.

(** [messageSchema]: [{ body: z.string().min(1).max(1000) }], the bounds
    being on the [length] of the string, in code units; [None] is a JSON
    body without a string [body]. *)
Definition messageSchema_parse (body : option JSString.t)
    : option JSString.t :=
  match body with
  | Some b =>
      if (1 <=? List.length b)%nat && (List.length b <=? 1000)%nat
      then Some b else None
  | None => None
  end.

Record Request := {
  auth : option string;
  matchId : nat;
  body : option JSString.t
}.

Definition GET (request : Request) : Handler.t :=
  {| try_ :=
       match auth request with
       | None => Ret (json_status (ErrorBody "Unauthorized") 401)
       | Some user =>
       let matchId := matchId request in
       (* Verify user is part of this match *)
       match_ <- await (MatchFindFirst matchId user) ;;
       match match_ with
       | None => Ret (json_status (ErrorBody "Match not found") 404)
       | Some _ =>
       messages <- await (MessageFindMany matchId) ;;
       Ret (json (MessagesBody messages))
       end end;
     catch_ := fun _ =>
       json_status (ErrorBody "Internal server error") 500 |}.

Definition POST (request : Request) : Handler.t :=
  {| try_ :=
       match auth request with
       | None => Ret (json_status (ErrorBody "Unauthorized") 401)
       | Some user =>
       let matchId := matchId request in
       match messageSchema_parse (body request) with
       | None => Throw ZodError
       | Some messageBody =>
       (* Verify user is part of this match *)
       match_ <- await (MatchFindFirst matchId user) ;;
       match match_ with
       | None => Ret (json_status (ErrorBody "Match not found") 404)
       | Some _ =>
       (* Create the message *)
       message <- await (MessageCreate matchId user messageBody) ;;
       (* Emit realtime event *)
       _ <- await (Broadcast matchId message) ;;
       Ret (json (MessageBody message))
       end end end;
     catch_ := fun _ =>
       json_status (ErrorBody "Internal server error") 500 |}.

Definition listMessages (user : string) (m : nat) : Handler.t :=
  GET {| auth := Some user; matchId := m; body := None |}.

Definition postMessage (user : string) (m : nat) (b : JSString.t)
    : Handler.t :=
  POST {| auth := Some user; matchId := m; body := Some b |}.

End MessagesRoute.

(** ** The recommendations route: the candidate feed *)

Module RecommendationsRoute.
Import Handler.
Local Open Scope handler_scope.

Definition Scored : Type := (User.t * float * list string)%type.
Definition matchScore (r : Scored) : float := snd (fst r).
Definition candidate (r : Scored) : User.t := fst (fst r).

(** [Array.prototype.sort] with the comparator
    [(a, b) => b.matchScore - a.matchScore]: a stable sort; [a] stays
    before [b] unless the comparator is positive. *)
Definition compare_scores (a b : Scored) : float :=
  (matchScore b - matchScore a)%float.

Fixpoint insert_sorted (x : Scored) (l : list Scored) : list Scored :=
  match l with
  | [] => [x]
  | y :: ys =>
      if PrimFloat.ltb 0 (compare_scores x y) then y :: insert_sorted x ys
      else x :: y :: ys
  end.

Definition sort (l : list Scored) : list Scored :=
  fold_right insert_sorted [] l.

Definition GET (auth : option string) : Handler.t :=
  {| try_ :=
       match auth with
       | None => Ret (json_status (ErrorBody "Unauthorized") 401)
       | Some user =>
       (* Get current user's profile *)
       currentUser <- await (UserFindUniqueWithLikesSent user) ;;
       match currentUser with
       | None => Ret (json_status (ErrorBody "Profile not found") 404)
       | Some (currentUser, likesSent) =>
       (* Get users that the current user hasn't liked yet *)
       let likedUserIds := map Like.toId likesSent in
       (* Find potential matches *)
       recommendations <- await (UserFindMany user likedUserIds 20) ;;
       (* Calculate match scores *)
       let scoredRecommendations :=
         map (fun recommendation =>
                let score :=
                  Scoring.calculateMatchScore (User.profile currentUser)
                    (User.profile recommendation) in
                (recommendation, Scoring.score score, Scoring.reasons score))
             recommendations in
       (* Sort by match score *)
       Ret (json (RecommendationsBody (sort scoredRecommendations)))
       end end;
     catch_ := fun _ =>
       json_status (ErrorBody "Internal server error") 500 |}.

End RecommendationsRoute.

(** ** Definitions used to state the properties of scoring *)

Module ScoringSpec.
Import JS Scoring.

(** A well-formed profile: the availability, when present, is a
    percentage. *)
Definition wellFormed (u : UserWithRelations) : Prop :=
  match availability u with
  | Some a => 0 <= a <= 100
  | None => True
  end.

(** The integers [lo, lo + 1, ..., lo + n - 1]. *)
Definition int_range (lo : Z) (n : nat) : list Z :=
  map (fun i => lo + Z.of_nat i) (seq 0 n).

(** The availability term as a function of the availability difference. *)
Definition availability_of_diff (d : Z) : float :=
  Math_max 0 (10 - Num d / 10)%float.

(** The completeness term as a function of the number of fields present. *)
Definition completeness_of (k : Z) : float := ((Num k / 6) * 5)%float.

(** The running total of [calculateMatchScore] before rounding, as a
    function of the five terms. *)
Definition running_total (t s : Z) (l : option Z) (a : option float)
    (c : float) : float :=
  let score := (0 + Num t)%float in
  let score := (score + Num s)%float in
  let score :=
    match l with Some l => (score + Num l)%float | None => score end in
  let score := match a with Some a => (score + a)%float | None => score end in
  (score + c)%float.

(** The values the availability block can produce: none when its guard
    fails, or the term at a difference of 0 to 100 (at a larger difference
    the term is 0, as it is at 100); and the values of the completeness
    term. *)
Definition availability_terms : list (option float) :=
  None :: map (fun d => Some (availability_of_diff d)) (int_range 0 101).

Definition completeness_terms : list float :=
  map completeness_of (int_range 0 7).

(** [x] is [+0], or a positive normal Number that is at most 85. *)
Definition at_most_85 (x : float) : bool :=
  match PrimFloat.classify x with
  | PZero => true
  | PNormal => PrimFloat.leb x 85
  | _ => false
  end.

(** The reasons list as the rule of the specification builds it, with the
    complementarity reason keyed on the viewer's offers found among the
    candidate's wishes: one optional reason per term in the order of the
    terms, cut to the first three. *)
Definition reasons_by_threshold (user1 user2 : UserWithRelations)
    : list string :=
  firstn 3
    ((if (0 <? offerOverlap user1 user2)%nat
      then [(show_nat (offerOverlap user1 user2) ++ " matching skills/offers")%string]
      else []) ++
     (if 0 <? skillScore user1 user2
      then [(show_nat (skillOverlap user1 user2) ++ " shared skills")%string]
      else []) ++
     (match locationScore user1 user2 with
      | Some l => if l =? 10 then ["Same location"] else []
      | None => []
      end) ++
     (match availabilityScore user1 user2 with
      | Some a => if PrimFloat.ltb 7 a then ["Similar availability"] else []
      | None => []
      end) ++
     (if PrimFloat.ltb 4 (completenessScore user2)
      then ["Complete profile"] else []))%list.

(** Profiles for the corner cases. *)
Definition blank : UserWithRelations :=
  {| offers := []; lookingFor := []; skills := [];
     location := None; availability := None;
     bio := None; headline := None |}.

Definition with_availability (a : Z) : UserWithRelations :=
  {| offers := []; lookingFor := []; skills := [];
     location := None; availability := Some a;
     bio := None; headline := None |}.

Definition seeker : UserWithRelations :=
  {| offers := []; lookingFor := ScoringExamples.tags ["Marketing"];
     skills := []; location := None; availability := None;
     bio := None; headline := None |}.

Definition marketer : UserWithRelations :=
  {| offers := ScoringExamples.tags ["Marketing"]; lookingFor := [];
     skills := []; location := None; availability := None;
     bio := None; headline := None |}.

End ScoringSpec.

(** ** Racing requests

    Two handlers in flight over one store.  A schedule says which of the two
    performs its next awaited call; a handler that has its response is left
    as it is. *)

Module Race.
Import Handler.

Inductive side := First | Second.

Record config := { first : prog; second : prog; store : Store.t }.

Definition turn (c : config) (s : side) : config :=
  match s with
  | First =>
      let '(p, db) := step (first c) (store c) in
      {| first := p; second := second c; store := db |}
  | Second =>
      let '(p, db) := step (second c) (store c) in
      {| first := first c; second := p; store := db |}
  end.

Definition interleave (schedule : list side) (c : config) : config :=
  fold_left turn schedule c.

(** [expressInterest(a, b)] and [expressInterest(b, a)] in flight. *)
Definition mutual (a b : string) (db : Store.t) : config :=
  {| first := try_ (LikeRoute.expressInterest a b);
     second := try_ (LikeRoute.expressInterest b a);
     store := db |}.

End Race.

(** ** Definitions used to state the properties of the ledger and the gate *)

Module LedgerSpec.

(** The number of stored Interest edges [fromId -> toId]. *)
Definition stored_likes (db : Store.t) (fromId toId : string) : nat :=
  List.length (filter (Store.like_is fromId toId) (Store.likes db)).

(** A match row of the unordered pair, in either storage order. *)
Definition pair_is (x y : string) (m : Match.t) : bool :=
  Store.match_is x y m || Store.match_is y x m.

Definition match_rows (db : Store.t) (x y : string) : nat :=
  List.length (filter (pair_is x y) (Store.matches db)).

Definition active_matches (db : Store.t) (x y : string) : nat :=
  List.length
    (filter (fun m => pair_is x y m && Match.active m) (Store.matches db)).

(** The number of match rows stored in the order [(userAId, userBId)]. *)
Definition ordered_rows (db : Store.t) (userAId userBId : string) : nat :=
  List.length (filter (Store.match_is userAId userBId) (Store.matches db)).

(** The unique index [likes_fromId_toId_key] holds of the store. *)
Definition likes_unique (db : Store.t) : Prop :=
  NoDup (map (fun l => (Like.fromId l, Like.toId l)) (Store.likes db)).

(** The unique index [matches_userAId_userBId_key] holds of the store. *)
Definition matches_unique (db : Store.t) : Prop :=
  NoDup (map (fun m => (Match.userAId m, Match.userBId m)) (Store.matches db)).

(** [canAccess(userId, matchId)]: an active match with that id has the
    user as one of its two participants. *)
Definition canAccess (db : Store.t) (userId : string) (matchId : nat) : Prop :=
  exists m, In m (Store.matches db)
            /\ Match.id m = matchId
            /\ (Match.userAId m = userId \/ Match.userBId m = userId)
            /\ Match.active m = true.

Definition notFound : Handler.Response :=
  Handler.json_status (Handler.ErrorBody "Match not found") 404.

Definition alreadyLiked : Handler.Response :=
  Handler.json_status (Handler.ErrorBody "Already liked this user") 400.

Definition internalError : Handler.Response :=
  Handler.json_status (Handler.ErrorBody "Internal server error") 500.

(** A JSON body the message schema rejects: no string, an empty one, or
    one of more than 1000 code units. *)
Definition rejected_body (body : option JSString.t) : Prop :=
  match body with
  | Some b => List.length b = 0%nat \/ (1000 < List.length b)%nat
  | None => True
  end.

(** What [expressInterest(x, y)] does on a store in which [x] and [y] are
    distinct users, read off the handler: the outcome depends on the
    likes of the pair and on the match rows stored as [(x, y)] only. *)
Definition expressInterest_outcome (db : Store.t) (x y : string)
    : Handler.Response * Store.t :=
  if existsb (Store.like_is x y) (Store.likes db) then (alreadyLiked, db)
  else
    let like := Store.new_like db x y None in
    let db1 := Store.insert_like db like in
    if existsb (Store.like_is y x) (Store.likes db) then
      if existsb (Store.match_is x y) (Store.matches db) then
        (internalError, db1)
      else
        let m := Store.new_match db1 x y in
        (Handler.json (Handler.LikeBody like (Some m) true "It's a match! 🎉"),
         Store.insert_match db1 m)
    else
      (Handler.json (Handler.LikeBody like None false
         "Like sent! You'll be notified if they like you back."), db1).

(** The candidates of a response of the recommendations route. *)
Definition feed (r : Handler.Response) : list RecommendationsRoute.Scored :=
  match Handler.payload r with
  | Handler.RecommendationsBody recs => recs
  | _ => []
  end.

(** Stores for the concrete cases. *)
Definition member (uid : string) : User.t :=
  {| User.id := uid; User.profile := ScoringSpec.blank |}.

(** Three members, nothing else. *)
Definition fresh : Store.t :=
  {| Store.users := [member "a"; member "b"; member "c"];
     Store.likes := []; Store.matches := []; Store.messages := [];
     Store.realtime := []; Store.nextId := 0; Store.clock := 0 |}.

(** [b] likes [a], and a match of the pair is stored as [(b, a)], while
    [a] has no like toward [b]. *)
Definition half_matched : Store.t :=
  {| Store.users := [member "a"; member "b"; member "c"];
     Store.likes :=
       [{| Like.id := 0; Like.fromId := "b"; Like.toId := "a";
           Like.message := None; Like.createdAt := 0 |}];
     Store.matches :=
       [{| Match.id := 1; Match.userAId := "b"; Match.userBId := "a";
           Match.createdAt := 1; Match.active := true |}];
     Store.messages := [];
     Store.realtime := []; Store.nextId := 2; Store.clock := 2 |}.

(** [a] and [b] are matched (match 2), [a] also likes [c]. *)
Definition matched : Store.t :=
  {| Store.users := [member "a"; member "b"; member "c"];
     Store.likes :=
       [{| Like.id := 0; Like.fromId := "a"; Like.toId := "b";
           Like.message := None; Like.createdAt := 0 |};
        {| Like.id := 1; Like.fromId := "b"; Like.toId := "a";
           Like.message := None; Like.createdAt := 1 |};
        {| Like.id := 3; Like.fromId := "a"; Like.toId := "c";
           Like.message := None; Like.createdAt := 3 |}];
     Store.matches :=
       [{| Match.id := 2; Match.userAId := "b"; Match.userBId := "a";
           Match.createdAt := 2; Match.active := true |}];
     Store.messages := [];
     Store.realtime := []; Store.nextId := 4; Store.clock := 4 |}.

(** Each side records its like, then each finds the other's like and
    creates a match. *)
Definition crossing : list Race.side :=
  [Race.First; Race.First; Race.First;
   Race.Second; Race.Second; Race.Second;
   Race.First; Race.First;
   Race.Second; Race.Second].

End LedgerSpec.

(** ** Definitions used to state further properties of the like route *)

From Stdlib Require Import Sorting.Permutation Sorting.Sorted.

Module LikeSpec.

(** The request [x] sends to like [y] with an optional message. *)
Definition like (x y : string) (message : option string) : LikeRoute.Request :=
  {| LikeRoute.auth := Some x;
     LikeRoute.parsed :=
       Some {| LikeRoute.toUserId := y; LikeRoute.message := message |} |}.

Definition selfLike : Handler.Response :=
  Handler.json_status (Handler.ErrorBody "Cannot like yourself") 400.

Definition userNotFound : Handler.Response :=
  Handler.json_status (Handler.ErrorBody "User not found") 404.

(** The four effects a like request can have on the store: none; the
    like alone, answered as pending; the like alone, the match insert
    having hit the unique index; the like and a match row. *)
Inductive effect (request : LikeRoute.Request) (db : Store.t)
    : Handler.Response -> Store.t -> Prop :=
| Rejected (r : Handler.Response) :
    Handler.status r <> 200%nat ->
    effect request db r db
| Pending (x y : string) (message : option string) :
    request = like x y message ->
    x <> y ->
    Store.user_exists db x = true ->
    Store.user_exists db y = true ->
    existsb (Store.like_is x y) (Store.likes db) = false ->
    existsb (Store.like_is y x) (Store.likes db) = false ->
    effect request db
      (Handler.json
         (Handler.LikeBody (Store.new_like db x y message) None false
            "Like sent! You'll be notified if they like you back."))
      (Store.insert_like db (Store.new_like db x y message))
| Conflict (x y : string) (message : option string) :
    request = like x y message ->
    x <> y ->
    Store.user_exists db x = true ->
    Store.user_exists db y = true ->
    existsb (Store.like_is x y) (Store.likes db) = false ->
    existsb (Store.like_is y x) (Store.likes db) = true ->
    existsb (Store.match_is x y) (Store.matches db) = true ->
    effect request db LedgerSpec.internalError
      (Store.insert_like db (Store.new_like db x y message))
| Matched (x y : string) (message : option string) :
    request = like x y message ->
    x <> y ->
    Store.user_exists db x = true ->
    Store.user_exists db y = true ->
    existsb (Store.like_is x y) (Store.likes db) = false ->
    existsb (Store.like_is y x) (Store.likes db) = true ->
    existsb (Store.match_is x y) (Store.matches db) = false ->
    effect request db
      (Handler.json
         (Handler.LikeBody (Store.new_like db x y message)
            (Some (Store.new_match
                     (Store.insert_like db (Store.new_like db x y message))
                     x y))
            true "It's a match! 🎉"))
      (Store.insert_match
         (Store.insert_like db (Store.new_like db x y message))
         (Store.new_match
            (Store.insert_like db (Store.new_like db x y message)) x y)).

(** What the like of [y] by [x] does on a store in which they are
    distinct users, read off the handler. *)
Definition outcome (db : Store.t) (x y : string) (message : option string)
    : Handler.Response * Store.t :=
  if existsb (Store.like_is x y) (Store.likes db)
  then (LedgerSpec.alreadyLiked, db)
  else
    let like := Store.new_like db x y message in
    let db1 := Store.insert_like db like in
    if existsb (Store.like_is y x) (Store.likes db) then
      if existsb (Store.match_is x y) (Store.matches db) then
        (LedgerSpec.internalError, db1)
      else
        let m := Store.new_match db1 x y in
        (Handler.json (Handler.LikeBody like (Some m) true "It's a match! 🎉"),
         Store.insert_match db1 m)
    else
      (Handler.json (Handler.LikeBody like None false
         "Like sent! You'll be notified if they like you back."), db1).

(** The store after [a] has liked [b] and [b] has liked [a] back, when
    neither like and no match row of the pair was there. *)
Definition after_mutual (db : Store.t) (a b : string)
    (messageA messageB : option string) : Store.t :=
  let db1 := Store.insert_like db (Store.new_like db a b messageA) in
  let db2 := Store.insert_like db1 (Store.new_like db1 b a messageB) in
  Store.insert_match db2 (Store.new_match db2 b a).

(** Like requests served one after the other. *)
Definition serve (requests : list LikeRoute.Request) (db : Store.t) : Store.t :=
  fold_left (fun db request => snd (Handler.run (LikeRoute.POST request) db))
    requests db.

(** No like from a user to themself. *)
Definition no_self_like (db : Store.t) : Prop :=
  forall l, In l (Store.likes db) -> Like.fromId l <> Like.toId l.

(** Every match row has the likes of its two users behind it. *)
Definition matches_backed (db : Store.t) : Prop :=
  forall m, In m (Store.matches db) ->
    existsb (Store.like_is (Match.userAId m) (Match.userBId m)) (Store.likes db)
    = true
    /\ existsb (Store.like_is (Match.userBId m) (Match.userAId m))
         (Store.likes db) = true.

(** At most one match row for an unordered pair of users. *)
Definition one_match_per_pair (db : Store.t) : Prop :=
  forall x y, (LedgerSpec.match_rows db x y <= 1)%nat.

Definition ledger_ok (db : Store.t) : Prop :=
  no_self_like db /\ matches_backed db /\ one_match_per_pair db.

(** The foreign keys of likes, matches and messages hold of the store. *)
Definition likes_fk (db : Store.t) : Prop :=
  forall l, In l (Store.likes db) ->
    Store.user_exists db (Like.fromId l) = true
    /\ Store.user_exists db (Like.toId l) = true.

Definition matches_fk (db : Store.t) : Prop :=
  forall m, In m (Store.matches db) ->
    Store.user_exists db (Match.userAId m) = true
    /\ Store.user_exists db (Match.userBId m) = true.

Definition messages_fk (db : Store.t) : Prop :=
  forall msg, In msg (Store.messages db) ->
    Store.match_exists db (Message.matchId msg) = true
    /\ Store.user_exists db (Message.senderId msg) = true.

(** The constraints of the migration: both unique indexes and the foreign
    keys. *)
Definition constraints_ok (db : Store.t) : Prop :=
  LedgerSpec.likes_unique db /\ LedgerSpec.matches_unique db
  /\ likes_fk db /\ matches_fk db /\ messages_fk db.

(** [l] is [l0] with rows appended. *)
Definition extends {A : Type} (l0 l : list A) : Prop :=
  exists rows, l = (l0 ++ rows)%list.

End LikeSpec.


(** ** Definitions used to state further properties of the messages route *)

Module MessageSpec.

(** [a] was created no later than [b]. *)
Definition earlier (a b : Message.t) : Prop :=
  (Message.createdAt a <= Message.createdAt b)%nat.

Definition of_match (matchId : nat) (msg : Message.t) : bool :=
  Nat.eqb (Message.matchId msg) matchId.

(** The messages a response of the messages route lists. *)
Definition listed (r : Handler.Response) : list Message.t :=
  match Handler.payload r with
  | Handler.MessagesBody messages => messages
  | _ => []
  end.

(** No stored message is stamped later than the clock. *)
Definition timestamps_ok (db : Store.t) : Prop :=
  forall msg, In msg (Store.messages db) ->
    (Message.createdAt msg <= Store.clock db)%nat.

(** Every stored message was sent by a participant of its match. *)
Definition by_participants (db : Store.t) : Prop :=
  forall msg, In msg (Store.messages db) ->
    exists m, In m (Store.matches db)
              /\ Match.id m = Message.matchId msg
              /\ (Match.userAId m = Message.senderId msg
                  \/ Match.userBId m = Message.senderId msg).

End MessageSpec.


(** ** Definitions used to state further properties of scoring and the feed *)

Module FeedSpec.

(** A user the viewer can be shown: someone else, toward whom the viewer
    has no stored like. *)
Definition eligible (db : Store.t) (viewer : string) (u : User.t) : bool :=
  negb (String.eqb (User.id u) viewer)
  && negb (existsb (Store.like_is viewer (User.id u)) (Store.likes db)).

(** A candidate with the score and the reasons the viewer gets for them. *)
Definition scored (viewer : User.t) (candidate : User.t)
    : RecommendationsRoute.Scored :=
  (candidate,
   Scoring.score
     (Scoring.calculateMatchScore (User.profile viewer)
        (User.profile candidate)),
   Scoring.reasons
     (Scoring.calculateMatchScore (User.profile viewer)
        (User.profile candidate))).

(** [a] may stand before [b] in the feed: the score of [b] is not above the
    score of [a]. *)
Definition not_below (a b : RecommendationsRoute.Scored) : Prop :=
  PrimFloat.leb (RecommendationsRoute.matchScore b)
    (RecommendationsRoute.matchScore a) = true.

(** A scored candidate whose score is the Number of an integer of
    [0, 85]; two of them in feed order. *)
Definition small (r : RecommendationsRoute.Scored) : Prop :=
  exists n, 0 <= n <= 85 /\ RecommendationsRoute.matchScore r = JS.Num n.

Definition ordered (a b : RecommendationsRoute.Scored) : Prop :=
  small a /\ small b /\ not_below a b.

(** The tag lists and the skill names of a profile have no repetition. *)
Definition distinct_tags (u : Scoring.UserWithRelations) : Prop :=
  NoDup (map Scoring.tag (Scoring.offers u))
  /\ NoDup (map Scoring.tag (Scoring.lookingFor u))
  /\ NoDup (map (fun s => Scoring.name (Scoring.skill s)) (Scoring.skills u)).

(** A store of two well-formed profiles for the concrete cases. *)
Definition pair_store : Store.t :=
  {| Store.users :=
       [{| User.id := "v"; User.profile := ScoringExamples.viewer |};
        {| User.id := "k"; User.profile := ScoringExamples.candidate |};
        {| User.id := "n"; User.profile := ScoringSpec.blank |}];
     Store.likes := []; Store.matches := []; Store.messages := [];
     Store.realtime := []; Store.nextId := 0; Store.clock := 0 |}.

End FeedSpec.


(** ** The matches route and the invitations route

    Two routes that only read.  Their store calls are not among those of
    the handlers above; they are modelled as functions of the store in an
    error monad, a thrown error ending in the [catch] block of the
    handler.  The [include] of a required relation fails when the related
    row is missing. *)

Module Listing.

Inductive result (A : Type) : Type :=
| Ok (a : A)
| Thrown (e : Store.PrismaError).
Arguments Ok {A} a.
Arguments Thrown {A} e.

Definition bind {A B : Type} (m : result A) (k : A -> result B) : result B :=
  match m with
  | Ok a => k a
  | Thrown e => Thrown e
  end.

Notation "x <- 'await' m ;; k" := (bind m (fun x => k))
  (at level 61, m at next level, right associativity).

(** [Promise.all(rows.map(async row => f row))]: the results in the order
    of the rows, or the first error. *)
Fixpoint all {A B : Type} (f : A -> result B) (rows : list A)
    : result (list B) :=
  match rows with
  | [] => Ok []
  | row :: rows =>
      b <- await f row ;;
      bs <- await all f rows ;;
      Ok (b :: bs)
  end.

(** The columns of a user the two routes select that the user row of the
    model has: [id], [headline], [location]. *)
Record PublicUser := {
  id : string;
  headline : option string;
  location : option string
}.

Definition select (u : User.t) : PublicUser :=
  {| id := User.id u;
     headline := Scoring.headline (User.profile u);
     location := Scoring.location (User.profile u) |}.

(** The [include] of a user by foreign key. *)
Definition include_user (db : Store.t) (uid : string) (relation : string)
    : result PublicUser :=
  match Store.user_findUnique db uid with
  | Some u => Ok (select u)
  | None => Thrown (Store.ForeignKeyViolation relation)
  end.

(** Stable insertion sort by a [createdAt] column, descending. *)
Fixpoint insert_desc {A : Type} (createdAt : A -> nat) (x : A) (l : list A)
    : list A :=
  match l with
  | [] => [x]
  | y :: ys =>
      if (createdAt y <=? createdAt x)%nat then x :: y :: ys
      else y :: insert_desc createdAt x ys
  end.

Definition sort_desc {A : Type} (createdAt : A -> nat) (l : list A) : list A :=
  fold_right (insert_desc createdAt) [] l.

(** The [where] clause [{ OR: [{ userAId: user }, { userBId: user }] }]. *)
Definition involves (user : string) (m : Match.t) : bool :=
  String.eqb (Match.userAId m) user || String.eqb (Match.userBId m) user.

Record MatchWithUsers := {
  row : Match.t;
  userA : PublicUser;
  userB : PublicUser
}.

(** [prisma.match.findMany({ where: { OR: [...], active: true },
    include: { userA, userB }, orderBy: { createdAt: 'desc' } })]. *)
Definition match_findMany_active (db : Store.t) (user : string)
    : result (list MatchWithUsers) :=
  all (fun m =>
         a <- await include_user db (Match.userAId m) "userA" ;;
         b <- await include_user db (Match.userBId m) "userB" ;;
         Ok {| row := m; userA := a; userB := b |})
      (sort_desc Match.createdAt
         (filter (fun m => involves user m && Bool.eqb (Match.active m) true)
                 (Store.matches db))).

(** [prisma.match.findMany({ where: { OR: [...] } })]. *)
Definition match_findMany (db : Store.t) (user : string) : list Match.t :=
  filter (involves user) (Store.matches db).

Record LikeWithFrom := {
  like : Like.t;
  from : PublicUser
}.

(** [prisma.like.findMany({ where: { toId }, include: { from },
    orderBy: { createdAt: 'desc' } })]. *)
Definition like_findMany_to (db : Store.t) (user : string)
    : result (list LikeWithFrom) :=
  all (fun l =>
         f <- await include_user db (Like.fromId l) "from" ;;
         Ok {| like := l; from := f |})
      (sort_desc Like.createdAt
         (filter (fun l => String.eqb (Like.toId l) user) (Store.likes db))).

(** An entry of the matches route. *)
Record Entry := {
  entry_id : nat;
  user : PublicUser;
  originalMessage : option string;
  matchedAt : nat
}.

Inductive Body :=
| ErrorBody (error : string)
| MatchesBody (matches : list Entry)
| InvitationsBody (invitations : list LikeWithFrom).

Record Response := { payload : Body; status : nat }.

Definition json (b : Body) : Response := {| payload := b; status := 200 |}.
Definition json_status (b : Body) (st : nat) : Response :=
  {| payload := b; status := st |}.

(** [try { ... } catch (error) { return handler }] around a computation. *)
Definition try_catch (body : result Response)
    (handler : Store.PrismaError -> Response) : Response :=
  match body with
  | Ok r => r
  | Thrown e => handler e
  end.

(** [originalLike?.message || null]. *)
Definition message_or_null (originalLike : option Like.t) : option string :=
  match originalLike with
  | Some l =>
      match Like.message l with
      | Some s => if String.eqb s "" then None else Some s
      | None => None
      end
  | None => None
  end.

(** [GET] of the matches route. *)
Definition GET_matches (auth : option string) (db : Store.t) : Response :=
  try_catch
    match auth with
    | None => Ok (json_status (ErrorBody "Unauthorized") 401)
    | Some user =>
    matches <- await match_findMany_active db user ;;
    (* Get the original like messages for each match *)
    matchesWithMessages <- await
      all (fun m =>
             let otherUser :=
               if String.eqb (Match.userAId (row m)) user
               then userB m else userA m in
             (* Get the original like message from the other user *)
             let originalLike :=
               Store.like_findUnique db (id otherUser) user in
             Ok {| entry_id := Match.id (row m);
                   user := otherUser;
                   originalMessage := message_or_null originalLike;
                   matchedAt := Match.createdAt (row m) |})
          matches ;;
    Ok (json (MatchesBody matchesWithMessages))
    end
    (fun _ => json_status (ErrorBody "Internal server error") 500).

(** [GET] of the invitations route. *)
Definition GET_invitations (auth : option string) (db : Store.t) : Response :=
  try_catch
    match auth with
    | None => Ok (json_status (ErrorBody "Unauthorized") 401)
    | Some user =>
    (* Get all likes received by the current user *)
    receivedLikes <- await like_findMany_to db user ;;
    (* Check which ones are already matched (mutual likes) *)
    let matches := match_findMany db user in
    let matchedUserIds :=
      map (fun m =>
             if String.eqb (Match.userAId m) user
             then Match.userBId m else Match.userAId m)
          matches in
    (* Filter out already matched invitations *)
    let invitations :=
      filter (fun l => negb (JS.includes matchedUserIds (Like.fromId (like l))))
             receivedLikes in
    Ok (json (InvitationsBody invitations))
    end
    (fun _ => json_status (ErrorBody "Internal server error") 500).

Definition entries (r : Response) : list Entry :=
  match payload r with
  | MatchesBody l => l
  | _ => []
  end.

Definition invitations (r : Response) : list LikeWithFrom :=
  match payload r with
  | InvitationsBody l => l
  | _ => []
  end.

End Listing.

(** ** Definitions used to state the properties of the two routes *)

Module ListingSpec.

(** [a] was created no earlier than [b]. *)
Definition later {A : Type} (createdAt : A -> nat) (a b : A) : Prop :=
  (createdAt b <= createdAt a)%nat.

(** The other participant of a match row. *)
Definition other (user : string) (m : Match.t) : string :=
  if String.eqb (Match.userAId m) user
  then Match.userBId m else Match.userAId m.

(** The message of a like as the matches route shows it: an absent or
    empty message is shown as none. *)
Definition shown (message : option string) : option string :=
  match message with
  | Some s => if String.eqb s "" then None else Some s
  | None => None
  end.

(** The public columns of the user with a given id. *)
Definition public (db : Store.t) (uid : string) : Listing.PublicUser :=
  match Store.user_findUnique db uid with
  | Some u => Listing.select u
  | None =>
      {| Listing.id := uid; Listing.headline := None;
         Listing.location := None |}
  end.

(** The entry of the matches route for a match row of [user]. *)
Definition entry_of (db : Store.t) (user : string) (m : Match.t)
    : Listing.Entry :=
  {| Listing.entry_id := Match.id m;
     Listing.user := public db (other user m);
     Listing.originalMessage :=
       Listing.message_or_null
         (Store.like_findUnique db (other user m) user);
     Listing.matchedAt := Match.createdAt m |}.

(** The active match rows of [user]. *)
Definition active_of (user : string) (m : Match.t) : bool :=
  Listing.involves user m && Bool.eqb (Match.active m) true.

(** A pending invitation to [user]: a like received from someone no match
    row of whom with [user] is stored, in either order, active or not. *)
Definition pending (db : Store.t) (user : string) (l : Like.t) : bool :=
  String.eqb (Like.toId l) user
  && negb (existsb (LedgerSpec.pair_is (Like.fromId l) user)
                   (Store.matches db)).

End ListingSpec.

(** ** The rest of the schema

    The tables that the account route and the startup routes touch besides
    those of the matching engine, and the users of the identity provider.
    Every foreign key of the initial migration is [ON DELETE CASCADE]:
    deleting a row deletes the rows that refer to it. *)

Module Report.
Record t := {
  id : nat;
  reporterId : string;
  targetUserId : string;
  reason : string;
  createdAt : nat
}.
End Report.

(** The columns of the initial migration and those the startup route
    writes. *)
Module Startup.
Record t := {
  id : nat;
  ownerId : string;
  name : string;
  oneLiner : string;
  stage : string;
  markets : list string;
  problem : option string;
  solution : option string;
  plan : option string;
  logoUrl : option string;
  imageUrls : list string;
  websiteUrl : option string;
  demoUrl : option string;
  deckUrl : option string;
  teamSize : option Z;
  hiringNeeds : list string;
  keywords : list string;
  createdAt : nat;
  updatedAt : nat
}.
End Startup.

Module Db.

Record t := {
  (** users with their relations, likes, matches and messages *)
  core : Store.t;
  reports : list Report.t;
  startups : list Startup.t;
  (** the users of the identity provider *)
  accounts : list string
}.

(** What a call throws: the two errors of the ORM that the routes can
    meet, and the error of [request.json()] on a body that is no JSON. *)
Inductive Error :=
| RecordNotFound (model : string)
| ValidationError (argument : string)
| SyntaxError.

Inductive result (A : Type) : Type :=
| Ok (a : A)
| Thrown (e : Error).
Arguments Ok {A} a.
Arguments Thrown {A} e.

(** An awaited computation on the database. *)
Definition M (A : Type) : Type := t -> t * result A.

Definition ret {A : Type} (a : A) : M A := fun db => (db, Ok a).

Definition bind {A B : Type} (m : M A) (k : A -> M B) : M B :=
  fun db =>
    match m db with
    | (db', Ok a) => k a db'
    | (db', Thrown e) => (db', Thrown e)
    end.

Declare Scope db_scope.
Delimit Scope db_scope with db.
Notation "x <- 'await' m ;; k" := (bind m (fun x => k))
  (at level 61, m at next level, right associativity) : db_scope.
Notation "'await' m ;; k" := (bind m (fun _ => k))
  (at level 61, m at next level, right associativity) : db_scope.

Definition set_core (db : t) (s : Store.t) : t :=
  {| core := s; reports := reports db; startups := startups db;
     accounts := accounts db |}.

Definition set_users (s : Store.t) (l : list User.t) : Store.t :=
  {| Store.users := l; Store.likes := Store.likes s;
     Store.matches := Store.matches s; Store.messages := Store.messages s;
     Store.realtime := Store.realtime s;
     Store.nextId := Store.nextId s; Store.clock := Store.clock s |}.

Definition set_likes (s : Store.t) (l : list Like.t) : Store.t :=
  {| Store.users := Store.users s; Store.likes := l;
     Store.matches := Store.matches s; Store.messages := Store.messages s;
     Store.realtime := Store.realtime s;
     Store.nextId := Store.nextId s; Store.clock := Store.clock s |}.

Definition set_matches (s : Store.t) (l : list Match.t) : Store.t :=
  {| Store.users := Store.users s; Store.likes := Store.likes s;
     Store.matches := l; Store.messages := Store.messages s;
     Store.realtime := Store.realtime s;
     Store.nextId := Store.nextId s; Store.clock := Store.clock s |}.

Definition set_messages (s : Store.t) (l : list Message.t) : Store.t :=
  {| Store.users := Store.users s; Store.likes := Store.likes s;
     Store.matches := Store.matches s; Store.messages := l;
     Store.realtime := Store.realtime s;
     Store.nextId := Store.nextId s; Store.clock := Store.clock s |}.

(** The rows a [deleteMany] leaves, and its count. *)
Definition kept {A : Type} (where_ : A -> bool) (rows : list A) : list A :=
  filter (fun r => negb (where_ r)) rows.

Definition count {A : Type} (where_ : A -> bool) (rows : list A) : nat :=
  List.length (filter where_ rows).

(** Deleting match rows takes their messages with them
    ([messages_matchId_fkey]). *)
Definition delete_matches (where_ : Match.t -> bool) (s : Store.t) : Store.t :=
  let deleted := filter where_ (Store.matches s) in
  set_messages
    (set_matches s (kept where_ (Store.matches s)))
    (kept (fun msg =>
             existsb (fun m => Nat.eqb (Match.id m) (Message.matchId msg))
                     deleted)
          (Store.messages s)).

(** [prisma.message.deleteMany({ where: { senderId } })]. *)
Definition message_deleteMany (senderId : string) : M nat :=
  fun db =>
    let where_ := fun msg => String.eqb (Message.senderId msg) senderId in
    (set_core db
       (set_messages (core db) (kept where_ (Store.messages (core db)))),
     Ok (count where_ (Store.messages (core db)))).

(** [prisma.match.deleteMany({ where: { OR: [{ userAId }, { userBId }] } })]. *)
Definition match_deleteMany (user : string) : M nat :=
  fun db =>
    (set_core db (delete_matches (Listing.involves user) (core db)),
     Ok (count (Listing.involves user) (Store.matches (core db)))).

(** The [where] clause [{ OR: [{ fromId: user }, { toId: user }] }]. *)
Definition like_involves (user : string) (l : Like.t) : bool :=
  String.eqb (Like.fromId l) user || String.eqb (Like.toId l) user.

(** [prisma.like.deleteMany({ where: { OR: [{ fromId }, { toId }] } })]. *)
Definition like_deleteMany (user : string) : M nat :=
  fun db =>
    (set_core db
       (set_likes (core db) (kept (like_involves user) (Store.likes (core db)))),
     Ok (count (like_involves user) (Store.likes (core db)))).

(** [prisma.report.deleteMany({ where: { reporterId } })]. *)
Definition report_deleteMany (reporterId : string) : M nat :=
  fun db =>
    let where_ := fun r => String.eqb (Report.reporterId r) reporterId in
    ({| core := core db; reports := kept where_ (reports db);
        startups := startups db; accounts := accounts db |},
     Ok (count where_ (reports db))).

(** [prisma.startup.deleteMany({ where: { ownerId } })]. *)
Definition startup_deleteMany (ownerId : string) : M nat :=
  fun db =>
    let where_ := fun s => String.eqb (Startup.ownerId s) ownerId in
    ({| core := core db; reports := reports db;
        startups := kept where_ (startups db); accounts := accounts db |},
     Ok (count where_ (startups db))).

(** The relations of a user are carried in the user row: deleting the rows
    of a relation whose [userId] is the user empties it there. *)
Definition update_profile
    (f : Scoring.UserWithRelations -> Scoring.UserWithRelations)
    (userId : string) (s : Store.t) : Store.t :=
  set_users s
    (map (fun u =>
            if String.eqb (User.id u) userId
            then {| User.id := User.id u; User.profile := f (User.profile u) |}
            else u)
         (Store.users s)).

Definition relation_count {A : Type}
    (relation : Scoring.UserWithRelations -> list A) (userId : string)
    (s : Store.t) : nat :=
  list_sum
    (map (fun u => List.length (relation (User.profile u)))
         (filter (fun u => String.eqb (User.id u) userId) (Store.users s))).

(** [prisma.skillOnUser.deleteMany({ where: { userId } })]. *)
Definition skillOnUser_deleteMany (userId : string) : M nat :=
  fun db =>
    (set_core db
       (update_profile
          (fun p =>
             {| Scoring.offers := Scoring.offers p;
                Scoring.lookingFor := Scoring.lookingFor p;
                Scoring.skills := [];
                Scoring.location := Scoring.location p;
                Scoring.availability := Scoring.availability p;
                Scoring.bio := Scoring.bio p;
                Scoring.headline := Scoring.headline p |})
          userId (core db)),
     Ok (relation_count Scoring.skills userId (core db))).

(** [prisma.offer.deleteMany({ where: { userId } })]. *)
Definition offer_deleteMany (userId : string) : M nat :=
  fun db =>
    (set_core db
       (update_profile
          (fun p =>
             {| Scoring.offers := [];
                Scoring.lookingFor := Scoring.lookingFor p;
                Scoring.skills := Scoring.skills p;
                Scoring.location := Scoring.location p;
                Scoring.availability := Scoring.availability p;
                Scoring.bio := Scoring.bio p;
                Scoring.headline := Scoring.headline p |})
          userId (core db)),
     Ok (relation_count Scoring.offers userId (core db))).

(** [prisma.lookingFor.deleteMany({ where: { userId } })]. *)
Definition lookingFor_deleteMany (userId : string) : M nat :=
  fun db =>
    (set_core db
       (update_profile
          (fun p =>
             {| Scoring.offers := Scoring.offers p;
                Scoring.lookingFor := [];
                Scoring.skills := Scoring.skills p;
                Scoring.location := Scoring.location p;
                Scoring.availability := Scoring.availability p;
                Scoring.bio := Scoring.bio p;
                Scoring.headline := Scoring.headline p |})
          userId (core db)),
     Ok (relation_count Scoring.lookingFor userId (core db))).

(** What the deletion of the user row takes with it: the rows of every
    table with a foreign key to [users] (its relations go with the row;
    startups, likes, matches with their messages, messages, reports by
    [reporterId]; [targetUserId] of a report is no foreign key). *)
Definition cascade (uid : string) (db : t) : t :=
  let s := core db in
  let s := set_users s
             (kept (fun u => String.eqb (User.id u) uid) (Store.users s)) in
  let s := set_likes s (kept (like_involves uid) (Store.likes s)) in
  let s := delete_matches (Listing.involves uid) s in
  let s := set_messages s
             (kept (fun msg => String.eqb (Message.senderId msg) uid)
                   (Store.messages s)) in
  {| core := s;
     reports :=
       kept (fun r => String.eqb (Report.reporterId r) uid) (reports db);
     startups :=
       kept (fun st => String.eqb (Startup.ownerId st) uid) (startups db);
     accounts := accounts db |}.

(** [prisma.user.delete({ where: { id } })]: the row must exist. *)
Definition user_delete (uid : string) : M User.t :=
  fun db =>
    match Store.user_findUnique (core db) uid with
    | Some u => (cascade uid db, Ok u)
    | None => (db, Thrown (RecordNotFound "User"))
    end.

(** [supabase.auth.admin.deleteUser(id)]: the provider answers with an
    error or deletes its user; [refused] tells which.  The result is the
    [error] of the answer. *)
Definition auth_admin_deleteUser (refused : bool) (uid : string) : M bool :=
  fun db =>
    if refused then (db, Ok true)
    else
      ({| core := core db; reports := reports db; startups := startups db;
          accounts := kept (String.eqb uid) (accounts db) |},
       Ok false).

End Db.

(** ** The account deletion route *)

Module AccountRoute.
Import Db.

Inductive Body :=
| ErrorBody (error : string)
| DeletedBody (message : string) (deleted : bool)
| FailedBody (error : string) (details : Error).

Record Response := { payload : Body; status : nat }.

Definition json (b : Body) : Response := {| payload := b; status := 200 |}.
Definition json_status (b : Body) (st : nat) : Response :=
  {| payload := b; status := st |}.

(** [try { body } catch (error) { return handler }]. *)
Definition try_catch (body : M Response) (handler : Error -> Response)
    (db : t) : Response * t :=
  match body db with
  | (db', Ok r) => (r, db')
  | (db', Thrown e) => (handler e, db')
  end.

Local Open Scope db_scope.

(** [DELETE]: [auth] is the user of the session, [refused] the answer of
    the identity provider to the deletion of its user. *)
Definition DELETE (auth : option string) (refused : bool) (db : t)
    : Response * t :=
  try_catch
    match auth with
    | None => ret (json_status (ErrorBody "Unauthorized") 401)
    | Some user =>
    (* 1. Delete messages *)
    await message_deleteMany user ;;
    (* 2. Delete matches where user is involved *)
    await match_deleteMany user ;;
    (* 3. Delete likes sent and received *)
    await like_deleteMany user ;;
    (* 4. Delete reports *)
    await report_deleteMany user ;;
    (* 5. Delete startups owned by user *)
    await startup_deleteMany user ;;
    (* 6. Delete user skills *)
    await skillOnUser_deleteMany user ;;
    (* 7. Delete offers *)
    await offer_deleteMany user ;;
    (* 8. Delete looking for *)
    await lookingFor_deleteMany user ;;
    (* 9. Finally delete the user record *)
    await user_delete user ;;
    (* 10. Delete from Supabase Auth; continue anyway on an error *)
    authError <- await auth_admin_deleteUser refused user ;;
    ret (json (DeletedBody "Account deleted successfully" true))
    end
    (fun error =>
       json_status (FailedBody "Failed to delete account" error) 500)
    db.

End AccountRoute.

(** ** Definitions used to state the properties of the account route *)

Module AccountSpec.

(** The foreign keys of reports and startups. *)
Definition reports_fk (db : Db.t) : Prop :=
  forall r, In r (Db.reports db) ->
    Store.user_exists (Db.core db) (Report.reporterId r) = true.

Definition startups_fk (db : Db.t) : Prop :=
  forall s, In s (Db.startups db) ->
    Store.user_exists (Db.core db) (Startup.ownerId s) = true.

(** The constraints of the migration on the whole database. *)
Definition constraints_ok (db : Db.t) : Prop :=
  LikeSpec.constraints_ok (Db.core db) /\ reports_fk db /\ startups_fk db.

(** The match rows of a message: those with its [matchId]. *)
Definition match_of (db : Db.t) (msg : Message.t) (m : Match.t) : Prop :=
  In m (Store.matches (Db.core db)) /\ Match.id m = Message.matchId msg.

(** No row refers to [uid] through a foreign key, and [uid] has no row. *)
Definition erased (uid : string) (db : Db.t) : Prop :=
  Store.user_exists (Db.core db) uid = false
  /\ (forall l, In l (Store.likes (Db.core db)) ->
        Like.fromId l <> uid /\ Like.toId l <> uid)
  /\ (forall m, In m (Store.matches (Db.core db)) ->
        Match.userAId m <> uid /\ Match.userBId m <> uid)
  /\ (forall msg, In msg (Store.messages (Db.core db)) ->
        Message.senderId msg <> uid)
  /\ (forall r, In r (Db.reports db) -> Report.reporterId r <> uid)
  /\ (forall s, In s (Db.startups db) -> Startup.ownerId s <> uid).

(** The route without its eight [deleteMany] calls: the deletion of the
    user row, then that of the provider's user. *)
Definition DELETE_user_row (auth : option string) (refused : bool)
    (db : Db.t) : AccountRoute.Response * Db.t :=
  AccountRoute.try_catch
    match auth with
    | None =>
        Db.ret (AccountRoute.json_status
                  (AccountRoute.ErrorBody "Unauthorized") 401)
    | Some user =>
        Db.bind (Db.user_delete user) (fun _ =>
        Db.bind (Db.auth_admin_deleteUser refused user) (fun _ =>
        Db.ret (AccountRoute.json
                  (AccountRoute.DeletedBody "Account deleted successfully"
                     true))))
    end
    (fun error =>
       AccountRoute.json_status
         (AccountRoute.FailedBody "Failed to delete account" error) 500)
    db.

(** The startup of the concrete cases. *)
Definition acme : Startup.t :=
  {| Startup.id := 8; Startup.ownerId := "a";
     Startup.name := "Acme"; Startup.oneLiner := "Anvils";
     Startup.stage := "idea"; Startup.markets := ["SaaS"; "B2B"];
     Startup.problem := Some "Coyotes"; Startup.solution := None;
     Startup.plan := None; Startup.logoUrl := None;
     Startup.imageUrls := []; Startup.websiteUrl := None;
     Startup.demoUrl := None; Startup.deckUrl := None;
     Startup.teamSize := Some 3; Startup.hiringNeeds := ["Engineer"];
     Startup.keywords := [];
     Startup.createdAt := 8; Startup.updatedAt := 8 |}.

(** The database of the concrete cases: the members [a], [b], [c]; [a]
    and [b] matched, with one message each way; a startup of [a]; a report
    by [a] against [c] and one by [c] against [a]. *)
Definition sample : Db.t :=
  {| Db.core :=
       {| Store.users := Store.users LedgerSpec.matched;
          Store.likes := Store.likes LedgerSpec.matched;
          Store.matches := Store.matches LedgerSpec.matched;
          Store.messages :=
            [{| Message.id := 4; Message.matchId := 2;
                Message.senderId := "a"; Message.body := JSString.units "hi";
                Message.readAt := None; Message.createdAt := 4 |};
             {| Message.id := 5; Message.matchId := 2;
                Message.senderId := "b"; Message.body := JSString.units "hello";
                Message.readAt := None; Message.createdAt := 5 |}];
          Store.realtime := [];
          Store.nextId := 9; Store.clock := 9 |};
     Db.reports :=
       [{| Report.id := 6; Report.reporterId := "a";
           Report.targetUserId := "c"; Report.reason := "spam";
           Report.createdAt := 6 |};
        {| Report.id := 7; Report.reporterId := "c";
           Report.targetUserId := "a"; Report.reason := "spam";
           Report.createdAt := 7 |}];
     Db.startups := [acme];
     Db.accounts := ["a"; "b"; "c"] |}.

End AccountSpec.

(** ** Comma-separated lists

    The profile route takes the skills of a user as one string, the names
    separated by commas; the edit page and the onboarding page make that
    string from their list of names. *)


Module ProfileRoute.
Import JSString.

(** [skills.split(',').map(s => s.trim()).filter(s => s.length > 0)], the
    expression of the [POST] and [PUT] handlers for the skill names, and
    for the offers and the wanted tags given as one string. *)
Definition skillNames (skills : t) : list t :=
  filter (fun s => (0 <? List.length s)%nat) (map trim (split comma skills)).

End ProfileRoute.

Module EditPage.
Import JSString.

(** [profileData.skills.join(', ')], the [skills] field that the edit page
    and the onboarding page send. *)
Definition skillsField (skills : list t) : t := join [comma; space] skills.

End EditPage.

(** ** Definitions used to state the properties of the lists *)

Module TagSpec.
Import JSString.

Definition starts_clean (s : t) : bool :=
  match s with
  | [] => true
  | c :: _ => negb (isWhiteSpace c)
  end.

Fixpoint ends_clean (s : t) : bool :=
  match s with
  | [] => true
  | [c] => negb (isWhiteSpace c)
  | _ :: rest => ends_clean rest
  end.

(** A name that comes back as it was sent: not empty, without a comma,
    and with no white space at either end. *)
Definition clean (s : t) : bool :=
  (0 <? List.length s)%nat
  && negb (existsb (N.eqb comma) s)
  && starts_clean s && ends_clean s.

End TagSpec.

(** ** The startup routes

    The routes of one startup ([GET], [PUT], [DELETE] by id) and the list
    of the startups of the caller.  The body of a [PUT] is the JSON value
    the handler reads its fields from: each field is absent, [null], or a
    value of the type of its column. *)

Module StartupRoute.
Import Db.

Inductive Field (A : Type) : Type :=
| Undefined
| Null
| Value (a : A).
Arguments Undefined {A}.
Arguments Null {A}.
Arguments Value {A} a.

Record Body := {
  name : Field string;
  oneLiner : Field string;
  stage : Field string;
  markets : Field (list string);
  problem : Field string;
  solution : Field string;
  plan : Field string;
  logoUrl : Field string;
  imageUrls : Field (list string);
  websiteUrl : Field string;
  demoUrl : Field string;
  deckUrl : Field string;
  teamSize : Field Z;
  hiringNeeds : Field (list string);
  keywords : Field (list string)
}.

(** [field || []]: an array is truthy, also when empty. *)
Definition or_empty {A : Type} (field : Field (list A)) : list A :=
  match field with
  | Value l => l
  | _ => []
  end.

(** A column in the [data] of an update: [undefined] leaves the column as
    it is; [null] empties a nullable column and is refused for a required
    one. *)
Definition required {A : Type} (argument : string) (field : Field A)
    (old : A) : result A :=
  match field with
  | Undefined => Ok old
  | Null => Thrown (ValidationError argument)
  | Value a => Ok a
  end.

Definition nullable {A : Type} (field : Field A) (old : option A)
    : option A :=
  match field with
  | Undefined => old
  | Null => None
  | Value a => Some a
  end.

(** The [data] of the update of [PUT], applied to a row; [updatedAt] is
    set by the ORM. *)
Definition data (body : Body) (now : nat) (row : Startup.t)
    : result Startup.t :=
  match required "name" (name body) (Startup.name row),
        required "oneLiner" (oneLiner body) (Startup.oneLiner row),
        required "stage" (stage body) (Startup.stage row) with
  | Ok name, Ok oneLiner, Ok stage =>
      Ok {| Startup.id := Startup.id row;
            Startup.ownerId := Startup.ownerId row;
            Startup.name := name;
            Startup.oneLiner := oneLiner;
            Startup.stage := stage;
            Startup.markets := or_empty (markets body);
            Startup.problem := nullable (problem body) (Startup.problem row);
            Startup.solution :=
              nullable (solution body) (Startup.solution row);
            Startup.plan := nullable (plan body) (Startup.plan row);
            Startup.logoUrl := nullable (logoUrl body) (Startup.logoUrl row);
            Startup.imageUrls := or_empty (imageUrls body);
            Startup.websiteUrl :=
              nullable (websiteUrl body) (Startup.websiteUrl row);
            Startup.demoUrl := nullable (demoUrl body) (Startup.demoUrl row);
            Startup.deckUrl := nullable (deckUrl body) (Startup.deckUrl row);
            Startup.teamSize :=
              nullable (teamSize body) (Startup.teamSize row);
            Startup.hiringNeeds := or_empty (hiringNeeds body);
            Startup.keywords := or_empty (keywords body);
            Startup.createdAt := Startup.createdAt row;
            Startup.updatedAt := now |}
  | Thrown e, _, _ => Thrown e
  | _, Thrown e, _ => Thrown e
  | _, _, Thrown e => Thrown e
  end.

Definition set_startups (db : t) (l : list Startup.t) : t :=
  {| core := core db; reports := reports db; startups := l;
     accounts := accounts db |}.

(** The clock advances on a write. *)
Definition tick (db : t) : t :=
  set_core db
    {| Store.users := Store.users (core db);
       Store.likes := Store.likes (core db);
       Store.matches := Store.matches (core db);
       Store.messages := Store.messages (core db);
       Store.realtime := Store.realtime (core db);
       Store.nextId := Store.nextId (core db);
       Store.clock := S (Store.clock (core db)) |}.

(** [prisma.startup.findFirst({ where: { id, ownerId } })]. *)
Definition startup_findFirst (id : nat) (ownerId : string)
    : M (option Startup.t) :=
  fun db =>
    (db,
     Ok (find (fun s => Nat.eqb (Startup.id s) id
                        && String.eqb (Startup.ownerId s) ownerId)
              (startups db))).

(** [prisma.startup.findMany({ where: { ownerId },
    orderBy: { createdAt: 'desc' } })]. *)
Definition startup_findMany (ownerId : string) : M (list Startup.t) :=
  fun db =>
    (db,
     Ok (Listing.sort_desc Startup.createdAt
           (filter (fun s => String.eqb (Startup.ownerId s) ownerId)
                   (startups db)))).

(** [prisma.startup.update({ where: { id }, data })]: the row with the
    id must exist. *)
Definition startup_update (id : nat) (body : Body) : M Startup.t :=
  fun db =>
    match find (fun s => Nat.eqb (Startup.id s) id) (startups db) with
    | None => (db, Thrown (RecordNotFound "Startup"))
    | Some row =>
        match data body (Store.clock (core db)) row with
        | Thrown e => (db, Thrown e)
        | Ok row' =>
            (tick
               (set_startups db
                  (map (fun s => if Nat.eqb (Startup.id s) id then row' else s)
                       (startups db))),
             Ok row')
        end
    end.

(** [prisma.startup.delete({ where: { id } })]: the row with the id must
    exist; no table refers to startups. *)
Definition startup_delete (id : nat) : M Startup.t :=
  fun db =>
    match find (fun s => Nat.eqb (Startup.id s) id) (startups db) with
    | None => (db, Thrown (RecordNotFound "Startup"))
    | Some row =>
        (set_startups db
           (kept (fun s => Nat.eqb (Startup.id s) id) (startups db)),
         Ok row)
    end.

Inductive Payload :=
| ErrorBody (error : string)
| StartupBody (startup : Startup.t)
| StartupsBody (startups : list Startup.t)
| MessageBody (message : string).

Record Response := { payload : Payload; status : nat }.

Definition json (b : Payload) : Response := {| payload := b; status := 200 |}.
Definition json_status (b : Payload) (st : nat) : Response :=
  {| payload := b; status := st |}.

(** [try { body } catch (error) { return handler }]. *)
Definition try_catch (body : M Response) (handler : Error -> Response)
    (db : t) : Response * t :=
  match body db with
  | (db', Ok r) => (r, db')
  | (db', Thrown e) => (handler e, db')
  end.

(** [await request.json()]: [None] when the body is no JSON. *)
Definition request_json (body : option Body) : M Body :=
  fun db =>
    match body with
    | Some b => (db, Ok b)
    | None => (db, Thrown SyntaxError)
    end.

Local Open Scope db_scope.

(** [GET] of the list of startups. *)
Definition GET_list (auth : option string) : t -> Response * t :=
  try_catch
    match auth with
    | None => ret (json_status (ErrorBody "Unauthorized") 401)
    | Some user =>
    startups <- await startup_findMany user ;;
    ret (json (StartupsBody startups))
    end
    (fun _ => json_status (ErrorBody "Internal server error") 500).

(** [GET] of one startup. *)
Definition GET (auth : option string) (id : nat) : t -> Response * t :=
  try_catch
    match auth with
    | None => ret (json_status (ErrorBody "Unauthorized") 401)
    | Some user =>
    startup <- await startup_findFirst id user ;;
    match startup with
    | None => ret (json_status (ErrorBody "Startup not found") 404)
    | Some startup => ret (json (StartupBody startup))
    end
    end
    (fun _ => json_status (ErrorBody "Internal server error") 500).

Definition PUT (auth : option string) (id : nat) (body : option Body)
    : t -> Response * t :=
  try_catch
    match auth with
    | None => ret (json_status (ErrorBody "Unauthorized") 401)
    | Some user =>
    body <- await request_json body ;;
    (* Check if startup exists and belongs to user *)
    existingStartup <- await startup_findFirst id user ;;
    match existingStartup with
    | None => ret (json_status (ErrorBody "Startup not found") 404)
    | Some _ =>
    updatedStartup <- await startup_update id body ;;
    ret (json (StartupBody updatedStartup))
    end
    end
    (fun _ => json_status (ErrorBody "Internal server error") 500).

Definition DELETE (auth : option string) (id : nat) : t -> Response * t :=
  try_catch
    match auth with
    | None => ret (json_status (ErrorBody "Unauthorized") 401)
    | Some user =>
    (* Check if startup exists and belongs to user *)
    existingStartup <- await startup_findFirst id user ;;
    match existingStartup with
    | None => ret (json_status (ErrorBody "Startup not found") 404)
    | Some _ =>
    await startup_delete id ;;
    ret (json (MessageBody "Startup deleted successfully"))
    end
    end
    (fun _ => json_status (ErrorBody "Internal server error") 500).

(** A request to one of the four routes. *)
Inductive Request :=
| List_
| Get (id : nat)
| Put (id : nat) (body : option Body)
| Delete (id : nat).

Definition serve (auth : option string) (request : Request)
    : t -> Response * t :=
  match request with
  | List_ => GET_list auth
  | Get id => GET auth id
  | Put id body => PUT auth id body
  | Delete id => DELETE auth id
  end.

End StartupRoute.

(** ** Definitions used to state the properties of the startup routes *)

Module StartupSpec.

(** The primary key of startups. *)
Definition startups_pkey (db : Db.t) : Prop :=
  NoDup (map Startup.id (Db.startups db)).



(** The startups of a response that lists startups. *)
Definition listed (r : StartupRoute.Response) : list Startup.t :=
  match StartupRoute.payload r with
  | StartupRoute.StartupsBody l => l
  | _ => []
  end.

Definition internalError : StartupRoute.Response :=
  StartupRoute.json_status
    (StartupRoute.ErrorBody "Internal server error") 500.

Definition notFound : StartupRoute.Response :=
  StartupRoute.json_status (StartupRoute.ErrorBody "Startup not found") 404.



End StartupSpec.

(** * Properties *)

(** ** Scoring *)

Section ScoringFacts.
Import JS Scoring ScoringSpec.

Lemma int_range_In (lo : Z) (n : nat) (z : Z) :
  lo <= z < lo + Z.of_nat n -> In z (int_range lo n).
Proof.
  intros Hz. unfold int_range. apply in_map_iff.
  exists (Z.to_nat (z - lo)). split; [lia | apply in_seq; lia].
Qed.

Lemma digits2_pos_bound (m : positive) :
  Z.pos m < 2 ^ Z.pos (digits2_pos m).
Proof.
  induction m as [m IH | m IH |]; simpl digits2_pos;
    rewrite ?Pos2Z.inj_succ, ?Z.pow_succ_r by lia; lia.
Qed.

(** Rounding a Number of [0, 85] gives the Number of an integer of
    [0, 85]: from the specification of the primitive operations. *)
Lemma Math_round_at_most_85 (x : float) :
  at_most_85 x = true -> exists n, 0 <= n <= 85 /\ Math_round x = Num n.
Proof.
  unfold at_most_85, Math_round.
  rewrite classify_spec, leb_spec.
  pose proof (SF2Prim_Prim2SF x) as Hx.
  destruct (Prim2SF x) as [s | s | | s m e]; unfold SF64classify, SFclassify.
  - destruct s; [discriminate |]. intros _. exists 0. split; [lia |].
    rewrite <- Hx. reflexivity.
  - destruct s; discriminate.
  - discriminate.
  - destruct s.
    { destruct (Z.pos (digits2_pos m) =? prec); discriminate. }
    destruct (Z.pos (digits2_pos m) =? prec) eqn:Hd; [| discriminate].
    apply Z.eqb_eq in Hd.
    pose proof (digits2_pos_bound m) as Hm. rewrite Hd in Hm.
    change (2 ^ prec) with 9007199254740992 in Hm.
    change (Prim2SF 85) with (S754_finite false 5981343255101440 (-46)).
    unfold SFleb, SFcompare.
    destruct (Z.compare_spec e (-46)) as [He | He | He]; try discriminate.
    + subst e. intros Hle.
      assert (Hmle : (m <= 5981343255101440)%positive).
      { unfold Pos.le, Pos.compare.
        destruct (Pos.compare_cont Eq m 5981343255101440); congruence. }
      apply Pos2Z.pos_le_pos in Hmle.
      clear Hx Hle Hd.
      rewrite andb_false_r. change (0 <=? -46) with false. cbv iota.
      change (2 ^ (- (-46))) with 70368744177664.
      change (2 ^ (- (-46) + 1)) with 140737488355328.
      eexists. split; [| reflexivity].
      split; [apply Z.div_pos; lia |].
      apply Z.lt_succ_r. apply Z.div_lt_upper_bound; lia.
    + intros _.
      assert (He0 : (0 <=? e) = false) by (apply Z.leb_gt; lia).
      rewrite He0. rewrite andb_false_r.
      eexists. split; [| reflexivity].
      set (k := - e). assert (Hk : 47 <= k) by lia.
      assert (Hp : 140737488355328 <= 2 ^ k)
        by (change 140737488355328 with (2 ^ 47); apply Z.pow_le_mono_r; lia).
      replace (k + 1) with (Z.succ k) by lia.
      rewrite Z.pow_succ_r by lia.
      clear Hx Hd. generalize dependent (2 ^ k). intros p Hp.
      split; [apply Z.div_pos; lia |].
      apply Z.lt_succ_r. apply Z.div_lt_upper_bound; lia.
Qed.

(** Every combination of term values a pair of profiles can produce sums
    to a Number of [0, 85]. *)
Lemma total_grid :
  forallb (fun t =>
  forallb (fun s =>
  forallb (fun l =>
  forallb (fun a =>
  forallb (fun c => at_most_85 (running_total t s l a c))
    completeness_terms)
    availability_terms)
    [None; Some 5; Some 10])
    [0; 4; 8; 12; 16; 20])
    [0; 8; 16; 24; 32; 40] = true.
Proof. vm_compute. reflexivity. Qed.

Lemma grid_point (t s : Z) (l : option Z) (a : option float) (c : float) :
  In t [0; 8; 16; 24; 32; 40] -> In s [0; 4; 8; 12; 16; 20] ->
  In l [None; Some 5; Some 10] ->
  In a availability_terms -> In c completeness_terms ->
  at_most_85 (running_total t s l a c) = true.
Proof.
  intros Ht Hs Hl Ha Hc.
  pose proof total_grid as G.
  rewrite forallb_forall in G. specialize (G _ Ht).
  rewrite forallb_forall in G. specialize (G _ Hs).
  rewrite forallb_forall in G. specialize (G _ Hl).
  rewrite forallb_forall in G. specialize (G _ Ha).
  rewrite forallb_forall in G. exact (G _ Hc).
Qed.

Lemma availability_cap :
  forallb (fun a => match a with
                    | Some a => PrimFloat.leb a 10
                    | None => true
                    end) availability_terms = true.
Proof. vm_compute. reflexivity. Qed.

Lemma completeness_cap :
  forallb (fun c => PrimFloat.leb c 5) completeness_terms = true.
Proof. vm_compute. reflexivity. Qed.

(** *** The availability term at any difference

    Past a difference of 100 the term [10 - d / 10] is negative and
    [Math.max] returns 0.  Up to 255 this is checked point by point; from
    256 on it follows from the shape of the Numbers involved: [d] has an
    exponent of at least -44, [d / 10] one of at least -48 and hence is at
    least 16, and 10 minus it has the sign bit set. *)

Lemma digits2_pos_lower (m : positive) :
  2 ^ (Z.pos (digits2_pos m) - 1) <= Z.pos m.
Proof.
  induction m as [m IH | m IH |]; simpl digits2_pos.
  - rewrite Pos2Z.inj_succ.
    replace (Z.succ (Z.pos (digits2_pos m)) - 1)
      with (Z.succ (Z.pos (digits2_pos m) - 1)) by lia.
    rewrite Z.pow_succ_r by lia. rewrite (Pos2Z.inj_xI m). lia.
  - rewrite Pos2Z.inj_succ.
    replace (Z.succ (Z.pos (digits2_pos m)) - 1)
      with (Z.succ (Z.pos (digits2_pos m) - 1)) by lia.
    rewrite Z.pow_succ_r by lia. rewrite (Pos2Z.inj_xO m). lia.
  - reflexivity.
Qed.

Lemma shr_1_m (mrs : shr_record) :
  0 <= shr_m mrs -> shr_m (shr_1 mrs) = shr_m mrs / 2.
Proof.
  destruct mrs as [m r s]. simpl. intros Hm.
  destruct m as [| p | p]; [reflexivity | | lia].
  destruct p as [p | p |]; simpl shr_m.
  - rewrite (Pos2Z.inj_xI p). apply Z.div_unique with 1; lia.
  - rewrite (Pos2Z.inj_xO p). apply Z.div_unique with 0; lia.
  - reflexivity.
Qed.

Lemma iter_shr_m (p : positive) (mrs : shr_record) :
  0 <= shr_m mrs ->
  shr_m (iter_pos shr_1 p mrs) = shr_m mrs / 2 ^ Z.pos p.
Proof.
  revert mrs. induction p as [p IH | p IH |]; intros mrs Hm; simpl iter_pos.
  - assert (H1 : 0 <= shr_m (shr_1 mrs))
      by (rewrite shr_1_m by exact Hm; apply Z.div_pos; lia).
    assert (H2 : 0 <= shr_m (iter_pos shr_1 p (shr_1 mrs)))
      by (rewrite IH by exact H1; apply Z.div_pos; [exact H1 | lia]).
    rewrite IH by exact H2. rewrite IH by exact H1.
    rewrite shr_1_m by exact Hm.
    rewrite !Z.div_div by lia. f_equal.
    rewrite (Pos2Z.inj_xI p).
    replace (2 * Z.pos p + 1) with (1 + Z.pos p + Z.pos p) by lia.
    rewrite !Z.pow_add_r by lia. lia.
  - assert (H2 : 0 <= shr_m (iter_pos shr_1 p mrs))
      by (rewrite IH by exact Hm; apply Z.div_pos; [exact Hm | lia]).
    rewrite IH by exact H2. rewrite IH by exact Hm.
    rewrite !Z.div_div by lia. f_equal.
    rewrite (Pos2Z.inj_xO p).
    replace (2 * Z.pos p) with (Z.pos p + Z.pos p) by lia.
    rewrite !Z.pow_add_r by lia. lia.
  - rewrite shr_1_m by exact Hm. reflexivity.
Qed.

(** A right shift of a positive mantissa by fewer bits than it has digits
    leaves a positive mantissa, and the exponent does not decrease. *)
Lemma shr_positive (m : positive) (l : SpecFloat.location) (e n : Z) :
  n < Z.pos (digits2_pos m) ->
  exists m' e', shr (shr_record_of_loc (Z.pos m) l) e n = (m', e')
                /\ 0 < shr_m m' /\ e <= e'
                /\ shr_m m' <= Z.pos m.
Proof.
  intros Hn. unfold shr.
  assert (Hrec : shr_m (shr_record_of_loc (Z.pos m) l) = Z.pos m)
    by (destruct l as [| []]; reflexivity).
  destruct n as [| p | p].
  - eexists. eexists. split; [reflexivity |]. rewrite Hrec. lia.
  - eexists. eexists. split; [reflexivity |].
    rewrite iter_shr_m by (rewrite Hrec; lia). rewrite Hrec.
    pose proof (digits2_pos_lower m) as Hlow.
    assert (Hpow : 2 ^ Z.pos p <= 2 ^ (Z.pos (digits2_pos m) - 1))
      by (apply Z.pow_le_mono_r; lia).
    assert (Hp : 0 < 2 ^ Z.pos p) by (apply Z.pow_pos_nonneg; lia).
    split; [apply Z.div_str_pos; lia |]. split; [lia |].
    apply Z.div_le_upper_bound; [lia |]. nia.
  - eexists. eexists. split; [reflexivity |]. rewrite Hrec. lia.
Qed.

Lemma fexp_normal (e : Z) : -1021 <= e -> fexp prec emax e = e - 53.
Proof. intros H. unfold fexp, emin, prec, emax. lia. Qed.

Lemma round_nearest_even_positive (m : Z) (l : SpecFloat.location) :
  0 < m -> exists p, round_nearest_even m l = Z.pos p.
Proof.
  intros Hm.
  assert (H : 0 < round_nearest_even m l).
  { unfold round_nearest_even. destruct l as [| []]; try lia.
    destruct (Z.even m); lia. }
  destruct (round_nearest_even m l) as [| p | p]; try lia. now exists p.
Qed.

(** Rounding a positive mantissa, in the normal range, gives a finite
    Number of the same sign whose exponent is not below the one given, or
    the infinity of that sign. *)
Lemma binary_round_aux_shape (sx : bool) (mx : positive) (ex : Z)
    (lx : SpecFloat.location) :
  -1000 <= ex ->
  binary_round_aux prec emax sx (Z.pos mx) ex lx = S754_infinity sx
  \/ exists m e,
       binary_round_aux prec emax sx (Z.pos mx) ex lx = S754_finite sx m e
       /\ ex <= e.
Proof.
  intros Hex. unfold binary_round_aux, shr_fexp.
  assert (H1 : fexp prec emax (Zdigits2 (Z.pos mx) + ex) - ex
               < Z.pos (digits2_pos mx))
    by (simpl Zdigits2; rewrite fexp_normal by lia; lia).
  destruct (shr_positive mx lx ex _ H1) as [mrs1 [e1 [-> [Hm1 [He1 _]]]]].
  destruct (round_nearest_even_positive (shr_m mrs1)
              (loc_of_shr_record mrs1) Hm1) as [p2 ->].
  assert (H2 : fexp prec emax (Zdigits2 (Z.pos p2) + e1) - e1
               < Z.pos (digits2_pos p2))
    by (simpl Zdigits2; rewrite fexp_normal by lia; lia).
  destruct (shr_positive p2 loc_Exact e1 _ H2) as [mrs2 [e2 [-> [Hm2 [He2 _]]]]].
  destruct (shr_m mrs2) as [| m | m]; try lia.
  destruct (e2 <=? emax - prec); [right | now left].
  exists m, e2. split; [reflexivity | lia].
Qed.

Lemma binary_round_shape (sx : bool) (mx : positive) (ex : Z) :
  -900 <= ex ->
  binary_round prec emax sx mx ex = S754_infinity sx
  \/ exists m e,
       binary_round prec emax sx mx ex = S754_finite sx m e
       /\ Z.min ex (Z.pos (digits2_pos mx) + ex - 53) <= e.
Proof.
  intros Hex. unfold binary_round.
  rewrite fexp_normal by lia. unfold shl_align.
  destruct (Z.pos (digits2_pos mx) + ex - 53 - ex) as [| d | d] eqn:Ed.
  - destruct (binary_round_aux_shape sx mx ex loc_Exact) as [H | [m [e [H He]]]];
      [lia | now left |].
    right. exists m, e. split; [exact H | lia].
  - destruct (binary_round_aux_shape sx mx ex loc_Exact) as [H | [m [e [H He]]]];
      [lia | now left |].
    right. exists m, e. split; [exact H | lia].
  - destruct (binary_round_aux_shape sx (Pos.iter xO mx d)
                (Z.pos (digits2_pos mx) + ex - 53) loc_Exact)
      as [H | [m [e [H He]]]]; [lia | now left |].
    right. exists m, e. split; [exact H | lia].
Qed.

(** The Number of an integer of at least 256 has an exponent of at least
    -44, or is infinite. *)
Lemma of_uint63_far (u : int) :
  256 <= Uint63.to_Z u ->
  Prim2SF (of_uint63 u) = S754_infinity false
  \/ exists m e, Prim2SF (of_uint63 u) = S754_finite false m e /\ -44 <= e.
Proof.
  intros Hu. rewrite of_uint63_spec.
  destruct (Uint63.to_Z u) as [| p | p] eqn:Ep; try lia.
  unfold binary_normalize.
  assert (Hd : 9 <= Z.pos (digits2_pos p)).
  { pose proof (digits2_pos_bound p) as Hb.
    destruct (Z.le_gt_cases 9 (Z.pos (digits2_pos p))) as [H | H];
      [exact H |].
    assert (2 ^ Z.pos (digits2_pos p) <= 2 ^ 8)
      by (apply Z.pow_le_mono_r; lia).
    change (2 ^ 8) with 256 in *. lia. }
  destruct (binary_round_shape false p 0) as [H | [m [e [H He]]]];
    [lia | now left |].
  right. exists m, e. split; [exact H | lia].
Qed.

(** A finite Number with an exponent above the least one has a mantissa
    of 53 digits. *)
Lemma valid_normal (s : bool) (m : positive) (e : Z) :
  valid_binary (S754_finite s m e) = true ->
  -1074 < e ->
  Z.pos (digits2_pos m) = 53.
Proof.
  unfold SpecFloat.valid_binary, bounded, canonical_mantissa. intros H He.
  apply andb_true_iff in H. destruct H as [H _]. apply Z.eqb_eq in H.
  unfold fexp, emin, prec, emax in H. lia.
Qed.

Lemma div_far (m1 : positive) (e1 : Z) :
  Z.pos (digits2_pos m1) = 53 ->
  -44 <= e1 ->
  SF64div (S754_finite false m1 e1) (Prim2SF 10) = S754_infinity false
  \/ exists m e,
       SF64div (S754_finite false m1 e1) (Prim2SF 10) = S754_finite false m e
       /\ -48 <= e.
Proof.
  intros Hd He.
  change (Prim2SF 10) with (S754_finite false 5629499534213120 (-49)).
  unfold SF64div, SFdiv, SFdiv_core_binary.
  simpl Zdigits2. rewrite Hd.
  change (Z.pos (digits2_pos 5629499534213120)) with 53.
  replace (53 + e1 - (53 + -49)) with (e1 + 49) by lia.
  rewrite fexp_normal by lia.
  replace (Z.min (e1 + 49 - 53) (e1 - -49)) with (e1 - 4) by lia.
  replace (e1 - -49 - (e1 - 4)) with 53 by lia.
  cbv iota.
  pose proof (Z.div_eucl_eq (Z.shiftl (Z.pos m1) 53) 5629499534213120) as Heq.
  pose proof (Z.mod_pos_bound (Z.shiftl (Z.pos m1) 53) 5629499534213120) as Hr.
  unfold Z.modulo in Hr.
  destruct (Z.div_eucl (Z.shiftl (Z.pos m1) 53) 5629499534213120) as [q r].
  rewrite Z.shiftl_mul_pow2 in Heq by lia.
  change (2 ^ 53) with 9007199254740992 in Heq.
  specialize (Heq ltac:(lia)). specialize (Hr ltac:(lia)).
  assert (Hq : 0 < q) by nia.
  destruct q as [| q | q]; try lia.
  change (xorb false false) with false.
  destruct (binary_round_aux_shape false q (e1 - 4)
              (new_location 5629499534213120 r))
    as [H | [m [e [H Hle]]]]; [lia | now left |].
  right. exists m, e. split; [exact H | lia].
Qed.

Lemma shift_pos_doubles (d m : positive) :
  2 * Z.pos m <= Z.pos (shift_pos d m).
Proof.
  rewrite shift_pos_correct. change (Zpower_pos 2 d) with (2 ^ Z.pos d).
  assert (H : 2 ^ 1 <= 2 ^ Z.pos d) by (apply Z.pow_le_mono_r; lia).
  change (2 ^ 1) with 2 in H. nia.
Qed.

(** Ten minus a finite Number of 53 digits and an exponent of at least
    -48 (a Number of at least 16) is negative, or minus infinity. *)
Lemma sub_far (mg : positive) (eg : Z) :
  Z.pos (digits2_pos mg) = 53 ->
  -48 <= eg ->
  exists h, SF64sub (Prim2SF 10) (S754_finite false mg eg) = h
            /\ (h = S754_infinity true \/ exists m e, h = S754_finite true m e).
Proof.
  intros Hd He.
  change (Prim2SF 10) with (S754_finite false 5629499534213120 (-49)).
  unfold SF64sub, SFsub.
  replace (Z.min (-49) eg) with (-49) by lia.
  unfold shl_align. change (-49 - -49) with 0. cbv iota.
  destruct (-49 - eg) as [| d | d] eqn:Ed; try lia.
  unfold fst, cond_Zopp.
  change (Pos.iter xO mg d) with (shift_pos d mg).
  pose proof (shift_pos_doubles d mg) as Hs.
  pose proof (digits2_pos_lower mg) as Hl. rewrite Hd in Hl.
  change (2 ^ (53 - 1)) with 4503599627370496 in Hl.
  destruct (Z.pos 5629499534213120 - Z.pos (shift_pos d mg))
    as [| p | p] eqn:Ep; try lia.
  unfold binary_normalize.
  eexists. split; [reflexivity |].
  destruct (binary_round_shape true p (-49)) as [H | [m [e [H _]]]];
    [lia | now left |].
  right. now exists m, e.
Qed.

(** Far apart: at a difference of at least 256 the availability term is
    zero. *)
Lemma availability_far (u : int) :
  256 <= Uint63.to_Z u ->
  Math_max 0 (10 - of_uint63 u / 10)%float = 0%float.
Proof.
  intros Hu.
  assert (Hh : Prim2SF (10 - of_uint63 u / 10)%float = S754_infinity true
               \/ exists m e,
                    Prim2SF (10 - of_uint63 u / 10)%float = S754_finite true m e).
  { rewrite sub_spec, div_spec.
    pose proof (Prim2SF_valid (of_uint63 u)) as Hv.
    destruct (of_uint63_far u Hu) as [H | [m1 [e1 [H He1]]]]; rewrite H in *.
    - left. reflexivity.
    - pose proof (valid_normal false m1 e1 Hv ltac:(lia)) as Hd1.
      pose proof (Prim2SF_valid (of_uint63 u / 10)%float) as Hvg.
      rewrite div_spec, H in Hvg.
      destruct (div_far m1 e1 Hd1 He1) as [G | [mg [eg [G Heg]]]]; rewrite G in *.
      + left. reflexivity.
      + pose proof (valid_normal false mg eg) as Hdg.
        destruct (sub_far mg eg) as [h [-> Hshape]]; [| exact Heg | exact Hshape].
        apply Hdg; [exact Hvg | lia]. }
  unfold Math_max.
  change (PrimFloat.is_nan 0) with false. cbv iota.
  unfold PrimFloat.is_nan. rewrite eqb_spec, ltb_spec.
  change (Prim2SF 0) with (S754_zero false).
  destruct Hh as [-> | [m [e ->]]]; [reflexivity |].
  unfold SFeqb, SFltb, SFcompare. rewrite Z.compare_refl.
  change (Pos.compare_cont Eq m m) with (Pos.compare m m).
  rewrite Pos.compare_refl. reflexivity.
Qed.

(** From a difference of 100 to one of 255 the availability term is zero. *)
Lemma availability_past_100 :
  forallb (fun d => match Prim2SF (availability_of_diff d) with
                    | S754_zero false => true
                    | _ => false
                    end) (int_range 100 156) = true.
Proof. vm_compute. reflexivity. Qed.

Lemma Num_of_uint63 (d : Z) :
  0 <= d -> Num d = Num (Uint63.to_Z (Uint63.of_Z d)).
Proof.
  intros Hd. pose proof (Uint63.to_Z_bounded (Uint63.of_Z d)) as Hb.
  unfold Num.
  replace (d <? 0) with false by (symmetry; apply Z.ltb_ge; lia).
  replace (Uint63.to_Z (Uint63.of_Z d) <? 0) with false
    by (symmetry; apply Z.ltb_ge; lia).
  now rewrite Uint63.of_to_Z.
Qed.

(** At every difference the availability term is one of the terms of the
    differences 0 to 100. *)
Lemma availability_of_diff_In (d : Z) :
  0 <= d -> In (Some (availability_of_diff d)) availability_terms.
Proof.
  intros Hd. unfold availability_terms. right.
  assert (E : availability_of_diff d
              = availability_of_diff (Uint63.to_Z (Uint63.of_Z d)))
    by (unfold availability_of_diff; now rewrite (Num_of_uint63 d Hd)).
  rewrite E. clear E.
  pose proof (Uint63.to_Z_bounded (Uint63.of_Z d)) as Hb.
  set (u := Uint63.of_Z d) in *.
  destruct (Z.le_gt_cases (Uint63.to_Z u) 100) as [Hlow | Hhigh].
  - apply (in_map (fun d => Some (availability_of_diff d))).
    apply int_range_In. lia.
  - assert (Hzero : availability_of_diff (Uint63.to_Z u) = 0%float).
    { destruct (Z.lt_ge_cases (Uint63.to_Z u) 256) as [Hmid | Hfar].
      - pose proof availability_past_100 as G. rewrite forallb_forall in G.
        specialize (G (Uint63.to_Z u) ltac:(apply int_range_In; lia)).
        rewrite <- (SF2Prim_Prim2SF (availability_of_diff (Uint63.to_Z u))).
        destruct (Prim2SF (availability_of_diff (Uint63.to_Z u)))
          as [[] | | |]; try discriminate. reflexivity.
      - unfold availability_of_diff, Num.
        replace (Uint63.to_Z u <? 0) with false
          by (symmetry; apply Z.ltb_ge; lia).
        rewrite Uint63.of_to_Z. now apply availability_far. }
    rewrite Hzero.
    change 0%float with (availability_of_diff 100).
    apply (in_map (fun d => Some (availability_of_diff d))).
    apply int_range_In. lia.
Qed.

Variables user1 user2 : UserWithRelations.

Lemma tagScore_In : In (tagScore user1 user2) [0; 8; 16; 24; 32; 40].
Proof.
  unfold tagScore.
  set (n := Z.of_nat (offerOverlap user1 user2)
            + Z.of_nat (lookingForOverlap user1 user2)).
  assert (Hn : n = 0 \/ n = 1 \/ n = 2 \/ n = 3 \/ n = 4 \/ 5 <= n)
    by (subst n; lia).
  simpl. lia.
Qed.

Lemma skillScore_In : In (skillScore user1 user2) [0; 4; 8; 12; 16; 20].
Proof.
  unfold skillScore.
  set (n := Z.of_nat (skillOverlap user1 user2)).
  assert (Hn : n = 0 \/ n = 1 \/ n = 2 \/ n = 3 \/ n = 4 \/ 5 <= n)
    by (subst n; lia).
  simpl. lia.
Qed.

Lemma locationScore_In :
  In (locationScore user1 user2) [None; Some 5; Some 10].
Proof.
  unfold locationScore.
  destruct (truthy_string (location user1) && truthy_string (location user2));
    [| simpl; auto].
  destruct (location user1) as [l1|], (location user2) as [l2|];
    try (simpl; now auto).
  destruct (String.eqb l1 l2); simpl; auto.
Qed.

Lemma completenessScore_In : In (completenessScore user2) completeness_terms.
Proof.
  change (completenessScore user2)
    with (completeness_of (Z.of_nat (user2Completeness user2))).
  apply in_map, int_range_In. unfold user2Completeness.
  destruct (truthy_string (bio user2)), (truthy_string (headline user2)),
    (truthy_string (location user2)), (0 <? List.length (skills user2))%nat,
    (0 <? List.length (offers user2))%nat,
    (0 <? List.length (lookingFor user2))%nat; simpl; lia.
Qed.

Lemma availabilityScore_In :
  In (availabilityScore user1 user2) availability_terms.
Proof.
  unfold availabilityScore.
  destruct (truthy_int (availability user1) && truthy_int (availability user2));
    [| now left].
  destruct (availability user1) as [a1|], (availability user2) as [a2|];
    try now left.
  apply (availability_of_diff_In (Z.abs (a1 - a2))). lia.
Qed.

Lemma score_running_total :
  score (calculateMatchScore user1 user2)
  = Math_round
      (running_total (tagScore user1 user2) (skillScore user1 user2)
         (locationScore user1 user2) (availabilityScore user1 user2)
         (completenessScore user2)).
Proof.
  unfold calculateMatchScore, running_total.
  destruct (locationScore user1 user2), (availabilityScore user1 user2);
    reflexivity.
Qed.

Lemma score_is_small_int :
  exists n, 0 <= n <= 85 /\ score (calculateMatchScore user1 user2) = Num n.
Proof.
  rewrite score_running_total.
  apply Math_round_at_most_85.
  apply grid_point;
    [ apply tagScore_In | apply skillScore_In | apply locationScore_In
    | apply availabilityScore_In | apply completenessScore_In ].
Qed.

Lemma skill_threshold :
  (0 <? skillScore user1 user2) = (0 <? skillOverlap user1 user2)%nat.
Proof.
  unfold skillScore.
  destruct (Nat.ltb_spec 0 (skillOverlap user1 user2));
    [apply Z.ltb_lt | apply Z.ltb_ge]; lia.
Qed.

End ScoringFacts.

(** The scoring example of the specification: 16 + 4 + 10 + 9.5 and a
    completeness of 4 fields out of 6 round to 43. *)
Example scoring_example :
  Scoring.calculateMatchScore ScoringExamples.viewer ScoringExamples.candidate
  = {| Scoring.score := 43;
       Scoring.reasons :=
         ["1 matching skills/offers"; "1 shared skills"; "Same location"] |}.
Proof. vm_compute. reflexivity. Qed.

(** C6. Scoring boundedness: for two well-formed profiles the score is the
    Number of an integer of the interval [0, 100], and no term exceeds its
    cap: tag complementarity 40, skill overlap 20, location 10,
    availability alignment 10, completeness of the candidate 5. *)
Theorem score_bounded (user1 user2 : Scoring.UserWithRelations) :
  ScoringSpec.wellFormed user1 -> ScoringSpec.wellFormed user2 ->
  (exists n, 0 <= n <= 100
             /\ Scoring.score (Scoring.calculateMatchScore user1 user2) = JS.Num n)
  /\ Scoring.tagScore user1 user2 <= 40
  /\ Scoring.skillScore user1 user2 <= 20
  /\ (forall l, Scoring.locationScore user1 user2 = Some l -> l <= 10)
  /\ (forall a, Scoring.availabilityScore user1 user2 = Some a ->
                PrimFloat.leb a 10 = true)
  /\ PrimFloat.leb (Scoring.completenessScore user2) 5 = true.
Proof.
  intros H1 H2. repeat split.
  - destruct (score_is_small_int user1 user2) as [n [Hn Hs]].
    exists n. split; [lia | exact Hs].
  - unfold Scoring.tagScore. lia.
  - unfold Scoring.skillScore. lia.
  - intros l Hl. pose proof (locationScore_In user1 user2) as Hin.
    rewrite Hl in Hin. simpl in Hin.
    destruct Hin as [Hin | [Hin | [Hin | []]]]; inversion Hin; lia.
  - intros a Ha.
    pose proof (availabilityScore_In user1 user2) as Hin.
    rewrite Ha in Hin.
    pose proof availability_cap as G. rewrite forallb_forall in G.
    exact (G _ Hin).
  - pose proof completeness_cap as G. rewrite forallb_forall in G.
    exact (G _ (completenessScore_In user2)).
Qed.

Lemma score_bounded_witness :
  (exists n, 0 <= n <= 100
     /\ Scoring.score
          (Scoring.calculateMatchScore ScoringExamples.viewer
             ScoringExamples.candidate) = JS.Num n)
  /\ Scoring.tagScore ScoringExamples.viewer ScoringExamples.candidate <= 40.
Proof.
  assert (Hv : ScoringSpec.wellFormed ScoringExamples.viewer)
    by (unfold ScoringSpec.wellFormed; simpl; lia).
  assert (Hc : ScoringSpec.wellFormed ScoringExamples.candidate)
    by (unfold ScoringSpec.wellFormed; simpl; lia).
  destruct (score_bounded ScoringExamples.viewer ScoringExamples.candidate Hv Hc)
    as [Hs [Ht _]].
  split; [exact Hs | exact Ht].
Defined.

(** C10. For every two profiles, whatever their availabilities, the score
    never exceeds 85, the sum of the five caps: it is the Number of an
    integer of [0, 85]. *)
Theorem score_at_most_85 (user1 user2 : Scoring.UserWithRelations) :
  exists n, 0 <= n <= 85
            /\ Scoring.score (Scoring.calculateMatchScore user1 user2) = JS.Num n.
Proof. exact (score_is_small_int user1 user2). Qed.

(** C7. The availability term at availabilities 0 and 0, both present: the
    formula of the specification gives 10, the guard of the source treats
    0 as absent, skips the block and the term contributes nothing; at 1 and
    1 the block runs and gives 10. *)
Theorem availability_zero_is_skipped :
  ScoringSpec.availability_of_diff (Z.abs (0 - 0)) = 10%float
  /\ Scoring.availabilityScore
       (ScoringSpec.with_availability 0) (ScoringSpec.with_availability 0) = None
  /\ Scoring.score
       (Scoring.calculateMatchScore
          (ScoringSpec.with_availability 0) (ScoringSpec.with_availability 0))
     = 0%float
  /\ Scoring.availabilityScore
       (ScoringSpec.with_availability 1) (ScoringSpec.with_availability 1)
     = Some 10%float.
Proof. vm_compute. repeat split. Qed.

(** C8, as the source has it. The reasons are one optional reason per term,
    in the order of the terms, cut to the first three: the complementarity
    reason when some offer of the viewer is among the candidate's wishes,
    the skills reason when the skill term is positive, the location reason
    when the location term is 10, the availability reason when the
    availability term exceeds 7, the completeness reason when the
    completeness term exceeds 4. *)
Theorem reasons_by_threshold_correct (user1 user2 : Scoring.UserWithRelations) :
  Scoring.reasons (Scoring.calculateMatchScore user1 user2)
  = ScoringSpec.reasons_by_threshold user1 user2.
Proof.
  unfold Scoring.calculateMatchScore, ScoringSpec.reasons_by_threshold.
  rewrite skill_threshold.
  destruct (0 <? Scoring.offerOverlap user1 user2)%nat,
    (0 <? Scoring.skillOverlap user1 user2)%nat,
    (Scoring.locationScore user1 user2) as [l|],
    (Scoring.availabilityScore user1 user2) as [a|];
    try destruct (l =? 10); try destruct (PrimFloat.ltb 7 a);
    destruct (PrimFloat.ltb 4 (Scoring.completenessScore user2));
    reflexivity.
Qed.

(** C8, as stated, fails: the viewer looks for what the candidate offers,
    the complementarity term is 8, and there is no reason. *)
Lemma complementarity_without_reason :
  Scoring.tagScore ScoringSpec.seeker ScoringSpec.marketer = 8
  /\ Scoring.reasons
       (Scoring.calculateMatchScore ScoringSpec.seeker ScoringSpec.marketer) = [].
Proof. vm_compute. split; reflexivity. Qed.

(** ** The store *)

Section StoreFacts.
Import LedgerSpec.

Lemma existsb_find {A : Type} (f : A -> bool) (l : list A) :
  existsb f l = match find f l with Some _ => true | None => false end.
Proof.
  induction l as [| x l IH]; simpl; [reflexivity |].
  destruct (f x); [reflexivity | exact IH].
Qed.

Lemma find_snoc {A : Type} (f : A -> bool) (l : list A) (x : A) :
  find f (l ++ [x])
  = match find f l with
    | Some y => Some y
    | None => if f x then Some x else None
    end.
Proof.
  induction l as [| y l IH]; simpl; [reflexivity |].
  destruct (f y); [reflexivity | exact IH].
Qed.

Lemma existsb_snoc {A : Type} (f : A -> bool) (l : list A) (x : A) :
  existsb f (l ++ [x]) = existsb f l || f x.
Proof. rewrite existsb_app. simpl. now rewrite orb_false_r. Qed.

Lemma like_is_new (db : Store.t) (x y x' y' : string) (msg : option string) :
  Store.like_is x' y' (Store.new_like db x y msg)
  = String.eqb x x' && String.eqb y y'.
Proof. reflexivity. Qed.

Lemma match_is_new (db : Store.t) (x y x' y' : string) :
  Store.match_is x' y' (Store.new_match db x y)
  = String.eqb x x' && String.eqb y y'.
Proof. reflexivity. Qed.

(** The handler of the like route, on distinct users. *)
Lemma expressInterest_run (db : Store.t) (x y : string) :
  x <> y ->
  Store.user_exists db x = true ->
  Store.user_exists db y = true ->
  Handler.run (LikeRoute.expressInterest x y) db
  = expressInterest_outcome db x y.
Proof.
  intros Hxy Hx Hy.
  assert (Hneq : String.eqb x y = false) by now apply String.eqb_neq.
  unfold Handler.run, LikeRoute.expressInterest, LikeRoute.POST,
    expressInterest_outcome.
  simpl. rewrite Hneq. simpl.
  unfold Store.user_findUnique.
  pose proof Hy as Hy'. unfold Store.user_exists in Hy'.
  rewrite existsb_find in Hy'.
  destruct (find (fun u => String.eqb (User.id u) y) (Store.users db));
    [clear Hy' | discriminate].
  simpl. unfold Store.like_findUnique at 1.
  rewrite (existsb_find (Store.like_is x y)).
  destruct (find (Store.like_is x y) (Store.likes db)) eqn:Hxy_like;
    [reflexivity |].
  simpl. unfold Store.like_create. rewrite Hx, Hy. simpl.
  rewrite (existsb_find (Store.like_is x y)), Hxy_like.
  simpl. unfold Store.like_findUnique. simpl.
  rewrite find_snoc, like_is_new.
  rewrite (existsb_find (Store.like_is y x)).
  destruct (find (Store.like_is y x) (Store.likes db)) eqn:Hyx_like.
  - simpl. unfold Store.match_create, Store.user_exists. simpl.
    fold (Store.user_exists db x). fold (Store.user_exists db y).
    rewrite Hx, Hy. simpl.
    destruct (existsb (Store.match_is x y) (Store.matches db)); reflexivity.
  - rewrite Hneq. reflexivity.
Qed.

Lemma count_none {A : Type} (f : A -> bool) (l : list A) :
  List.length (filter f l) = 0%nat <-> existsb f l = false.
Proof.
  induction l as [| x l IH]; simpl; [tauto |].
  destruct (f x); simpl; [split; discriminate | exact IH].
Qed.


Lemma count_snoc {A : Type} (f : A -> bool) (l : list A) (x : A) :
  List.length (filter f (l ++ [x]))
  = (List.length (filter f l) + if f x then 1 else 0)%nat.
Proof.
  rewrite filter_app, length_app. simpl. now destruct (f x).
Qed.

Lemma count_or {A : Type} (f g : A -> bool) (l : list A) :
  (List.length (filter (fun x => f x || g x) l)
   <= List.length (filter f l) + List.length (filter g l))%nat.
Proof.
  induction l as [| x l IH]; simpl; [lia |].
  destruct (f x), (g x); simpl; lia.
Qed.

(** A filter that pins the key down selects at most one row of a table
    whose keys are unique. *)
Lemma count_unique {A K : Type} (key : A -> K) (k : K) (f : A -> bool)
    (l : list A) :
  (forall x, f x = true -> key x = k) ->
  NoDup (map key l) ->
  (List.length (filter f l) <= 1)%nat.
Proof.
  intros Hf. induction l as [| x l IH]; simpl; intros Hnd; [lia |].
  inversion Hnd as [| ? ? Hnotin Hnd']; subst.
  destruct (f x) eqn:Hx; [| now apply IH].
  simpl. destruct (List.length (filter f l)) eqn:E; [lia |].
  exfalso. apply Hnotin.
  destruct (filter f l) as [| y ys] eqn:Hfl; [discriminate |].
  assert (Hy : In y (filter f l)) by (rewrite Hfl; now left).
  apply filter_In in Hy. destruct Hy as [Hyin Hy].
  rewrite (Hf _ Hx), <- (Hf _ Hy). now apply in_map.
Qed.

Lemma existsb_weaken {A : Type} (f g : A -> bool) (l : list A) :
  (forall x, f x = true -> g x = true) ->
  existsb g l = false -> existsb f l = false.
Proof.
  intros Hfg Hg. destruct (existsb f l) eqn:E; [| reflexivity].
  apply existsb_exists in E. destruct E as [x [Hin Hx]].
  rewrite <- Hg. symmetry. apply existsb_exists.
  exists x. split; [exact Hin | now apply Hfg].
Qed.

Lemma no_match_rows (db : Store.t) (x y : string) :
  match_rows db x y = 0%nat ->
  existsb (Store.match_is x y) (Store.matches db) = false
  /\ existsb (Store.match_is y x) (Store.matches db) = false
  /\ List.length
       (filter (fun m => pair_is x y m && Match.active m) (Store.matches db))
     = 0%nat.
Proof.
  unfold match_rows. rewrite count_none. intros H. repeat split.
  - revert H. apply existsb_weaken. unfold pair_is. intros m ->. reflexivity.
  - revert H. apply existsb_weaken. unfold pair_is. intros m ->.
    apply orb_true_r.
  - apply count_none. revert H. apply existsb_weaken.
    intros m Hm. now apply andb_true_iff in Hm.
Qed.


Lemma match_is_key (x y : string) (m : Match.t) :
  Store.match_is x y m = true -> (Match.userAId m, Match.userBId m) = (x, y).
Proof.
  unfold Store.match_is. rewrite andb_true_iff, !String.eqb_eq.
  now intros [-> ->].
Qed.

Lemma ordered_rows_unique (db : Store.t) (x y : string) :
  matches_unique db -> (ordered_rows db x y <= 1)%nat.
Proof.
  apply (count_unique (fun m => (Match.userAId m, Match.userBId m)) (x, y)).
  apply match_is_key.
Qed.

Lemma match_rows_ordered (db : Store.t) (x y : string) :
  (match_rows db x y <= ordered_rows db x y + ordered_rows db y x)%nat.
Proof. apply count_or. Qed.

End StoreFacts.

(** ** The interest ledger and match formation *)



(** C3. Mutual-interest closure: for distinct existing users [a] and [b]
    with no Interest and no Match between them, [expressInterest(a, b)]
    followed by [expressInterest(b, a)] answers [isMatch = false] and then
    [isMatch = true], and leaves exactly one match row of the pair, which is
    active. *)
Theorem mutual_interest_closure (db : Store.t) (a b : string) :
  a <> b ->
  Store.user_exists db a = true ->
  Store.user_exists db b = true ->
  LedgerSpec.stored_likes db a b = 0%nat ->
  LedgerSpec.stored_likes db b a = 0%nat ->
  LedgerSpec.match_rows db a b = 0%nat ->
  let first := Handler.run (LikeRoute.expressInterest a b) db in
  let second := Handler.run (LikeRoute.expressInterest b a) (snd first) in
  LikeRoute.isMatch (fst first) = Some false
  /\ LikeRoute.isMatch (fst second) = Some true
  /\ LedgerSpec.active_matches (snd second) a b = 1%nat
  /\ LedgerSpec.match_rows (snd second) a b = 1%nat.
Proof.
  intros Hab Ha Hb Lab Lba M. cbv zeta.
  assert (Hba : b <> a) by congruence.
  assert (Eab : String.eqb a b = false) by now apply String.eqb_neq.
  assert (Eba : String.eqb b a = false) by now apply String.eqb_neq.
  apply count_none in Lab, Lba.
  destruct (no_match_rows db a b M) as [Mab [Mba Mact]].
  rewrite (expressInterest_run db a b Hab Ha Hb).
  assert (Hfirst : LedgerSpec.expressInterest_outcome db a b
    = (Handler.json (Handler.LikeBody (Store.new_like db a b None) None false
         "Like sent! You'll be notified if they like you back."),
       Store.insert_like db (Store.new_like db a b None))).
  { unfold LedgerSpec.expressInterest_outcome. now rewrite Lab, Lba. }
  rewrite Hfirst. simpl fst. simpl snd.
  rewrite expressInterest_run; [| exact Hba | exact Hb | exact Ha].
  unfold LedgerSpec.expressInterest_outcome. simpl Store.likes.
  simpl Store.matches.
  rewrite !existsb_snoc, !like_is_new, Lab, Lba, Mba, Eab, Eba,
    !String.eqb_refl.
  simpl. repeat split.
  - unfold LedgerSpec.active_matches. simpl Store.matches.
    rewrite count_snoc, Mact. unfold LedgerSpec.pair_is.
    rewrite !match_is_new, !String.eqb_refl. simpl.
    now rewrite orb_true_r.
  - unfold LedgerSpec.match_rows in *. simpl Store.matches.
    rewrite count_snoc, M. unfold LedgerSpec.pair_is.
    rewrite !match_is_new, !String.eqb_refl. simpl.
    now rewrite orb_true_r.
Qed.

Lemma mutual_interest_closure_witness :
  let first := Handler.run (LikeRoute.expressInterest "a" "b") LedgerSpec.fresh in
  let second := Handler.run (LikeRoute.expressInterest "b" "a") (snd first) in
  LikeRoute.isMatch (fst first) = Some false
  /\ LikeRoute.isMatch (fst second) = Some true
  /\ LedgerSpec.active_matches (snd second) "a" "b" = 1%nat
  /\ LedgerSpec.match_rows (snd second) "a" "b" = 1%nat.
Proof.
  apply (mutual_interest_closure LedgerSpec.fresh "a" "b");
    [discriminate | reflexivity ..].
Defined.

(** C1, as the source has it. When [y] has an Interest toward [x] and [x]
    has none toward [y], [expressInterest(x, y)] records the Interest and
    inserts a match row [(x, y)] without looking for a match of the pair:
    if no row is stored in the order [(x, y)], whatever is stored in the
    order [(y, x)], the new active row is added to the table and returned
    with [isMatch = true]; if a row is stored in the order [(x, y)], the
    insert violates the unique index, the answer is the internal error and
    the match table is as before. *)
Theorem expressInterest_inserts_without_lookup (db : Store.t) (x y : string) :
  x <> y ->
  Store.user_exists db x = true ->
  Store.user_exists db y = true ->
  (1 <= LedgerSpec.stored_likes db y x)%nat ->
  LedgerSpec.stored_likes db x y = 0%nat ->
  let like := Store.new_like db x y None in
  let result := Handler.run (LikeRoute.expressInterest x y) db in
  Store.likes (snd result) = (Store.likes db ++ [like])%list
  /\ (LedgerSpec.ordered_rows db x y = 0%nat ->
      exists m,
        fst result
        = Handler.json (Handler.LikeBody like (Some m) true "It's a match! 🎉")
        /\ Store.matches (snd result) = (Store.matches db ++ [m])%list
        /\ Match.userAId m = x /\ Match.userBId m = y
        /\ Match.active m = true
        /\ LedgerSpec.match_rows (snd result) x y
           = S (LedgerSpec.match_rows db x y))
  /\ ((1 <= LedgerSpec.ordered_rows db x y)%nat ->
      fst result = LedgerSpec.internalError
      /\ Store.matches (snd result) = Store.matches db).
Proof.
  intros Hxy Hx Hy Lyx Lxy. cbv zeta.
  rewrite (expressInterest_run db x y Hxy Hx Hy).
  unfold LedgerSpec.expressInterest_outcome.
  apply count_none in Lxy. rewrite Lxy.
  assert (Eyx : existsb (Store.like_is y x) (Store.likes db) = true).
  { destruct (existsb (Store.like_is y x) (Store.likes db)) eqn:E;
      [reflexivity |].
    apply count_none in E. unfold LedgerSpec.stored_likes in Lyx. lia. }
  rewrite Eyx. unfold LedgerSpec.ordered_rows.
  destruct (existsb (Store.match_is x y) (Store.matches db)) eqn:E.
  - simpl. split; [reflexivity |]. split.
    + intros H0. apply count_none in H0. congruence.
    + intros _. split; reflexivity.
  - simpl. split; [reflexivity |]. split.
    + intros _. eexists. split; [reflexivity |].
      split; [reflexivity |]. repeat split.
      unfold LedgerSpec.match_rows. simpl Store.matches.
      rewrite count_snoc. unfold LedgerSpec.pair_is at 2.
      rewrite !match_is_new, !String.eqb_refl. simpl. lia.
    + intros H1. apply count_none in E. lia.
Qed.

Lemma expressInterest_inserts_without_lookup_witness :
  let db := LedgerSpec.half_matched in
  let like := Store.new_like db "a" "b" None in
  let result := Handler.run (LikeRoute.expressInterest "a" "b") db in
  Store.likes (snd result) = (Store.likes db ++ [like])%list
  /\ (LedgerSpec.ordered_rows db "a" "b" = 0%nat ->
      exists m,
        fst result
        = Handler.json (Handler.LikeBody like (Some m) true "It's a match! 🎉")
        /\ Store.matches (snd result) = (Store.matches db ++ [m])%list
        /\ Match.userAId m = "a" /\ Match.userBId m = "b"
        /\ Match.active m = true
        /\ LedgerSpec.match_rows (snd result) "a" "b"
           = S (LedgerSpec.match_rows db "a" "b"))
  /\ ((1 <= LedgerSpec.ordered_rows db "a" "b")%nat ->
      fst result = LedgerSpec.internalError
      /\ Store.matches (snd result) = Store.matches db).
Proof.
  apply (expressInterest_inserts_without_lookup LedgerSpec.half_matched "a" "b");
    [discriminate | reflexivity | reflexivity | apply Nat.le_refl | reflexivity].
Defined.

(** C1, as stated, fails: [b] likes [a], an active match of the pair is
    stored as [(b, a)], [a] has no like toward [b]; [expressInterest(a, b)]
    answers with a new match row and leaves two rows for the pair. *)
Lemma expressInterest_second_match_row :
  LedgerSpec.stored_likes LedgerSpec.half_matched "b" "a" = 1%nat
  /\ LedgerSpec.stored_likes LedgerSpec.half_matched "a" "b" = 0%nat
  /\ LedgerSpec.active_matches LedgerSpec.half_matched "a" "b" = 1%nat
  /\ LedgerSpec.match_rows
       (snd (Handler.run (LikeRoute.expressInterest "a" "b")
               LedgerSpec.half_matched)) "a" "b" = 2%nat
  /\ LedgerSpec.active_matches
       (snd (Handler.run (LikeRoute.expressInterest "a" "b")
               LedgerSpec.half_matched)) "a" "b" = 2%nat.
Proof. vm_compute. repeat split. Qed.

(** ** Racing requests *)

Section RaceFacts.
Import Handler LedgerSpec.

(** [run] is [step] repeated until the response. *)
Lemma run_prog_step (catch : Error -> Response) (p : prog) (db : Store.t) :
  run_prog catch p db
  = run_prog catch (fst (step p db)) (snd (step p db)).
Proof.
  destruct p as [r | e | X c k]; simpl; try reflexivity.
  destruct (exec c db) as [db' [e | x]]; reflexivity.
Qed.

Lemma NoDup_snoc {K : Type} (l : list K) (k : K) :
  NoDup l -> ~ In k l -> NoDup (l ++ [k]).
Proof.
  induction l as [| x l IH]; simpl; intros Hl Hk.
  - constructor; [intros [] | constructor].
  - inversion Hl as [| ? ? Hx Hl']; subst. constructor.
    + rewrite in_app_iff. intros [H | [H | []]]; [contradiction |].
      subst. apply Hk. now left.
    + apply IH; [exact Hl' |]. intros H. apply Hk. now right.
Qed.

Lemma match_create_unique (db : Store.t) (x y : string) :
  matches_unique db -> matches_unique (fst (Store.match_create db x y)).
Proof.
  unfold Store.match_create, matches_unique. intros Hu.
  destruct (negb (Store.user_exists db x)); [exact Hu |].
  destruct (negb (Store.user_exists db y)); [exact Hu |].
  destruct (existsb (Store.match_is x y) (Store.matches db)) eqn:E;
    [exact Hu |].
  simpl. rewrite map_app. simpl. apply NoDup_snoc; [exact Hu |].
  intros Hin. apply in_map_iff in Hin. destruct Hin as [m [Hkey Hm]].
  assert (Hex : existsb (Store.match_is x y) (Store.matches db) = true).
  { apply existsb_exists. exists m. split; [exact Hm |].
    injection Hkey as Ha Hb. unfold Store.match_is.
    now rewrite Ha, Hb, !String.eqb_refl. }
  congruence.
Qed.

(** No store call breaks the unique index of the match table. *)
Lemma exec_unique {X : Type} (c : Call X) (db : Store.t) :
  matches_unique db -> matches_unique (fst (exec c db)).
Proof.
  intros Hu. destruct c; simpl; try exact Hu.
  - unfold Store.like_create.
    destruct (negb (Store.user_exists db fromId)); [exact Hu |].
    destruct (negb (Store.user_exists db toId)); [exact Hu |].
    destruct (existsb (Store.like_is fromId toId) (Store.likes db));
      exact Hu.
  - now apply match_create_unique.
  - unfold Store.message_create.
    destruct (negb (Store.match_exists db matchId)); [exact Hu |].
    destruct (negb (Store.user_exists db senderId)); exact Hu.
Qed.

Lemma step_unique (p : prog) (db : Store.t) :
  matches_unique db -> matches_unique (snd (step p db)).
Proof.
  intros Hu. destruct p as [r | e | X c k]; simpl; try exact Hu.
  pose proof (exec_unique c db Hu) as H.
  destruct (exec c db) as [db' [e | x]]; exact H.
Qed.

Lemma interleave_unique (schedule : list Race.side) (c : Race.config) :
  matches_unique (Race.store c) ->
  matches_unique (Race.store (Race.interleave schedule c)).
Proof.
  unfold Race.interleave. revert c.
  induction schedule as [| s schedule IH]; intros c Hu; simpl; [exact Hu |].
  apply IH. destruct s; simpl.
  - pose proof (step_unique (Race.first c) (Race.store c) Hu) as H.
    destruct (step (Race.first c) (Race.store c)); exact H.
  - pose proof (step_unique (Race.second c) (Race.store c) Hu) as H.
    destruct (step (Race.second c) (Race.store c)); exact H.
Qed.

End RaceFacts.

(** C2, as the source has it. The unique index of the match table is on the
    ordered pair [(userAId, userBId)]: however [expressInterest(a, b)] and
    [expressInterest(b, a)] interleave on a store that satisfies the index,
    the index still holds, so at most one row is stored in each order and at
    most two rows for the pair. *)
Theorem race_keeps_ordered_index (schedule : list Race.side) (db : Store.t)
    (a b : string) :
  LedgerSpec.matches_unique db ->
  let final := Race.store (Race.interleave schedule (Race.mutual a b db)) in
  LedgerSpec.matches_unique final
  /\ (LedgerSpec.ordered_rows final a b <= 1)%nat
  /\ (LedgerSpec.ordered_rows final b a <= 1)%nat
  /\ (LedgerSpec.match_rows final a b <= 2)%nat.
Proof.
  intros Hu. cbv zeta.
  pose proof (interleave_unique schedule (Race.mutual a b db) Hu) as H.
  set (final := Race.store (Race.interleave schedule (Race.mutual a b db))) in *.
  pose proof (ordered_rows_unique final a b H) as Hab.
  pose proof (ordered_rows_unique final b a H) as Hba.
  pose proof (match_rows_ordered final a b) as Hrows.
  repeat split; [exact H | exact Hab | exact Hba | lia].
Qed.

Lemma race_keeps_ordered_index_witness :
  let final :=
    Race.store
      (Race.interleave LedgerSpec.crossing (Race.mutual "a" "b" LedgerSpec.fresh)) in
  LedgerSpec.matches_unique final
  /\ (LedgerSpec.ordered_rows final "a" "b" <= 1)%nat
  /\ (LedgerSpec.ordered_rows final "b" "a" <= 1)%nat
  /\ (LedgerSpec.match_rows final "a" "b" <= 2)%nat.
Proof.
  apply (race_keeps_ordered_index LedgerSpec.crossing LedgerSpec.fresh "a" "b").
  constructor.
Defined.

(** C2, as stated, fails: on a store with no like and no match, both sides
    record their like before either looks for the other's; both find it,
    both inserts pass the index, both requests answer [isMatch = true], and
    two match rows are left for the pair. *)
Lemma race_leaves_two_rows :
  let final := Race.interleave LedgerSpec.crossing
                 (Race.mutual "a" "b" LedgerSpec.fresh) in
  option_map LikeRoute.isMatch
    (Handler.response (LikeRoute.expressInterest "a" "b") (Race.first final))
  = Some (Some true)
  /\ option_map LikeRoute.isMatch
       (Handler.response (LikeRoute.expressInterest "b" "a") (Race.second final))
     = Some (Some true)
  /\ LedgerSpec.ordered_rows (Race.store final) "a" "b" = 1%nat
  /\ LedgerSpec.ordered_rows (Race.store final) "b" "a" = 1%nat
  /\ LedgerSpec.match_rows (Race.store final) "a" "b" = 2%nat.
Proof. vm_compute. repeat split. Qed.

(** ** The conversation gate *)

Section GateFacts.
Import Handler LedgerSpec.

Lemma gate_spec (matchId : nat) (user : string) (m : Match.t) :
  Store.gate matchId user m = true
  <-> Match.id m = matchId
      /\ (Match.userAId m = user \/ Match.userBId m = user)
      /\ Match.active m = true.
Proof.
  unfold Store.gate.
  rewrite !andb_true_iff, orb_true_iff, Nat.eqb_eq, !String.eqb_eq.
  destruct (Match.active m); simpl; intuition congruence.
Qed.

Lemma findFirst_canAccess (db : Store.t) (user : string) (matchId : nat) :
  canAccess db user matchId
  <-> exists m, Store.match_findFirst db matchId user = Some m.
Proof.
  unfold canAccess, Store.match_findFirst. split.
  - intros [m [Hin Hm]]. apply gate_spec in Hm.
    destruct (find (Store.gate matchId user) (Store.matches db)) as [m' |] eqn:E;
      [now exists m' |].
    pose proof (find_none _ _ E m Hin). congruence.
  - intros [m E]. apply find_some in E. destruct E as [Hin Hm].
    exists m. split; [exact Hin | now apply gate_spec].
Qed.

Lemma findFirst_match_exists (db : Store.t) (user : string) (matchId : nat)
    (m : Match.t) :
  Store.match_findFirst db matchId user = Some m ->
  Store.match_exists db matchId = true.
Proof.
  intros E. apply find_some in E. destruct E as [Hin Hm].
  apply gate_spec in Hm. destruct Hm as [Hid _].
  apply existsb_exists. exists m. split; [exact Hin | now apply Nat.eqb_eq].
Qed.

Lemma messageSchema_parse_ok (b : JSString.t) :
  (1 <= List.length b <= 1000)%nat ->
  MessagesRoute.messageSchema_parse (Some b) = Some b.
Proof.
  intros [Hlo Hhi]. unfold MessagesRoute.messageSchema_parse.
  apply Nat.leb_le in Hlo, Hhi. now rewrite Hlo, Hhi.
Qed.

Lemma messageSchema_parse_rejected (body : option JSString.t) :
  rejected_body body -> MessagesRoute.messageSchema_parse body = None.
Proof.
  destruct body as [b |]; [| reflexivity]. simpl.
  unfold MessagesRoute.messageSchema_parse. intros [H | H].
  - rewrite H. reflexivity.
  - apply Nat.leb_gt in H. rewrite H, andb_false_r. reflexivity.
Qed.

Lemma listMessages_run (db : Store.t) (user : string) (matchId : nat) :
  run (MessagesRoute.listMessages user matchId) db
  = match Store.match_findFirst db matchId user with
    | Some _ => (json (MessagesBody (Store.message_findMany db matchId)), db)
    | None => (notFound, db)
    end.
Proof.
  unfold run, MessagesRoute.listMessages, MessagesRoute.GET. simpl.
  destruct (Store.match_findFirst db matchId user); reflexivity.
Qed.

Lemma postMessage_run (db : Store.t) (user : string) (matchId : nat)
    (b : JSString.t) :
  Store.user_exists db user = true ->
  (1 <= List.length b <= 1000)%nat ->
  run (MessagesRoute.postMessage user matchId b) db
  = match Store.match_findFirst db matchId user with
    | Some _ =>
        let message := Store.new_message db matchId user b in
        (json (MessageBody message),
         Store.broadcast (Store.insert_message db message) matchId message)
    | None => (notFound, db)
    end.
Proof.
  intros Hu Hb.
  unfold run, MessagesRoute.postMessage, MessagesRoute.POST.
  cbn [try_ catch_ MessagesRoute.auth MessagesRoute.matchId MessagesRoute.body].
  rewrite (messageSchema_parse_ok b Hb). simpl.
  destruct (Store.match_findFirst db matchId user) as [m |] eqn:E;
    [| reflexivity].
  simpl. unfold Store.message_create.
  rewrite (findFirst_match_exists _ _ _ _ E), Hu. reflexivity.
Qed.

End GateFacts.

(** C5. The conversation gate, behind validation: for a user [u] and a
    match id [m], [listMessages(u, m)] succeeds exactly when an active match
    with id [m] has [u] as a participant, and otherwise answers not-found
    (status 404).  [postMessage(u, m, body)] validates the body first.  For
    a body of 1 to 1000 code units it succeeds exactly when the gate opens,
    then storing the message with [u] as sender, and otherwise answers
    not-found with the store as before.  For a body that is missing, empty
    or longer than 1000 code units it ends in the internal error (status
    500) whether the gate opens or not, and the store is as before. *)
Theorem conversation_gate (db : Store.t) (u : string) (m : nat)
    (b : JSString.t) (rejected : option JSString.t) :
  Store.user_exists db u = true ->
  (1 <= List.length b <= 1000)%nat ->
  LedgerSpec.rejected_body rejected ->
  let get := Handler.run (MessagesRoute.listMessages u m) db in
  let post := Handler.run (MessagesRoute.postMessage u m b) db in
  (LedgerSpec.canAccess db u m ->
     get = (Handler.json (Handler.MessagesBody (Store.message_findMany db m)), db)
     /\ post = (Handler.json (Handler.MessageBody (Store.new_message db m u b)),
                Store.broadcast
                  (Store.insert_message db (Store.new_message db m u b)) m
                  (Store.new_message db m u b)))
  /\ (~ LedgerSpec.canAccess db u m ->
      get = (LedgerSpec.notFound, db) /\ post = (LedgerSpec.notFound, db))
  /\ (Handler.status (fst get) = 200%nat <-> LedgerSpec.canAccess db u m)
  /\ (Handler.status (fst post) = 200%nat <-> LedgerSpec.canAccess db u m)
  /\ Handler.run
       (MessagesRoute.POST
          {| MessagesRoute.auth := Some u; MessagesRoute.matchId := m;
             MessagesRoute.body := rejected |}) db
     = (LedgerSpec.internalError, db).
Proof.
  intros Hu Hb Hrej. cbv zeta.
  rewrite listMessages_run, (postMessage_run db u m b Hu Hb).
  pose proof (findFirst_canAccess db u m) as Hgate.
  assert (Hpost : Handler.run
            (MessagesRoute.POST
               {| MessagesRoute.auth := Some u; MessagesRoute.matchId := m;
                  MessagesRoute.body := rejected |}) db
          = (LedgerSpec.internalError, db)).
  { unfold Handler.run, MessagesRoute.POST.
    cbn [Handler.try_ Handler.catch_ MessagesRoute.auth
         MessagesRoute.matchId MessagesRoute.body].
    rewrite (messageSchema_parse_rejected rejected Hrej). reflexivity. }
  destruct (Store.match_findFirst db m u) as [row |] eqn:E.
  - assert (Hacc : LedgerSpec.canAccess db u m)
      by (apply Hgate; now exists row).
    repeat split; try reflexivity; try (intros; exact Hacc);
      try exact Hpost; contradiction.
  - assert (Hno : ~ LedgerSpec.canAccess db u m).
    { intros Hacc. apply Hgate in Hacc. destruct Hacc as [row Hrow].
      discriminate. }
    repeat split; try reflexivity; try contradiction; try exact Hpost;
      simpl; intros; discriminate.
Qed.

Lemma conversation_gate_witness :
  let db := LedgerSpec.matched in
  let b := JSString.units "hi" in
  let get := Handler.run (MessagesRoute.listMessages "c" 2) db in
  let post := Handler.run (MessagesRoute.postMessage "c" 2 b) db in
  (LedgerSpec.canAccess db "c" 2 ->
     get = (Handler.json (Handler.MessagesBody (Store.message_findMany db 2)), db)
     /\ post = (Handler.json (Handler.MessageBody (Store.new_message db 2 "c" b)),
                Store.broadcast
                  (Store.insert_message db (Store.new_message db 2 "c" b)) 2
                  (Store.new_message db 2 "c" b)))
  /\ (~ LedgerSpec.canAccess db "c" 2 ->
      get = (LedgerSpec.notFound, db) /\ post = (LedgerSpec.notFound, db))
  /\ (Handler.status (fst get) = 200%nat <-> LedgerSpec.canAccess db "c" 2)
  /\ (Handler.status (fst post) = 200%nat <-> LedgerSpec.canAccess db "c" 2)
  /\ Handler.run
       (MessagesRoute.POST
          {| MessagesRoute.auth := Some "c"; MessagesRoute.matchId := 2;
             MessagesRoute.body := Some [] |}) db
     = (LedgerSpec.internalError, db).
Proof.
  apply (conversation_gate LedgerSpec.matched "c" 2 (JSString.units "hi")
           (Some [])).
  - reflexivity.
  - simpl. lia.
  - left. reflexivity.
Defined.

(** The claim as it was stated, for every body, fails on a body that the
    schema rejects: on the store where [a] and [b] are matched (match 2),
    the participant [a] who posts the empty string does not succeed, and
    the third user [c] who posts it is not answered not-found; both get the
    internal error. *)
Lemma postMessage_empty_body_bypasses_gate :
  let db := LedgerSpec.matched in
  let insider := Handler.run (MessagesRoute.postMessage "a" 2 []) db in
  let outsider := Handler.run (MessagesRoute.postMessage "c" 2 []) db in
  LedgerSpec.canAccess db "a" 2
  /\ Handler.status (fst insider) = 500%nat
  /\ ~ LedgerSpec.canAccess db "c" 2
  /\ outsider = (LedgerSpec.internalError, db)
  /\ Handler.status (fst outsider) = 500%nat
  /\ Handler.status LedgerSpec.notFound = 404%nat.
Proof.
  cbv zeta. split; [| split; [| split; [| split; [| split]]]];
    try reflexivity.
  - eexists. split; [left; reflexivity |]. simpl. auto.
  - intros [row [Hin [Hid [Hpart Hact]]]]. simpl in Hin.
    destruct Hin as [<- | []]. simpl in Hpart.
    destruct Hpart; discriminate.
Qed.

(** ** The candidate feed *)

Section FeedFacts.
Import Handler LedgerSpec.

Lemma In_firstn {A : Type} (n : nat) (l : list A) (x : A) :
  In x (firstn n l) -> In x l.
Proof.
  revert l. induction n as [| n IH]; intros [| y l]; simpl; try tauto.
  intros [H | H]; [now left | right; now apply IH].
Qed.

Lemma In_insert_sorted (x y : RecommendationsRoute.Scored)
    (l : list RecommendationsRoute.Scored) :
  In x (RecommendationsRoute.insert_sorted y l) -> x = y \/ In x l.
Proof.
  induction l as [| z l IH]; simpl.
  - intros [H | []]; now left.
  - destruct (PrimFloat.ltb 0 (RecommendationsRoute.compare_scores y z)); simpl.
    + intros [H | H]; [right; now left |].
      destruct (IH H) as [H' | H']; [now left | right; now right].
    + intros [H | H]; [now left | now right].
Qed.

Lemma In_sort (x : RecommendationsRoute.Scored)
    (l : list RecommendationsRoute.Scored) :
  In x (RecommendationsRoute.sort l) -> In x l.
Proof.
  unfold RecommendationsRoute.sort.
  induction l as [| y l IH]; simpl; [tauto |].
  intros H. apply In_insert_sorted in H.
  destruct H as [H | H]; [now left | right; now apply IH].
Qed.

Lemma includes_In (l : list string) (x : string) :
  JS.includes l x = true <-> In x l.
Proof.
  unfold JS.includes. rewrite existsb_exists. split.
  - intros [y [Hin Heq]]. apply String.eqb_eq in Heq. now subst.
  - intros Hin. exists x. split; [exact Hin | apply String.eqb_refl].
Qed.

Lemma findMany_excludes (db : Store.t) (viewer : string) (u : User.t) :
  In u (Store.user_findMany db viewer
          (map Like.toId (Store.likesSent db viewer)) 20) ->
  In u (Store.users db)
  /\ User.id u <> viewer
  /\ stored_likes db viewer (User.id u) = 0%nat.
Proof.
  unfold Store.user_findMany. intros H. apply In_firstn, filter_In in H.
  destruct H as [Hin H]. apply andb_true_iff in H. destruct H as [Hself Hliked].
  apply negb_true_iff in Hself, Hliked.
  split; [exact Hin |]. split; [now apply String.eqb_neq |].
  apply count_none.
  destruct (existsb (Store.like_is viewer (User.id u)) (Store.likes db)) eqn:E;
    [| reflexivity].
  apply existsb_exists in E. destruct E as [l [Hl Hlike]].
  unfold Store.like_is in Hlike. apply andb_true_iff in Hlike.
  destruct Hlike as [Hfrom Hto]. apply String.eqb_eq in Hto.
  assert (Hinc : JS.includes (map Like.toId (Store.likesSent db viewer))
                   (User.id u) = true).
  { apply includes_In. rewrite <- Hto. apply in_map.
    unfold Store.likesSent. apply filter_In. now split. }
  congruence.
Qed.

End FeedFacts.

(** C9. Feed exclusion: every candidate of a feed the recommendations route
    returns to a viewer is a user other than the viewer, toward whom the
    viewer has no stored Interest. *)
Theorem feed_excludes (db : Store.t) (viewer : string)
    (recs : list RecommendationsRoute.Scored) :
  Handler.payload (fst (Handler.run (RecommendationsRoute.GET (Some viewer)) db))
  = Handler.RecommendationsBody recs ->
  forall r, In r recs ->
    In (RecommendationsRoute.candidate r) (Store.users db)
    /\ User.id (RecommendationsRoute.candidate r) <> viewer
    /\ LedgerSpec.stored_likes db viewer
         (User.id (RecommendationsRoute.candidate r)) = 0%nat.
Proof.
  unfold Handler.run, RecommendationsRoute.GET. simpl.
  destruct (Store.user_findUnique db viewer) as [currentUser |]; simpl;
    [| discriminate].
  intros Hrecs r Hr. injection Hrecs as <-.
  apply In_sort, in_map_iff in Hr. destruct Hr as [u [<- Hu]].
  unfold RecommendationsRoute.candidate. simpl.
  now apply findMany_excludes.
Qed.

Lemma feed_excludes_witness :
  List.length
    (LedgerSpec.feed
       (fst (Handler.run (RecommendationsRoute.GET (Some "a")) LedgerSpec.fresh)))
  = 2%nat
  /\ Forall
       (fun r =>
          In (RecommendationsRoute.candidate r) (Store.users LedgerSpec.fresh)
          /\ User.id (RecommendationsRoute.candidate r) <> "a"
          /\ LedgerSpec.stored_likes LedgerSpec.fresh "a"
               (User.id (RecommendationsRoute.candidate r)) = 0%nat)
       (LedgerSpec.feed
          (fst (Handler.run (RecommendationsRoute.GET (Some "a"))
                  LedgerSpec.fresh))).
Proof.
  split; [reflexivity |]. apply Forall_forall.
  apply (feed_excludes LedgerSpec.fresh "a"). reflexivity.
Defined.

(** * Further properties *)

(** ** The like route *)

Section LikeFacts.
Import Handler LedgerSpec LikeSpec.

(** What a like request does, for every request and store. *)
Lemma POST_effect (request : LikeRoute.Request) (db : Store.t) :
  effect request db
    (fst (run (LikeRoute.POST request) db))
    (snd (run (LikeRoute.POST request) db)).
Proof.
  destruct (run (LikeRoute.POST request) db) as [r db'] eqn:E. simpl.
  assert (Hrej : forall st b, (json_status b st, db) = (r, db') ->
            st <> 200%nat -> effect request db r db').
  { intros st b H Hst. injection H as <- <-. now apply Rejected. }
  destruct request as [[x |] [[y message] |]];
    unfold run, LikeRoute.POST in E; simpl in E;
    try (apply (Hrej _ _ E); discriminate).
  destruct (String.eqb x y) eqn:Exy; simpl in E;
    [apply (Hrej _ _ E); discriminate |].
  pose proof Exy as Hxy. apply String.eqb_neq in Hxy.
  unfold Store.user_findUnique in E.
  destruct (find (fun u => String.eqb (User.id u) y) (Store.users db)) eqn:Hy;
    simpl in E; [| apply (Hrej _ _ E); discriminate].
  assert (Uy : Store.user_exists db y = true)
    by (unfold Store.user_exists; now rewrite existsb_find, Hy).
  unfold Store.like_findUnique at 1 in E.
  destruct (find (Store.like_is x y) (Store.likes db)) eqn:Lxy; simpl in E;
    [apply (Hrej _ _ E); discriminate |].
  assert (Nxy : existsb (Store.like_is x y) (Store.likes db) = false)
    by now rewrite existsb_find, Lxy.
  unfold Store.like_create in E. rewrite Uy, Nxy in E.
  destruct (Store.user_exists db x) eqn:Ux; simpl in E;
    [| apply (Hrej _ _ E); discriminate].
  unfold Store.like_findUnique in E. simpl in E.
  rewrite find_snoc, like_is_new, Exy in E.
  destruct (find (Store.like_is y x) (Store.likes db)) eqn:Lyx; simpl in E.
  - assert (Eyx : existsb (Store.like_is y x) (Store.likes db) = true)
      by now rewrite existsb_find, Lyx.
    unfold Store.match_create, Store.user_exists in E. simpl in E.
    fold (Store.user_exists db x) in E. fold (Store.user_exists db y) in E.
    rewrite Ux, Uy in E. simpl in E.
    destruct (existsb (Store.match_is x y) (Store.matches db)) eqn:M;
      simpl in E; injection E as <- <-.
    + now apply (Conflict _ _ x y message).
    + now apply (Matched _ _ x y message).
  - assert (Eyx : existsb (Store.like_is y x) (Store.likes db) = false)
      by now rewrite existsb_find, Lyx.
    injection E as <- <-.
    now apply (Pending _ _ x y message).
Qed.

Lemma existsb_app_l {A : Type} (f : A -> bool) (l rows : list A) :
  existsb f l = true -> existsb f (l ++ rows) = true.
Proof. intros H. rewrite existsb_app, H. reflexivity. Qed.

Lemma existsb_pointwise {A : Type} (f g : A -> bool) (l : list A) :
  (forall x, f x = g x) -> existsb f l = existsb g l.
Proof.
  intros H. induction l as [| x l IH]; simpl; [reflexivity |].
  now rewrite H, IH.
Qed.

Lemma pair_is_new (db : Store.t) (x y x' y' : string) :
  pair_is x' y' (Store.new_match db x y) = true ->
  (x' = x /\ y' = y) \/ (x' = y /\ y' = x).
Proof.
  unfold pair_is. rewrite !match_is_new, orb_true_iff, !andb_true_iff,
    !String.eqb_eq.
  intros [[-> ->] | [-> ->]]; auto.
Qed.

(** A match row of the pair, in a backed table, has the like [x -> y]
    behind it. *)
Lemma backed_pair_like (db : Store.t) (x y : string) :
  matches_backed db ->
  existsb (pair_is x y) (Store.matches db) = true ->
  existsb (Store.like_is x y) (Store.likes db) = true.
Proof.
  intros Hb Hex. apply existsb_exists in Hex. destruct Hex as [m [Hm Hp]].
  destruct (Hb m Hm) as [Hab Hba].
  unfold pair_is in Hp. apply orb_true_iff in Hp.
  destruct Hp as [Hp | Hp]; apply match_is_key in Hp;
    injection Hp as Ha Hb'; rewrite Ha, Hb' in *; assumption.
Qed.

Lemma POST_keeps_ledger (request : LikeRoute.Request) (db : Store.t) :
  ledger_ok db -> ledger_ok (snd (run (LikeRoute.POST request) db)).
Proof.
  intros [Hself [Hback Hone]].
  assert (Hlike : forall x y message,
    x <> y ->
    no_self_like (Store.insert_like db (Store.new_like db x y message))).
  { intros x y message Hxy l Hl. simpl in Hl. apply in_app_iff in Hl.
    destruct Hl as [Hl | [<- | []]]; [now apply Hself | exact Hxy]. }
  assert (Hback1 : forall x y message,
    matches_backed (Store.insert_like db (Store.new_like db x y message))).
  { intros x y message m Hm. simpl in Hm. destruct (Hback m Hm) as [H1 H2].
    simpl. split; now apply existsb_app_l. }
  destruct (POST_effect request db)
    as [r Hr | x y message Hreq Hxy Ux Uy Nxy Nyx
        | x y message Hreq Hxy Ux Uy Nxy Eyx M
        | x y message Hreq Hxy Ux Uy Nxy Eyx M].
  - exact (conj Hself (conj Hback Hone)).
  - split; [now apply Hlike |]. split; [apply Hback1 | exact Hone].
  - split; [now apply Hlike |]. split; [apply Hback1 | exact Hone].
  - split; [now apply Hlike |]. split.
    + intros m Hm. simpl in Hm. apply in_app_iff in Hm.
      destruct Hm as [Hm | [<- | []]].
      * destruct (Hback m Hm) as [H1 H2]. simpl.
        split; now apply existsb_app_l.
      * simpl. rewrite !existsb_snoc, !like_is_new, Eyx, !String.eqb_refl.
        simpl. split; [apply orb_true_r | reflexivity].
    + intros x' y'. unfold match_rows. simpl Store.matches.
      rewrite count_snoc.
      destruct (pair_is x' y'
                  (Store.new_match
                     (Store.insert_like db (Store.new_like db x y message))
                     x y)) eqn:Hp.
      * assert (Hnone : existsb (pair_is x' y') (Store.matches db) = false).
        { destruct (existsb (pair_is x' y') (Store.matches db)) eqn:Hex;
            [| reflexivity].
          apply pair_is_new in Hp. destruct Hp as [[-> ->] | [-> ->]].
          - pose proof (backed_pair_like db x y Hback Hex). congruence.
          - assert (Hex' : existsb (pair_is x y) (Store.matches db) = true).
            { rewrite <- Hex. apply existsb_pointwise. intros m. unfold pair_is.
              apply orb_comm. }
            pose proof (backed_pair_like db x y Hback Hex'). congruence. }
        apply count_none in Hnone. rewrite Hnone. simpl. lia.
      * pose proof (Hone x' y') as H. unfold match_rows in H. lia.
Qed.

Lemma serve_keeps_ledger_aux (requests : list LikeRoute.Request)
    (db : Store.t) :
  ledger_ok db -> ledger_ok (serve requests db).
Proof.
  unfold serve. revert db.
  induction requests as [| request requests IH]; intros db H; simpl;
    [exact H |].
  apply IH. now apply POST_keeps_ledger.
Qed.

(** The handler of the like route, on distinct users. *)
Lemma like_run (db : Store.t) (x y : string) (message : option string) :
  x <> y ->
  Store.user_exists db x = true ->
  Store.user_exists db y = true ->
  run (LikeRoute.POST (like x y message)) db = outcome db x y message.
Proof.
  intros Hxy Hx Hy.
  assert (Hneq : String.eqb x y = false) by now apply String.eqb_neq.
  unfold run, like, LikeRoute.POST, outcome.
  simpl. rewrite Hneq. simpl.
  unfold Store.user_findUnique.
  pose proof Hy as Hy'. unfold Store.user_exists in Hy'.
  rewrite existsb_find in Hy'.
  destruct (find (fun u => String.eqb (User.id u) y) (Store.users db));
    [clear Hy' | discriminate].
  simpl. unfold Store.like_findUnique at 1.
  rewrite (existsb_find (Store.like_is x y)).
  destruct (find (Store.like_is x y) (Store.likes db)) eqn:Hxy_like;
    [reflexivity |].
  simpl. unfold Store.like_create. rewrite Hx, Hy. simpl.
  rewrite (existsb_find (Store.like_is x y)), Hxy_like.
  simpl. unfold Store.like_findUnique. simpl.
  rewrite find_snoc, like_is_new.
  rewrite (existsb_find (Store.like_is y x)).
  destruct (find (Store.like_is y x) (Store.likes db)) eqn:Hyx_like.
  - simpl. unfold Store.match_create, Store.user_exists. simpl.
    fold (Store.user_exists db x). fold (Store.user_exists db y).
    rewrite Hx, Hy. simpl.
    destruct (existsb (Store.match_is x y) (Store.matches db)); reflexivity.
  - rewrite Hneq. reflexivity.
Qed.

(** Two likes that cross, served one after the other. *)
Lemma serve_mutual (db : Store.t) (a b : string)
    (messageA messageB : option string) :
  a <> b ->
  Store.user_exists db a = true ->
  Store.user_exists db b = true ->
  stored_likes db a b = 0%nat ->
  stored_likes db b a = 0%nat ->
  match_rows db a b = 0%nat ->
  serve [like a b messageA] db
  = Store.insert_like db (Store.new_like db a b messageA)
  /\ serve [like a b messageA; like b a messageB] db
     = after_mutual db a b messageA messageB.
Proof.
  intros Hab Ha Hb Lab Lba M.
  assert (Hba : b <> a) by congruence.
  assert (Eab : String.eqb a b = false) by now apply String.eqb_neq.
  assert (Eba : String.eqb b a = false) by now apply String.eqb_neq.
  apply count_none in Lab, Lba.
  destruct (no_match_rows db a b M) as [Mab [Mba _]].
  unfold serve. simpl.
  rewrite (like_run db a b messageA Hab Ha Hb).
  assert (Hfirst : outcome db a b messageA
    = (Handler.json
         (Handler.LikeBody (Store.new_like db a b messageA) None false
            "Like sent! You'll be notified if they like you back."),
       Store.insert_like db (Store.new_like db a b messageA))).
  { unfold outcome. now rewrite Lab, Lba. }
  rewrite Hfirst. simpl snd. split; [reflexivity |].
  rewrite like_run; [| exact Hba | exact Hb | exact Ha].
  unfold outcome, after_mutual. simpl Store.likes. simpl Store.matches.
  rewrite !existsb_snoc, !like_is_new, Lab, Lba, Mba, Eab, Eba,
    !String.eqb_refl.
  reflexivity.
Qed.

(** A like request leaves the users and the messages alone and appends to
    the match table. *)
Lemma like_appends_only_aux (request : LikeRoute.Request) (db : Store.t) :
  Store.users (snd (run (LikeRoute.POST request) db)) = Store.users db
  /\ Store.messages (snd (run (LikeRoute.POST request) db))
     = Store.messages db
  /\ exists rows,
       Store.matches (snd (run (LikeRoute.POST request) db))
       = (Store.matches db ++ rows)%list.
Proof.
  destruct (POST_effect request db); simpl; repeat split;
    try (exists []; now rewrite app_nil_r).
  eexists. reflexivity.
Qed.

End LikeFacts.

(** X1. No self-interest: a request of a user to like themself is answered
    with status 400 "Cannot like yourself", whatever the store and the
    message, and writes nothing. *)
Theorem like_self_rejected (db : Store.t) (x : string)
    (message : option string) :
  Handler.run (LikeRoute.POST (LikeSpec.like x x message)) db
  = (LikeSpec.selfLike, db).
Proof.
  unfold Handler.run, LikeRoute.POST, LikeSpec.like. simpl.
  rewrite String.eqb_refl. reflexivity.
Qed.



(** X3. The like route only appends: whatever the request, the users and
    the messages are as before, the likes and the matches are the old
    tables with at most one row appended, and an answer other than 200 and
    500 leaves the whole store as it was. *)
Theorem like_appends_only (request : LikeRoute.Request) (db : Store.t) :
  let r := fst (Handler.run (LikeRoute.POST request) db) in
  let db' := snd (Handler.run (LikeRoute.POST request) db) in
  Store.users db' = Store.users db
  /\ Store.messages db' = Store.messages db
  /\ (exists rows, Store.likes db' = (Store.likes db ++ rows)%list
                   /\ (List.length rows <= 1)%nat)
  /\ (exists rows, Store.matches db' = (Store.matches db ++ rows)%list
                   /\ (List.length rows <= 1)%nat)
  /\ (Handler.status r = 200%nat \/ Handler.status r = 500%nat \/ db' = db).
Proof.
  cbv zeta.
  assert (Hnil : forall (A : Type) (l : list A),
            exists rows, l = (l ++ rows)%list /\ (List.length rows <= 1)%nat).
  { intros A l. exists []. rewrite app_nil_r. split; [reflexivity |].
    simpl. lia. }
  assert (Hone : forall (A : Type) (l : list A) (x : A),
            exists rows, (l ++ [x])%list = (l ++ rows)%list
                         /\ (List.length rows <= 1)%nat).
  { intros A l x. exists [x]. split; [reflexivity | simpl; lia]. }
  destruct (POST_effect request db); simpl.
  - repeat split; try apply Hnil. right. right. reflexivity.
  - repeat split; [apply Hone | apply Hnil | now left].
  - repeat split; [apply Hone | apply Hnil | right; now left].
  - repeat split; [apply Hone | apply Hone | now left].
Qed.

(** X4. A like answered with status 200 is stored and can be read back by
    its pair, with the caller, the target and the message of the request;
    [isMatch] tells whether the target had already liked the caller, and
    then a match row [(caller, target)] is in the table. *)
Theorem like_stored_and_flagged (db : Store.t) (x y : string)
    (message : option string) :
  let r := fst (Handler.run (LikeRoute.POST (LikeSpec.like x y message)) db) in
  let db' :=
    snd (Handler.run (LikeRoute.POST (LikeSpec.like x y message)) db) in
  Handler.status r = 200%nat ->
  Store.like_findUnique db' x y = Some (Store.new_like db x y message)
  /\ LikeRoute.isMatch r
     = Some (existsb (Store.like_is y x) (Store.likes db))
  /\ existsb (Store.match_is x y) (Store.matches db')
     = existsb (Store.like_is y x) (Store.likes db)
       || existsb (Store.match_is x y) (Store.matches db).
Proof.
  cbv zeta.
  assert (Hfind : forall db0,
    existsb (Store.like_is x y) (Store.likes db0) = false ->
    Store.like_findUnique
      (Store.insert_like db0 (Store.new_like db0 x y message)) x y
    = Some (Store.new_like db0 x y message)).
  { intros db0 H. unfold Store.like_findUnique. simpl.
    rewrite find_snoc, like_is_new, !String.eqb_refl. simpl.
    rewrite existsb_find in H.
    now destruct (find (Store.like_is x y) (Store.likes db0)). }
  destruct (POST_effect (LikeSpec.like x y message) db)
    as [r Hr | x0 y0 m0 Hreq Hxy Ux Uy Nxy Nyx
        | x0 y0 m0 Hreq Hxy Ux Uy Nxy Eyx M
        | x0 y0 m0 Hreq Hxy Ux Uy Nxy Eyx M];
    simpl; intros Hst; try congruence; try discriminate;
    injection Hreq as <- <- <-.
  - rewrite Nyx. split; [now apply Hfind |]. split; reflexivity.
  - rewrite Eyx, M. split; [now apply Hfind |]. split; [reflexivity |].
    simpl. rewrite existsb_snoc, match_is_new, !String.eqb_refl.
    simpl. apply orb_true_r.
Qed.

Lemma like_stored_and_flagged_witness :
  let request := LikeSpec.like "a" "b" (Some "hello") in
  let db := LedgerSpec.half_matched in
  let r := fst (Handler.run (LikeRoute.POST request) db) in
  let db' := snd (Handler.run (LikeRoute.POST request) db) in
  Store.like_findUnique db' "a" "b"
  = Some (Store.new_like db "a" "b" (Some "hello"))
  /\ LikeRoute.isMatch r
     = Some (existsb (Store.like_is "b" "a") (Store.likes db))
  /\ existsb (Store.match_is "a" "b") (Store.matches db')
     = existsb (Store.like_is "b" "a") (Store.likes db)
       || existsb (Store.match_is "a" "b") (Store.matches db).
Proof.
  apply (like_stored_and_flagged LedgerSpec.half_matched "a" "b"
           (Some "hello")).
  reflexivity.
Defined.

(** X5. Sequential service never duplicates a match: on a store with no
    self-like, whose match rows all have the likes of both users behind
    them, and with at most one match row per unordered pair, any sequence
    of like requests served one after the other keeps these three
    properties; in particular no pair ever gets a second match row. *)
Theorem serve_keeps_ledger (requests : list LikeRoute.Request)
    (db : Store.t) :
  LikeSpec.ledger_ok db ->
  LikeSpec.ledger_ok (LikeSpec.serve requests db)
  /\ forall x y,
       (LedgerSpec.match_rows (LikeSpec.serve requests db) x y <= 1)%nat.
Proof.
  intros H. pose proof (serve_keeps_ledger_aux requests db H) as H'.
  split; [exact H' | apply H'].
Qed.

Lemma serve_keeps_ledger_witness :
  let requests :=
    [LikeSpec.like "a" "b" None; LikeSpec.like "b" "a" (Some "hi");
     LikeSpec.like "a" "b" None; LikeSpec.like "c" "a" None] in
  LikeSpec.ledger_ok (LikeSpec.serve requests LedgerSpec.fresh)
  /\ forall x y,
       (LedgerSpec.match_rows (LikeSpec.serve requests LedgerSpec.fresh) x y
        <= 1)%nat.
Proof.
  apply (serve_keeps_ledger _ LedgerSpec.fresh).
  repeat split.
  - intros l [].
  - destruct H.
  - destruct H.
  - intros x y. apply Nat.le_0_l.
Defined.

(** ** The constraints of the migration *)

Section ConstraintFacts.
Import Handler LedgerSpec LikeSpec.

Lemma like_create_constraints (db : Store.t) (x y : string)
    (message : option string) :
  constraints_ok db ->
  constraints_ok (fst (Store.like_create db x y message)).
Proof.
  intros H. unfold Store.like_create.
  destruct (Store.user_exists db x) eqn:Ux; simpl; [| exact H].
  destruct (Store.user_exists db y) eqn:Uy; simpl; [| exact H].
  destruct (existsb (Store.like_is x y) (Store.likes db)) eqn:E; simpl;
    [exact H |].
  destruct H as [Hlu [Hmu [Hlf [Hmf Hgf]]]].
  split; [| split; [exact Hmu | split; [| split; [exact Hmf | exact Hgf]]]].
  - unfold likes_unique. simpl. rewrite map_app. simpl.
    apply NoDup_snoc; [exact Hlu |].
    intros Hin. apply in_map_iff in Hin. destruct Hin as [l [Hkey Hl]].
    assert (Hex : existsb (Store.like_is x y) (Store.likes db) = true).
    { apply existsb_exists. exists l. split; [exact Hl |].
      injection Hkey as Ha Hb. unfold Store.like_is.
      now rewrite Ha, Hb, !String.eqb_refl. }
    congruence.
  - intros l Hl. simpl in Hl. apply in_app_iff in Hl.
    destruct Hl as [Hl | [<- | []]]; [now apply Hlf | now split].
Qed.

Lemma match_create_constraints (db : Store.t) (x y : string) :
  constraints_ok db -> constraints_ok (fst (Store.match_create db x y)).
Proof.
  intros H. pose proof H as [Hlu [Hmu [Hlf [Hmf Hgf]]]].
  pose proof (match_create_unique db x y Hmu) as Hmu'.
  unfold Store.match_create in *.
  destruct (Store.user_exists db x) eqn:Ux; simpl in *; [| exact H].
  destruct (Store.user_exists db y) eqn:Uy; simpl in *; [| exact H].
  destruct (existsb (Store.match_is x y) (Store.matches db)) eqn:E;
    simpl in *; [exact H |].
  split; [exact Hlu | split; [exact Hmu' | split; [exact Hlf | split]]].
  - intros m Hm. simpl in Hm. apply in_app_iff in Hm.
    destruct Hm as [Hm | [<- | []]]; [now apply Hmf | now split].
  - intros msg Hmsg. destruct (Hgf msg Hmsg) as [Hm Hu].
    split; [| exact Hu]. unfold Store.match_exists in *.
    simpl. now apply existsb_app_l.
Qed.

Lemma message_create_constraints (db : Store.t) (m : nat) (u : string)
    (b : JSString.t) :
  constraints_ok db -> constraints_ok (fst (Store.message_create db m u b)).
Proof.
  intros H. unfold Store.message_create.
  destruct (Store.match_exists db m) eqn:Em; simpl; [| exact H].
  destruct (Store.user_exists db u) eqn:Eu; simpl; [| exact H].
  destruct H as [Hlu [Hmu [Hlf [Hmf Hgf]]]].
  split; [exact Hlu | split; [exact Hmu | split; [exact Hlf | split]]];
    [exact Hmf |].
  intros msg Hmsg. simpl in Hmsg. apply in_app_iff in Hmsg.
  destruct Hmsg as [Hmsg | [<- | []]]; [now apply Hgf | now split].
Qed.

(** No store call breaks a constraint. *)
Lemma exec_constraints {X : Type} (c : Call X) (db : Store.t) :
  constraints_ok db -> constraints_ok (fst (exec c db)).
Proof.
  intros H. destruct c; simpl; try exact H.
  - now apply like_create_constraints.
  - now apply match_create_constraints.
  - now apply message_create_constraints.
Qed.

Lemma step_constraints (p : prog) (db : Store.t) :
  constraints_ok db -> constraints_ok (snd (step p db)).
Proof.
  intros H. destruct p as [r | e | X c k]; simpl; try exact H.
  pose proof (exec_constraints c db H) as H'.
  destruct (exec c db) as [db' [e | x]]; exact H'.
Qed.

Lemma run_prog_constraints (catch : Error -> Response) (p : prog)
    (db : Store.t) :
  constraints_ok db -> constraints_ok (snd (run_prog catch p db)).
Proof.
  revert db. induction p as [r | e | X c k IH]; intros db H; simpl;
    try exact H.
  pose proof (exec_constraints c db H) as H'.
  destruct (exec c db) as [db' [e | x]]; [exact H' | now apply IH].
Qed.

Lemma interleave_constraints (schedule : list Race.side) (c : Race.config) :
  constraints_ok (Race.store c) ->
  constraints_ok (Race.store (Race.interleave schedule c)).
Proof.
  unfold Race.interleave. revert c.
  induction schedule as [| s schedule IH]; intros c H; simpl; [exact H |].
  apply IH. destruct s; simpl.
  - pose proof (step_constraints (Race.first c) (Race.store c) H) as H'.
    destruct (step (Race.first c) (Race.store c)); exact H'.
  - pose proof (step_constraints (Race.second c) (Race.store c) H) as H'.
    destruct (step (Race.second c) (Race.store c)); exact H'.
Qed.

End ConstraintFacts.

(** X6. The handlers keep the constraints of the migration: on a store
    that satisfies the two unique indexes and the foreign keys of likes,
    matches and messages, every handler run to its response, and every
    interleaving of two handlers in flight, leaves a store that satisfies
    them. *)
Theorem constraints_kept (h : Handler.t) (schedule : list Race.side)
    (p q : Handler.prog) (db : Store.t) :
  LikeSpec.constraints_ok db ->
  LikeSpec.constraints_ok (snd (Handler.run h db))
  /\ LikeSpec.constraints_ok
       (Race.store
          (Race.interleave schedule
             {| Race.first := p; Race.second := q; Race.store := db |})).
Proof.
  intros H. split.
  - now apply run_prog_constraints.
  - now apply interleave_constraints.
Qed.

Lemma constraints_kept_witness :
  LikeSpec.constraints_ok
    (snd (Handler.run (MessagesRoute.postMessage "a" 2 (JSString.units "hi"))
            LedgerSpec.matched))
  /\ LikeSpec.constraints_ok
       (Race.store
          (Race.interleave LedgerSpec.crossing
             {| Race.first :=
                  Handler.try_ (LikeRoute.expressInterest "a" "c");
                Race.second :=
                  Handler.try_ (LikeRoute.expressInterest "c" "a");
                Race.store := LedgerSpec.matched |})).
Proof.
  apply (constraints_kept (MessagesRoute.postMessage "a" 2 (JSString.units "hi"))).
  unfold LikeSpec.constraints_ok, LedgerSpec.likes_unique,
    LedgerSpec.matches_unique, LikeSpec.likes_fk, LikeSpec.matches_fk,
    LikeSpec.messages_fk.
  simpl. repeat split.
  - repeat constructor; simpl; intuition discriminate.
  - repeat constructor; simpl; intuition discriminate.
  - destruct H as [<- | [<- | [<- | []]]]; reflexivity.
  - destruct H as [<- | [<- | [<- | []]]]; reflexivity.
  - destruct H as [<- | []]; reflexivity.
  - destruct H as [<- | []]; reflexivity.
  - destruct H.
  - destruct H.
Defined.

(** ** The messages route *)

Section MessageFacts.
Import Handler LedgerSpec MessageSpec.

Lemma insert_by_createdAt_perm (x : Message.t) (l : list Message.t) :
  Permutation (Store.insert_by_createdAt x l) (x :: l).
Proof.
  induction l as [| y l IH]; simpl; [reflexivity |].
  destruct (Message.createdAt x <=? Message.createdAt y)%nat;
    [reflexivity |].
  rewrite IH. apply perm_swap.
Qed.

Lemma sort_by_createdAt_perm (l : list Message.t) :
  Permutation (fold_right Store.insert_by_createdAt [] l) l.
Proof.
  induction l as [| x l IH]; simpl; [reflexivity |].
  rewrite insert_by_createdAt_perm. now constructor.
Qed.

Lemma insert_by_createdAt_sorted (x : Message.t) (l : list Message.t) :
  Sorted earlier l -> Sorted earlier (Store.insert_by_createdAt x l).
Proof.
  induction l as [| y l IH]; simpl; intros Hs.
  - repeat constructor.
  - destruct (Nat.leb_spec (Message.createdAt x) (Message.createdAt y)).
    + constructor; [exact Hs | constructor; exact H].
    + inversion Hs as [| ? ? Hs' Hhd]; subst.
      constructor; [now apply IH |].
      destruct l as [| z l]; simpl.
      * constructor. unfold earlier. lia.
      * destruct (Message.createdAt x <=? Message.createdAt z)%nat.
        -- constructor. unfold earlier. lia.
        -- inversion Hhd; subst. now constructor.
Qed.

Lemma sort_by_createdAt_sorted (l : list Message.t) :
  StronglySorted earlier (fold_right Store.insert_by_createdAt [] l).
Proof.
  apply Sorted_StronglySorted.
  - intros a b c. unfold earlier. lia.
  - induction l as [| x l IH]; simpl; [constructor |].
    now apply insert_by_createdAt_sorted.
Qed.

Lemma insert_by_createdAt_last (y x : Message.t) (l : list Message.t) :
  (Message.createdAt y <= Message.createdAt x)%nat ->
  Store.insert_by_createdAt y (l ++ [x])
  = (Store.insert_by_createdAt y l ++ [x])%list.
Proof.
  intros Hyx. induction l as [| z l IH]; simpl.
  - apply Nat.leb_le in Hyx. now rewrite Hyx.
  - destruct (Message.createdAt y <=? Message.createdAt z)%nat;
      [reflexivity |].
    now rewrite IH.
Qed.

(** Sorting a table whose last row is its latest leaves that row last. *)
Lemma sort_by_createdAt_snoc (l : list Message.t) (x : Message.t) :
  (forall y, In y l -> (Message.createdAt y <= Message.createdAt x)%nat) ->
  fold_right Store.insert_by_createdAt [] (l ++ [x])
  = (fold_right Store.insert_by_createdAt [] l ++ [x])%list.
Proof.
  induction l as [| y l IH]; simpl; intros H; [reflexivity |].
  rewrite IH by (intros z Hz; apply H; now right).
  apply insert_by_createdAt_last. apply H. now left.
Qed.

Lemma canAccess_findFirst (db : Store.t) (u : string) (m : nat) :
  canAccess db u m ->
  exists row, Store.match_findFirst db m u = Some row
              /\ In row (Store.matches db) /\ Match.id row = m
              /\ (Match.userAId row = u \/ Match.userBId row = u).
Proof.
  intros H. apply findFirst_canAccess in H. destruct H as [row Hrow].
  exists row. split; [exact Hrow |].
  apply find_some in Hrow. destruct Hrow as [Hin Hg].
  apply gate_spec in Hg. tauto.
Qed.

End MessageFacts.

(** X7. Message history: for a participant of an active match,
    [listMessages] answers 200 with the stored messages of that match, all
    of them and no other, ordered by creation time, oldest first. *)
Theorem listMessages_sorted_complete (db : Store.t) (u : string) (m : nat) :
  LedgerSpec.canAccess db u m ->
  let r := fst (Handler.run (MessagesRoute.listMessages u m) db) in
  Handler.status r = 200%nat
  /\ StronglySorted MessageSpec.earlier (MessageSpec.listed r)
  /\ Permutation (MessageSpec.listed r)
       (filter (MessageSpec.of_match m) (Store.messages db)).
Proof.
  intros H. cbv zeta. rewrite listMessages_run.
  destruct (canAccess_findFirst db u m H) as [row [Hrow _]].
  rewrite Hrow. simpl. split; [reflexivity |]. split.
  - apply sort_by_createdAt_sorted.
  - apply sort_by_createdAt_perm.
Qed.

Lemma listMessages_sorted_complete_witness :
  let db :=
    snd (Handler.run (MessagesRoute.postMessage "b" 2 (JSString.units "hello"))
           (snd (Handler.run (MessagesRoute.postMessage "a" 2 (JSString.units "hi"))
                   LedgerSpec.matched))) in
  let r := fst (Handler.run (MessagesRoute.listMessages "a" 2) db) in
  Handler.status r = 200%nat
  /\ StronglySorted MessageSpec.earlier (MessageSpec.listed r)
  /\ Permutation (MessageSpec.listed r)
       (filter (MessageSpec.of_match 2) (Store.messages db)).
Proof.
  apply (listMessages_sorted_complete _ "a" 2).
  eexists. split; [simpl; left; reflexivity |]. simpl. auto.
Defined.

(** X8. Post then list: when no stored message is stamped later than the
    clock, a message of 1 to 1000 code units (every body the schema of the
    route accepts) posted by a participant is the last one of the history
    the route then lists, after the messages that were there; the
    histories of the other matches are as before, and the stamps are still
    within the clock. *)
Theorem postMessage_then_list (db : Store.t) (u : string) (m : nat)
    (b : JSString.t) :
  LedgerSpec.canAccess db u m ->
  Store.user_exists db u = true ->
  (1 <= List.length b <= 1000)%nat ->
  MessageSpec.timestamps_ok db ->
  let db' := snd (Handler.run (MessagesRoute.postMessage u m b) db) in
  fst (Handler.run (MessagesRoute.listMessages u m) db')
  = Handler.json
      (Handler.MessagesBody
         (Store.message_findMany db m ++ [Store.new_message db m u b]))
  /\ (forall m', m' <> m ->
        Store.message_findMany db' m' = Store.message_findMany db m')
  /\ MessageSpec.timestamps_ok db'.
Proof.
  intros Hacc Hu Hb Hts. cbv zeta.
  rewrite (postMessage_run db u m b Hu Hb).
  destruct (canAccess_findFirst db u m Hacc) as [row [Hrow _]].
  rewrite Hrow. simpl snd. rewrite listMessages_run.
  unfold Store.match_findFirst in *. simpl Store.matches. rewrite Hrow.
  unfold Store.message_findMany. simpl Store.messages.
  split; [| split].
  - rewrite filter_app. simpl. rewrite Nat.eqb_refl.
    rewrite sort_by_createdAt_snoc; [reflexivity |].
    intros y Hy. apply filter_In in Hy. simpl. now apply Hts.
  - intros m' Hm'. rewrite filter_app. simpl.
    assert (E : (m =? m')%nat = false) by (apply Nat.eqb_neq; congruence).
    rewrite E. now rewrite app_nil_r.
  - intros msg Hmsg. simpl in Hmsg. apply in_app_iff in Hmsg. simpl.
    destruct Hmsg as [Hmsg | [<- | []]];
      [pose proof (Hts msg Hmsg); lia | simpl; lia].
Qed.

Lemma postMessage_then_list_witness :
  let db := LedgerSpec.matched in
  let db' := snd (Handler.run (MessagesRoute.postMessage "a" 2 (JSString.units "hi")) db) in
  fst (Handler.run (MessagesRoute.listMessages "a" 2) db')
  = Handler.json
      (Handler.MessagesBody
         (Store.message_findMany db 2 ++ [Store.new_message db 2 "a" (JSString.units "hi")]))
  /\ (forall m', m' <> 2%nat ->
        Store.message_findMany db' m' = Store.message_findMany db m')
  /\ MessageSpec.timestamps_ok db'.
Proof.
  apply (postMessage_then_list LedgerSpec.matched "a" 2 (JSString.units "hi")).
  - eexists. split; [left; reflexivity |]. simpl. auto.
  - reflexivity.
  - simpl. lia.
  - intros msg [].
Defined.

(** X9. Message bounds: a post whose body is missing, empty or longer than
    1000 UTF-16 code units is answered with the internal error (status
    500), for a participant as for anyone else, and nothing is stored. *)
Theorem postMessage_rejected_body (db : Store.t) (u : string) (m : nat)
    (body : option JSString.t) :
  LedgerSpec.rejected_body body ->
  Handler.run
    (MessagesRoute.POST
       {| MessagesRoute.auth := Some u; MessagesRoute.matchId := m;
          MessagesRoute.body := body |}) db
  = (LedgerSpec.internalError, db).
Proof.
  intros H.
  unfold Handler.run, MessagesRoute.POST.
  cbn [Handler.try_ Handler.catch_ MessagesRoute.auth MessagesRoute.matchId
       MessagesRoute.body].
  rewrite (messageSchema_parse_rejected body H). reflexivity.
Qed.

Lemma postMessage_rejected_body_witness :
  Handler.run
    (MessagesRoute.POST
       {| MessagesRoute.auth := Some "a"; MessagesRoute.matchId := 2;
          MessagesRoute.body := Some (repeat 8364%N 1001) |})
    LedgerSpec.matched
  = (LedgerSpec.internalError, LedgerSpec.matched).
Proof.
  apply (postMessage_rejected_body LedgerSpec.matched "a" 2
           (Some (repeat 8364%N 1001))).
  right. rewrite repeat_length. lia.
Defined.

(** X10. Messages come from participants: when every stored message was
    sent by a participant of its match, this still holds after any request
    to post a message and after any like request. *)
Theorem by_participants_kept (post : MessagesRoute.Request)
    (like : LikeRoute.Request) (db : Store.t) :
  MessageSpec.by_participants db ->
  MessageSpec.by_participants (snd (Handler.run (MessagesRoute.POST post) db))
  /\ MessageSpec.by_participants (snd (Handler.run (LikeRoute.POST like) db)).
Proof.
  intros H. split.
  - destruct post as [[u |] m body];
      unfold Handler.run, MessagesRoute.POST;
      cbn [Handler.try_ Handler.catch_ MessagesRoute.auth
           MessagesRoute.matchId MessagesRoute.body]; [| exact H].
    destruct (MessagesRoute.messageSchema_parse body) as [b |]; [| exact H].
    simpl.
    destruct (Store.match_findFirst db m u) as [row |] eqn:Hrow;
      [| exact H].
    simpl. unfold Store.message_create.
    destruct (negb (Store.match_exists db m)); [exact H |].
    destruct (negb (Store.user_exists db u)); [exact H |].
    simpl. intros msg Hmsg. apply in_app_iff in Hmsg.
    destruct Hmsg as [Hmsg | [<- | []]]; [now apply H |].
    apply find_some in Hrow. destruct Hrow as [Hin Hg].
    apply gate_spec in Hg. exists row. simpl. tauto.
  - destruct (like_appends_only_aux like db) as [_ [Hmsgs [rows Hrows]]].
    intros msg Hmsg. rewrite Hmsgs in Hmsg.
    destruct (H msg Hmsg) as [m [Hm Hrest]].
    exists m. split; [| exact Hrest].
    rewrite Hrows. apply in_app_iff. now left.
Qed.

Lemma by_participants_kept_witness :
  MessageSpec.by_participants
    (snd (Handler.run (MessagesRoute.postMessage "a" 2 (JSString.units "hi"))
            LedgerSpec.matched))
  /\ MessageSpec.by_participants
       (snd (Handler.run (LikeRoute.expressInterest "c" "a")
               LedgerSpec.matched)).
Proof.
  apply (by_participants_kept
           {| MessagesRoute.auth := Some "a"; MessagesRoute.matchId := 2;
              MessagesRoute.body := Some (JSString.units "hi") |}
           {| LikeRoute.auth := Some "c";
              LikeRoute.parsed :=
                Some {| LikeRoute.toUserId := "a";
                        LikeRoute.message := None |} |}
           LedgerSpec.matched).
  intros msg [].
Defined.

(** ** Scoring and the candidate feed, further *)

Section FeedFacts2.
Import Handler LedgerSpec FeedSpec JS Scoring ScoringSpec.

Lemma insert_sorted_perm (x : RecommendationsRoute.Scored)
    (l : list RecommendationsRoute.Scored) :
  Permutation (RecommendationsRoute.insert_sorted x l) (x :: l).
Proof.
  induction l as [| y l IH]; simpl; [reflexivity |].
  destruct (PrimFloat.ltb 0 (RecommendationsRoute.compare_scores x y));
    [| reflexivity].
  rewrite IH. apply perm_swap.
Qed.

Lemma sort_perm (l : list RecommendationsRoute.Scored) :
  Permutation (RecommendationsRoute.sort l) l.
Proof.
  unfold RecommendationsRoute.sort.
  induction l as [| x l IH]; simpl; [reflexivity |].
  rewrite insert_sorted_perm. now constructor.
Qed.

(** The [notIn] filter of the route, on the likes table. *)
Lemma includes_likesSent (db : Store.t) (viewer uid : string) :
  JS.includes (map Like.toId (Store.likesSent db viewer)) uid
  = existsb (Store.like_is viewer uid) (Store.likes db).
Proof.
  unfold JS.includes, Store.likesSent, Store.like_is.
  induction (Store.likes db) as [| l ls IH]; simpl; [reflexivity |].
  destruct (String.eqb (Like.fromId l) viewer); simpl.
  - rewrite IH, (String.eqb_sym uid). reflexivity.
  - exact IH.
Qed.

Lemma findMany_eligible (db : Store.t) (viewer : string) :
  Store.user_findMany db viewer
    (map Like.toId (Store.likesSent db viewer)) 20
  = firstn 20 (filter (eligible db viewer) (Store.users db)).
Proof.
  unfold Store.user_findMany, eligible. f_equal.
  apply filter_ext. intros u. now rewrite includes_likesSent.
Qed.

(** The response of the route for a viewer with a profile. *)
Lemma recommendations_run (db : Store.t) (viewer : string) (me : User.t) :
  Store.user_findUnique db viewer = Some me ->
  run (RecommendationsRoute.GET (Some viewer)) db
  = (json (RecommendationsBody
             (RecommendationsRoute.sort
                (map (scored me)
                   (firstn 20 (filter (eligible db viewer) (Store.users db)))))),
     db).
Proof.
  intros Hme. unfold run, RecommendationsRoute.GET. simpl.
  rewrite Hme. simpl. rewrite findMany_eligible. reflexivity.
Qed.

(** Integer scores compare as their integers. *)
Lemma small_scores_compare :
  forallb (fun a =>
    forallb (fun b =>
      Bool.eqb (PrimFloat.ltb 0 (Num b - Num a)%float) (a <? b)
      && Bool.eqb (PrimFloat.leb (Num b) (Num a)) (b <=? a))
      (int_range 0 86))
    (int_range 0 86) = true.
Proof. vm_compute. reflexivity. Qed.

Lemma small_scores_compare_at (a b : Z) :
  0 <= a <= 85 -> 0 <= b <= 85 ->
  PrimFloat.ltb 0 (Num b - Num a)%float = (a <? b)
  /\ PrimFloat.leb (Num b) (Num a) = (b <=? a).
Proof.
  intros Ha Hb. pose proof small_scores_compare as G.
  rewrite forallb_forall in G.
  specialize (G a (int_range_In 0 86 a ltac:(lia))).
  rewrite forallb_forall in G.
  specialize (G b (int_range_In 0 86 b ltac:(lia))).
  apply andb_true_iff in G. destruct G as [G1 G2].
  apply Bool.eqb_prop in G1, G2. now split.
Qed.

Lemma insert_sorted_ordered (x : RecommendationsRoute.Scored)
    (l : list RecommendationsRoute.Scored) :
  small x -> Forall small l -> Sorted ordered l ->
  Sorted ordered (RecommendationsRoute.insert_sorted x l).
Proof.
  intros Hx. induction l as [| y l IH]; simpl; intros Hl Hs.
  - repeat constructor.
  - inversion Hl as [| ? ? Hy Hl']; subst.
    pose proof Hx as [nx [Bx Ex]]. pose proof Hy as [ny [By Ey]].
    destruct (small_scores_compare_at nx ny Bx By) as [Hlt Hle].
    destruct (small_scores_compare_at ny nx By Bx) as [_ Hle'].
    unfold RecommendationsRoute.compare_scores. rewrite Ex, Ey, Hlt.
    destruct (Z.ltb_spec nx ny).
    + inversion Hs as [| ? ? Hs' Hhd]; subst.
      constructor; [now apply IH |].
      destruct l as [| z l]; simpl.
      * constructor. repeat split; try assumption.
        unfold not_below. rewrite Ex, Ey, Hle'. apply Z.leb_le. lia.
      * inversion Hl' as [| ? ? Hz _]; subst.
        pose proof Hz as [nz [Bz Ez]].
        destruct (small_scores_compare_at nx nz Bx Bz) as [Hlt' _].
        unfold RecommendationsRoute.compare_scores. rewrite Ex, Ez, Hlt'.
        destruct (nx <? nz).
        -- inversion Hhd; subst. now constructor.
        -- constructor. repeat split; try assumption.
           unfold not_below. rewrite Ex, Ey, Hle'. apply Z.leb_le. lia.
    + constructor; [exact Hs |]. constructor. repeat split; try assumption.
      unfold not_below. rewrite Ex, Ey, Hle. apply Z.leb_le. lia.
Qed.

Lemma ordered_trans (a b c : RecommendationsRoute.Scored) :
  ordered a b -> ordered b c -> ordered a c.
Proof.
  intros [Ha [Hb Hab]] [_ [Hc Hbc]]. repeat split; try assumption.
  destruct Ha as [na [Ba Ea]], Hb as [nb [Bb Eb]], Hc as [nc [Bc Ec]].
  unfold not_below in *. rewrite Ea, Eb, Ec in *.
  destruct (small_scores_compare_at na nb Ba Bb) as [_ H1].
  destruct (small_scores_compare_at nb nc Bb Bc) as [_ H2].
  destruct (small_scores_compare_at na nc Ba Bc) as [_ H3].
  rewrite H1 in Hab. rewrite H2 in Hbc. rewrite H3.
  apply Z.leb_le in Hab, Hbc. apply Z.leb_le. lia.
Qed.

Lemma sort_ordered (l : list RecommendationsRoute.Scored) :
  Forall small l -> StronglySorted not_below (RecommendationsRoute.sort l).
Proof.
  intros Hl.
  assert (Hs : Sorted ordered (RecommendationsRoute.sort l)
               /\ Forall small (RecommendationsRoute.sort l)).
  { unfold RecommendationsRoute.sort.
    induction Hl as [| x l Hx Hl IH]; simpl; [split; constructor |].
    destruct IH as [IH1 IH2]. split.
    - now apply insert_sorted_ordered.
    - apply Forall_forall. intros y Hy.
      apply (Permutation_in _ (insert_sorted_perm x _)) in Hy.
      destruct Hy as [<- | Hy]; [exact Hx |].
      rewrite Forall_forall in IH2. now apply IH2. }
  destruct Hs as [Hs _].
  apply Sorted_StronglySorted in Hs; [| exact ordered_trans].
  induction Hs as [| x xs Hs IH Hx]; constructor; [exact IH |].
  eapply Forall_impl; [| exact Hx]. intros y Hy. apply Hy.
Qed.

(** The size of an intersection of two lists without repetition does not
    depend on which list is filtered. *)
Lemma overlap_sym (l1 l2 : list string) :
  NoDup l1 -> NoDup l2 ->
  List.length (filter (fun x => includes l2 x) l1)
  = List.length (filter (fun x => includes l1 x) l2).
Proof.
  intros H1 H2. apply Permutation_length. apply NoDup_Permutation.
  - now apply NoDup_filter.
  - now apply NoDup_filter.
  - intros x. rewrite !filter_In, !includes_In. tauto.
Qed.

Lemma availability_threshold :
  forallb (fun d =>
    Bool.eqb (PrimFloat.ltb 7 (availability_of_diff d)) (d <? 30))
    (int_range 0 101) = true.
Proof. vm_compute. reflexivity. Qed.

Lemma completeness_threshold :
  forallb (fun k => Bool.eqb (PrimFloat.ltb 4 (completeness_of k)) (5 <=? k))
    (int_range 0 7) = true.
Proof. vm_compute. reflexivity. Qed.

Lemma user2Completeness_le (u : UserWithRelations) :
  (user2Completeness u <= 6)%nat.
Proof.
  unfold user2Completeness.
  destruct (truthy_string (bio u)), (truthy_string (headline u)),
    (truthy_string (location u)), (0 <? List.length (skills u))%nat,
    (0 <? List.length (offers u))%nat,
    (0 <? List.length (lookingFor u))%nat; simpl; lia.
Qed.

End FeedFacts2.

(** X11. The feed is the first 20 eligible users: for a viewer with a
    profile, the route answers 200 with the first 20 users of the table
    that are not the viewer and that the viewer has not liked, rearranged,
    each with the score and the reasons of [calculateMatchScore] for the
    viewer and that user; so the feed has at most 20 entries. *)
Theorem feed_is_first_20_eligible (db : Store.t) (viewer : string)
    (me : User.t) :
  Store.user_findUnique db viewer = Some me ->
  let r := fst (Handler.run (RecommendationsRoute.GET (Some viewer)) db) in
  Handler.status r = 200%nat
  /\ Permutation (LedgerSpec.feed r)
       (map (FeedSpec.scored me)
          (firstn 20 (filter (FeedSpec.eligible db viewer) (Store.users db))))
  /\ List.length (LedgerSpec.feed r)
     = Nat.min 20
         (List.length (filter (FeedSpec.eligible db viewer) (Store.users db))).
Proof.
  intros Hme. cbv zeta. rewrite (recommendations_run db viewer me Hme).
  unfold LedgerSpec.feed, Handler.json.
  cbn [fst Handler.payload Handler.status].
  split; [reflexivity |]. split; [apply sort_perm |].
  rewrite (Permutation_length (sort_perm _)), length_map. apply length_firstn.
Qed.

Lemma feed_is_first_20_eligible_witness :
  let db := FeedSpec.pair_store in
  let me := {| User.id := "v"; User.profile := ScoringExamples.viewer |} in
  let r := fst (Handler.run (RecommendationsRoute.GET (Some "v")) db) in
  Handler.status r = 200%nat
  /\ Permutation (LedgerSpec.feed r)
       (map (FeedSpec.scored me)
          (firstn 20 (filter (FeedSpec.eligible db "v") (Store.users db))))
  /\ List.length (LedgerSpec.feed r)
     = Nat.min 20
         (List.length (filter (FeedSpec.eligible db "v") (Store.users db))).
Proof.
  apply (feed_is_first_20_eligible FeedSpec.pair_store "v"). reflexivity.
Defined.

(** X12. The feed is ordered by score: when the profiles of the store are
    well formed, no candidate of the feed has a higher score than a
    candidate listed before. *)
Theorem feed_sorted_by_score (db : Store.t) (viewer : string) :
  (forall u, In u (Store.users db) -> ScoringSpec.wellFormed (User.profile u)) ->
  StronglySorted FeedSpec.not_below
    (LedgerSpec.feed
       (fst (Handler.run (RecommendationsRoute.GET (Some viewer)) db))).
Proof.
  intros Hwf.
  destruct (Store.user_findUnique db viewer) as [me |] eqn:Hme.
  - rewrite (recommendations_run db viewer me Hme).
    unfold LedgerSpec.feed, Handler.json. cbn [fst Handler.payload].
    apply sort_ordered. apply Forall_forall. intros r Hr.
    apply in_map_iff in Hr. destruct Hr as [u [<- Hu]].
    apply In_firstn, filter_In in Hu. destruct Hu as [Hu _].
    apply find_some in Hme. destruct Hme as [Hme _].
    unfold FeedSpec.small, FeedSpec.scored, RecommendationsRoute.matchScore.
    simpl.
    apply score_is_small_int.
  - unfold Handler.run, RecommendationsRoute.GET. simpl. rewrite Hme.
    simpl. constructor.
Qed.

Lemma feed_sorted_by_score_witness :
  StronglySorted FeedSpec.not_below
    (LedgerSpec.feed
       (fst (Handler.run (RecommendationsRoute.GET (Some "n"))
               FeedSpec.pair_store))).
Proof.
  apply (feed_sorted_by_score FeedSpec.pair_store "n").
  intros u [<- | [<- | [<- | []]]]; unfold ScoringSpec.wellFormed; simpl;
    try lia; exact I.
Defined.

(** X13. The reasons in terms of the profiles: for well-formed profiles
    whose availabilities are both present and not 0, the availability term
    exceeds 7 exactly when the availabilities differ by less than 30; the
    completeness term exceeds 4 exactly when at least 5 of the 6 fields of
    the candidate are filled. *)
Theorem reason_thresholds (user1 user2 : Scoring.UserWithRelations)
    (a1 a2 : Z) :
  Scoring.availability user1 = Some a1 ->
  Scoring.availability user2 = Some a2 ->
  0 < a1 <= 100 -> 0 < a2 <= 100 ->
  (exists a, Scoring.availabilityScore user1 user2 = Some a
             /\ PrimFloat.ltb 7 a = (Z.abs (a1 - a2) <? 30))
  /\ PrimFloat.ltb 4 (Scoring.completenessScore user2)
     = (5 <=? Scoring.user2Completeness user2)%nat.
Proof.
  intros E1 E2 H1 H2. split.
  - unfold Scoring.availabilityScore. rewrite E1, E2. simpl.
    assert (N1 : (a1 =? 0) = false) by (apply Z.eqb_neq; lia).
    assert (N2 : (a2 =? 0) = false) by (apply Z.eqb_neq; lia).
    rewrite N1, N2. simpl. eexists. split; [reflexivity |].
    pose proof availability_threshold as G. rewrite forallb_forall in G.
    specialize (G (Z.abs (a1 - a2))
                  (int_range_In 0 101 (Z.abs (a1 - a2)) ltac:(lia))).
    now apply Bool.eqb_prop in G.
  - pose proof completeness_threshold as G. rewrite forallb_forall in G.
    pose proof (user2Completeness_le user2) as Hk.
    specialize (G (Z.of_nat (Scoring.user2Completeness user2))
                  (int_range_In 0 7
                     (Z.of_nat (Scoring.user2Completeness user2))
                     ltac:(lia))).
    apply Bool.eqb_prop in G.
    change (Scoring.completenessScore user2)
      with (ScoringSpec.completeness_of
              (Z.of_nat (Scoring.user2Completeness user2))).
    rewrite G.
    destruct (Nat.leb_spec 5 (Scoring.user2Completeness user2));
      [apply Z.leb_le | apply Z.leb_gt]; lia.
Qed.

Lemma reason_thresholds_witness :
  (exists a,
     Scoring.availabilityScore ScoringExamples.viewer ScoringExamples.candidate
     = Some a
     /\ PrimFloat.ltb 7 a = (Z.abs (80 - 85) <? 30))
  /\ PrimFloat.ltb 4 (Scoring.completenessScore ScoringExamples.candidate)
     = (5 <=? Scoring.user2Completeness ScoringExamples.candidate)%nat.
Proof.
  apply (reason_thresholds ScoringExamples.viewer ScoringExamples.candidate
           80 85); try reflexivity; lia.
Defined.

(** X14. The pair terms are symmetric: when neither profile repeats a tag
    or a skill name, the tag, skill, location and availability terms are
    the same whichever of the two is the viewer. *)
Theorem pair_terms_symmetric (user1 user2 : Scoring.UserWithRelations) :
  FeedSpec.distinct_tags user1 -> FeedSpec.distinct_tags user2 ->
  Scoring.tagScore user1 user2 = Scoring.tagScore user2 user1
  /\ Scoring.skillScore user1 user2 = Scoring.skillScore user2 user1
  /\ Scoring.locationScore user1 user2 = Scoring.locationScore user2 user1
  /\ Scoring.availabilityScore user1 user2
     = Scoring.availabilityScore user2 user1.
Proof.
  intros [O1 [L1 S1]] [O2 [L2 S2]]. repeat split.
  - unfold Scoring.tagScore, Scoring.offerOverlap, Scoring.lookingForOverlap,
      Scoring.user1Offers, Scoring.user1LookingFor, Scoring.user2Offers,
      Scoring.user2LookingFor.
    rewrite (overlap_sym _ _ O1 L2), (overlap_sym _ _ L1 O2). f_equal. lia.
  - unfold Scoring.skillScore, Scoring.skillOverlap, Scoring.user1Skills,
      Scoring.user2Skills.
    now rewrite (overlap_sym _ _ S1 S2).
  - unfold Scoring.locationScore.
    rewrite (andb_comm (JS.truthy_string (Scoring.location user1))).
    destruct (Scoring.location user1) as [l1 |],
      (Scoring.location user2) as [l2 |]; try reflexivity.
    now rewrite (String.eqb_sym l1 l2).
  - unfold Scoring.availabilityScore.
    rewrite (andb_comm (JS.truthy_int (Scoring.availability user1))).
    destruct (Scoring.availability user1) as [a1 |],
      (Scoring.availability user2) as [a2 |]; try reflexivity.
    replace (Z.abs (a2 - a1)) with (Z.abs (a1 - a2)) by lia. reflexivity.
Qed.

Lemma pair_terms_symmetric_witness :
  Scoring.tagScore ScoringExamples.viewer ScoringExamples.candidate
  = Scoring.tagScore ScoringExamples.candidate ScoringExamples.viewer
  /\ Scoring.skillScore ScoringExamples.viewer ScoringExamples.candidate
     = Scoring.skillScore ScoringExamples.candidate ScoringExamples.viewer
  /\ Scoring.locationScore ScoringExamples.viewer ScoringExamples.candidate
     = Scoring.locationScore ScoringExamples.candidate ScoringExamples.viewer
  /\ Scoring.availabilityScore ScoringExamples.viewer ScoringExamples.candidate
     = Scoring.availabilityScore ScoringExamples.candidate
         ScoringExamples.viewer.
Proof.
  apply (pair_terms_symmetric ScoringExamples.viewer ScoringExamples.candidate);
    unfold FeedSpec.distinct_tags; simpl;
    repeat split; repeat constructor; simpl; intuition discriminate.
Defined.

(** X15. The listing routes only read: whatever the request, the
    recommendations route and the route that lists the messages of a match
    leave the store as it was. *)
Theorem listing_routes_read_only (auth : option string)
    (request : MessagesRoute.Request) (db : Store.t) :
  snd (Handler.run (RecommendationsRoute.GET auth) db) = db
  /\ snd (Handler.run (MessagesRoute.GET request) db) = db.
Proof.
  split.
  - destruct auth as [viewer |]; unfold Handler.run, RecommendationsRoute.GET;
      simpl; [| reflexivity].
    destruct (Store.user_findUnique db viewer); reflexivity.
  - destruct request as [[u |] m body];
      unfold Handler.run, MessagesRoute.GET; simpl; [| reflexivity].
    destruct (Store.match_findFirst db m u); reflexivity.
Qed.

(** ** The matches route and the invitations route *)

Section ListingFacts.
Import LedgerSpec LikeSpec Listing ListingSpec.

Lemma all_map {A B : Type} (f : A -> result B) (g : A -> B) (l : list A) :
  (forall x, In x l -> f x = Ok (g x)) -> all f l = Ok (map g l).
Proof.
  induction l as [| x l IH]; simpl; intros H; [reflexivity |].
  rewrite (H x (or_introl eq_refl)). simpl.
  rewrite IH by (intros y Hy; apply H; now right). reflexivity.
Qed.

Lemma include_user_public (db : Store.t) (uid relation : string) :
  Store.user_exists db uid = true ->
  include_user db uid relation = Ok (public db uid).
Proof.
  unfold include_user, public, Store.user_exists, Store.user_findUnique.
  rewrite existsb_find.
  now destruct (find (fun u => String.eqb (User.id u) uid) (Store.users db)).
Qed.

Lemma public_id (db : Store.t) (uid : string) :
  Listing.id (public db uid) = uid.
Proof.
  unfold public, Store.user_findUnique.
  destruct (find (fun u => String.eqb (User.id u) uid) (Store.users db))
    as [u |] eqn:E; [| reflexivity].
  apply find_some in E. destruct E as [_ E]. now apply String.eqb_eq in E.
Qed.

Lemma insert_desc_perm {A : Type} (createdAt : A -> nat) (x : A)
    (l : list A) :
  Permutation (insert_desc createdAt x l) (x :: l).
Proof.
  induction l as [| y l IH]; simpl; [reflexivity |].
  destruct (createdAt y <=? createdAt x)%nat; [reflexivity |].
  rewrite IH. apply perm_swap.
Qed.

Lemma sort_desc_perm {A : Type} (createdAt : A -> nat) (l : list A) :
  Permutation (sort_desc createdAt l) l.
Proof.
  unfold sort_desc. induction l as [| x l IH]; simpl; [reflexivity |].
  rewrite insert_desc_perm. now constructor.
Qed.

Lemma insert_desc_sorted {A : Type} (createdAt : A -> nat) (x : A)
    (l : list A) :
  Sorted (later createdAt) l ->
  Sorted (later createdAt) (insert_desc createdAt x l).
Proof.
  induction l as [| y l IH]; simpl; intros Hs.
  - repeat constructor.
  - destruct (Nat.leb_spec (createdAt y) (createdAt x)).
    + constructor; [exact Hs | constructor; exact H].
    + inversion Hs as [| ? ? Hs' Hhd]; subst.
      constructor; [now apply IH |].
      destruct l as [| z l]; simpl.
      * constructor. unfold later. lia.
      * destruct (createdAt z <=? createdAt x)%nat.
        -- constructor. unfold later. lia.
        -- inversion Hhd; subst. now constructor.
Qed.

Lemma sort_desc_sorted {A : Type} (createdAt : A -> nat) (l : list A) :
  StronglySorted (later createdAt) (sort_desc createdAt l).
Proof.
  apply Sorted_StronglySorted.
  - intros a b c. unfold later. lia.
  - unfold sort_desc. induction l as [| x l IH]; simpl; [constructor |].
    now apply insert_desc_sorted.
Qed.

Lemma StronglySorted_map {A B : Type} (f : A -> B) (R : B -> B -> Prop)
    (l : list A) :
  StronglySorted (fun a b => R (f a) (f b)) l -> StronglySorted R (map f l).
Proof.
  induction 1 as [| x l Hs IH Hx]; simpl; constructor; [exact IH |].
  apply Forall_map. exact Hx.
Qed.

Lemma StronglySorted_filter {A : Type} (R : A -> A -> Prop) (p : A -> bool)
    (l : list A) :
  StronglySorted R l -> StronglySorted R (filter p l).
Proof.
  induction 1 as [| x l Hs IH Hx]; simpl; [constructor |].
  destruct (p x); [| exact IH]. constructor; [exact IH |].
  apply Forall_forall. intros y Hy. apply filter_In in Hy.
  rewrite Forall_forall in Hx. now apply Hx.
Qed.

(** The response of the matches route on a store whose match rows refer to
    stored users. *)
Lemma GET_matches_run (db : Store.t) (user : string) :
  matches_fk db ->
  GET_matches (Some user) db
  = json (MatchesBody
            (map (entry_of db user)
               (sort_desc Match.createdAt
                  (filter (active_of user) (Store.matches db))))).
Proof.
  intros Hfk. unfold GET_matches, match_findMany_active.
  fold (active_of user).
  rewrite (all_map _ (fun m => {| row := m;
                                  userA := public db (Match.userAId m);
                                  userB := public db (Match.userBId m) |})).
  - simpl. rewrite (all_map _ (fun m => entry_of db user (row m))).
    + simpl. now rewrite map_map.
    + intros m Hm. apply in_map_iff in Hm. destruct Hm as [m0 [<- _]].
      unfold entry_of, other. simpl.
      destruct (String.eqb (Match.userAId m0) user);
        now rewrite public_id.
  - intros m Hm.
    apply (Permutation_in _ (sort_desc_perm _ _)), filter_In in Hm.
    destruct Hm as [Hm _]. destruct (Hfk m Hm) as [Ha Hb].
    now rewrite (include_user_public _ _ _ Ha), (include_user_public _ _ _ Hb).
Qed.

Lemma active_of_gate (user : string) (m : Match.t) :
  active_of user m = Store.gate (Match.id m) user m.
Proof.
  unfold active_of, Store.gate, involves. now rewrite Nat.eqb_refl.
Qed.

Lemma find_app_none {A : Type} (f : A -> bool) (l l' : list A) :
  existsb f l = false -> find f (l ++ l') = find f l'.
Proof.
  induction l as [| x l IH]; simpl; [reflexivity |].
  destruct (f x); [discriminate | exact IH].
Qed.

Lemma shown_message (l : Like.t) :
  message_or_null (Some l) = shown (Like.message l).
Proof. reflexivity. Qed.

Lemma map_filter_map {A B : Type} (f : A -> B) (g : B -> A) (p : B -> bool)
    (l : list A) :
  (forall x, g (f x) = x) ->
  map g (filter p (map f l)) = filter (fun x => p (f x)) l.
Proof.
  intros Hgf. induction l as [| x l IH]; simpl; [reflexivity |].
  destruct (p (f x)); simpl; now rewrite ?Hgf, IH.
Qed.

Lemma filter_perm {A : Type} (p : A -> bool) (l l' : list A) :
  Permutation l l' -> Permutation (filter p l) (filter p l').
Proof.
  induction 1 as [| x l l' H IH | x y l | l l' l'' H1 IH1 H2 IH2]; simpl.
  - constructor.
  - destruct (p x); [now constructor | exact IH].
  - destruct (p x), (p y); try reflexivity. apply perm_swap.
  - now transitivity (filter p l').
Qed.

Lemma filter_and {A : Type} (p q : A -> bool) (l : list A) :
  filter q (filter p l) = filter (fun x => p x && q x) l.
Proof.
  induction l as [| x l IH]; simpl; [reflexivity |].
  destruct (p x); simpl; [destruct (q x) |]; now rewrite IH.
Qed.

(** The ids the invitations route takes as matched are the users with a
    match row of the pair. *)
Lemma matched_ids (db : Store.t) (user x : string) :
  JS.includes
    (map (fun m => if String.eqb (Match.userAId m) user
                   then Match.userBId m else Match.userAId m)
       (match_findMany db user)) x
  = existsb (pair_is x user) (Store.matches db).
Proof.
  unfold JS.includes, match_findMany, involves, pair_is, Store.match_is.
  induction (Store.matches db) as [| m ms IH]; simpl; [reflexivity |].
  rewrite <- IH. clear IH.
  destruct (String.eqb (Match.userAId m) user) eqn:Ea;
    destruct (String.eqb (Match.userBId m) user) eqn:Eb;
    simpl; rewrite ?Ea; simpl;
    first [apply String.eqb_eq in Ea | apply String.eqb_neq in Ea];
    first [apply String.eqb_eq in Eb | apply String.eqb_neq in Eb];
    repeat match goal with
      | |- context [String.eqb ?u ?v] =>
          destruct (String.eqb_spec u v); simpl
      end;
    rewrite ?andb_false_r, ?orb_true_r; simpl;
    try reflexivity; congruence.
Qed.

(** The response of the invitations route on a store whose likes refer to
    stored users. *)
Lemma GET_invitations_run (db : Store.t) (user : string) :
  likes_fk db ->
  map like (invitations (GET_invitations (Some user) db))
  = filter (fun l => negb (existsb (pair_is (Like.fromId l) user)
                             (Store.matches db)))
      (sort_desc Like.createdAt
         (filter (fun l => String.eqb (Like.toId l) user) (Store.likes db)))
  /\ status (GET_invitations (Some user) db) = 200%nat
  /\ forall i, In i (invitations (GET_invitations (Some user) db)) ->
               Listing.id (from i) = Like.fromId (like i).
Proof.
  intros Hfk. unfold GET_invitations, like_findMany_to.
  rewrite (all_map _ (fun l => {| like := l;
                                  from := public db (Like.fromId l) |})).
  - simpl. unfold invitations. simpl. split; [| split; [reflexivity |]].
    + rewrite (map_filter_map _ like) by reflexivity.
      apply filter_ext. intros l. simpl. now rewrite matched_ids.
    + intros i Hi. apply filter_In in Hi. destruct Hi as [Hi _].
      apply in_map_iff in Hi. destruct Hi as [l [<- _]]. simpl.
      apply public_id.
  - intros l Hl.
    apply (Permutation_in _ (sort_desc_perm _ _)), filter_In in Hl.
    destruct Hl as [Hl _]. destruct (Hfk l Hl) as [Hf _].
    now rewrite (include_user_public _ _ _ Hf).
Qed.

Lemma after_mutual_fk (db : Store.t) (a b : string)
    (messageA messageB : option string) :
  Store.user_exists db a = true ->
  Store.user_exists db b = true ->
  (likes_fk db -> likes_fk (after_mutual db a b messageA messageB))
  /\ (matches_fk db -> matches_fk (after_mutual db a b messageA messageB)).
Proof.
  intros Ha Hb. split; intros H.
  - intros l Hl. simpl in Hl. rewrite <- app_assoc in Hl.
    apply in_app_iff in Hl.
    destruct Hl as [Hl | [<- | [<- | []]]];
      [now apply H | now split | now split].
  - intros m Hm. simpl in Hm. apply in_app_iff in Hm.
    destruct Hm as [Hm | [<- | []]]; [now apply H | now split].
Qed.

End ListingFacts.

(** X16. The matches route lists what the conversation gate opens: on a
    store whose match rows refer to stored users, the route answers 200
    with one entry per active match row of the caller, latest first, and a
    match id is listed exactly when the caller can access that match. *)
Theorem matches_listed_iff_gate (db : Store.t) (user : string) :
  LikeSpec.matches_fk db ->
  let r := Listing.GET_matches (Some user) db in
  Listing.status r = 200%nat
  /\ (forall m, LedgerSpec.canAccess db user m
                <-> In m (map Listing.entry_id (Listing.entries r)))
  /\ StronglySorted (ListingSpec.later Listing.matchedAt) (Listing.entries r)
  /\ List.length (Listing.entries r)
     = List.length
         (filter (ListingSpec.active_of user) (Store.matches db)).
Proof.
  intros Hfk. cbv zeta. rewrite (GET_matches_run db user Hfk).
  unfold Listing.entries, Listing.json.
  cbn [Listing.payload Listing.status].
  split; [reflexivity |]. split; [| split].
  - intros m. rewrite map_map. simpl. split.
    + intros [row [Hin [Hid [Hu Hact]]]]. apply in_map_iff.
      exists row. split; [exact Hid |].
      apply (Permutation_in _ (Permutation_sym (sort_desc_perm _ _))).
      apply filter_In. split; [exact Hin |].
      rewrite active_of_gate. apply gate_spec. subst m. tauto.
    + intros Hin. apply in_map_iff in Hin. destruct Hin as [row [Hid Hin]].
      apply (Permutation_in _ (sort_desc_perm _ _)), filter_In in Hin.
      destruct Hin as [Hin Hact]. rewrite active_of_gate in Hact.
      apply gate_spec in Hact. exists row. subst m. tauto.
  - apply (StronglySorted_map (ListingSpec.entry_of db user)
             (ListingSpec.later Listing.matchedAt)).
    apply (sort_desc_sorted Match.createdAt).
  - rewrite length_map. apply Permutation_length, sort_desc_perm.
Qed.

Lemma matches_listed_iff_gate_witness :
  let r := Listing.GET_matches (Some "a") LedgerSpec.matched in
  Listing.status r = 200%nat
  /\ (forall m, LedgerSpec.canAccess LedgerSpec.matched "a" m
                <-> In m (map Listing.entry_id (Listing.entries r)))
  /\ StronglySorted (ListingSpec.later Listing.matchedAt) (Listing.entries r)
  /\ List.length (Listing.entries r)
     = List.length
         (filter (ListingSpec.active_of "a")
            (Store.matches LedgerSpec.matched)).
Proof.
  apply (matches_listed_iff_gate LedgerSpec.matched "a").
  intros m [<- | []]. split; reflexivity.
Defined.

(** X17. Likes, then matches: when [a] likes [b] and [b] likes [a] back,
    on a store where neither like and no match row of the pair was there,
    one match is open to both, the matches route shows it to each of them
    with the other as its user, and with the message of the other's like
    (none when that message is absent or empty). *)
Theorem mutual_like_is_listed (db : Store.t) (a b : string)
    (messageA messageB : option string) :
  a <> b ->
  Store.user_exists db a = true ->
  Store.user_exists db b = true ->
  LedgerSpec.stored_likes db a b = 0%nat ->
  LedgerSpec.stored_likes db b a = 0%nat ->
  LedgerSpec.match_rows db a b = 0%nat ->
  LikeSpec.matches_fk db ->
  let db' :=
    LikeSpec.serve [LikeSpec.like a b messageA; LikeSpec.like b a messageB] db in
  exists m,
    LedgerSpec.canAccess db' a m /\ LedgerSpec.canAccess db' b m
    /\ (exists e, In e (Listing.entries (Listing.GET_matches (Some a) db'))
                  /\ Listing.entry_id e = m
                  /\ Listing.id (Listing.user e) = b
                  /\ Listing.originalMessage e = ListingSpec.shown messageB)
    /\ (exists e, In e (Listing.entries (Listing.GET_matches (Some b) db'))
                  /\ Listing.entry_id e = m
                  /\ Listing.id (Listing.user e) = a
                  /\ Listing.originalMessage e = ListingSpec.shown messageA).
Proof.
  intros Hab Ha Hb Lab Lba M Hfk. cbv zeta.
  destruct (serve_mutual db a b messageA messageB Hab Ha Hb Lab Lba M)
    as [_ ->].
  destruct (after_mutual_fk db a b messageA messageB Ha Hb) as [_ Hfk'].
  specialize (Hfk' Hfk).
  assert (Eab : String.eqb a b = false) by now apply String.eqb_neq.
  assert (Eba : String.eqb b a = false)
    by (apply String.eqb_neq; congruence).
  apply count_none in Lab, Lba.
  set (db' := LikeSpec.after_mutual db a b messageA messageB) in *.
  set (m := Store.new_match
              (Store.insert_like
                 (Store.insert_like db (Store.new_like db a b messageA))
                 (Store.new_like
                    (Store.insert_like db (Store.new_like db a b messageA))
                    b a messageB)) b a).
  assert (Hm : In m (Store.matches db'))
    by (simpl; apply in_app_iff; right; now left).
  assert (Hlisted : forall u, ListingSpec.active_of u m = true ->
            In (ListingSpec.entry_of db' u m)
               (Listing.entries (Listing.GET_matches (Some u) db'))).
  { intros u Hu. rewrite (GET_matches_run db' u Hfk').
    unfold Listing.entries, Listing.json. cbn [Listing.payload].
    apply in_map.
    apply (Permutation_in _ (Permutation_sym (sort_desc_perm _ _))).
    apply filter_In. now split. }
  assert (Hfind : forall x y,
            existsb (Store.like_is x y) (Store.likes db) = false ->
            Store.like_findUnique db' x y
            = find (Store.like_is x y)
                [Store.new_like db a b messageA;
                 Store.new_like
                   (Store.insert_like db (Store.new_like db a b messageA))
                   b a messageB]).
  { intros x y H. unfold Store.like_findUnique. simpl Store.likes.
    rewrite <- app_assoc. now apply find_app_none. }
  exists (Match.id m). repeat split.
  - exists m. simpl. auto.
  - exists m. simpl. auto.
  - exists (ListingSpec.entry_of db' a m). split; [| split; [| split]].
    + apply Hlisted. unfold ListingSpec.active_of, Listing.involves. simpl.
      rewrite String.eqb_refl. now rewrite orb_true_r.
    + reflexivity.
    + unfold ListingSpec.entry_of, ListingSpec.other. simpl.
      rewrite Eba. apply public_id.
    + unfold ListingSpec.entry_of, ListingSpec.other. simpl Listing.originalMessage.
      simpl Match.userAId. rewrite Eba. simpl Match.userAId.
      rewrite (Hfind b a Lba). simpl.
      unfold Store.like_is. simpl. rewrite Eab, !String.eqb_refl. simpl.
      reflexivity.
  - exists (ListingSpec.entry_of db' b m). split; [| split; [| split]].
    + apply Hlisted. unfold ListingSpec.active_of, Listing.involves. simpl.
      now rewrite String.eqb_refl.
    + reflexivity.
    + unfold ListingSpec.entry_of, ListingSpec.other. simpl.
      rewrite String.eqb_refl. apply public_id.
    + unfold ListingSpec.entry_of, ListingSpec.other. simpl Listing.originalMessage.
      simpl Match.userAId. rewrite String.eqb_refl. simpl Match.userBId.
      rewrite (Hfind a b Lab). simpl.
      unfold Store.like_is. simpl. rewrite !String.eqb_refl. simpl.
      reflexivity.
Qed.

Lemma mutual_like_is_listed_witness :
  let db' :=
    LikeSpec.serve
      [LikeSpec.like "a" "b" (Some "hello"); LikeSpec.like "b" "a" None]
      LedgerSpec.fresh in
  exists m,
    LedgerSpec.canAccess db' "a" m /\ LedgerSpec.canAccess db' "b" m
    /\ (exists e, In e (Listing.entries (Listing.GET_matches (Some "a") db'))
                  /\ Listing.entry_id e = m
                  /\ Listing.id (Listing.user e) = "b"
                  /\ Listing.originalMessage e = ListingSpec.shown None)
    /\ (exists e, In e (Listing.entries (Listing.GET_matches (Some "b") db'))
                  /\ Listing.entry_id e = m
                  /\ Listing.id (Listing.user e) = "a"
                  /\ Listing.originalMessage e
                     = ListingSpec.shown (Some "hello")).
Proof.
  apply (mutual_like_is_listed LedgerSpec.fresh "a" "b" (Some "hello") None);
    try reflexivity; try discriminate.
  intros m [].
Defined.

(** X18. Invitations are the pending likes: on a store whose likes refer to
    stored users, the invitations route answers 200 with the likes the
    caller received from users with whom no match row is stored, in either
    order and active or not; all of them and no other, latest first, each
    with the sender as its user. *)
Theorem invitations_are_pending_likes (db : Store.t) (user : string) :
  LikeSpec.likes_fk db ->
  let r := Listing.GET_invitations (Some user) db in
  Listing.status r = 200%nat
  /\ Permutation (map Listing.like (Listing.invitations r))
       (filter (ListingSpec.pending db user) (Store.likes db))
  /\ StronglySorted (ListingSpec.later Like.createdAt)
       (map Listing.like (Listing.invitations r))
  /\ forall i, In i (Listing.invitations r) ->
               Listing.id (Listing.from i) = Like.fromId (Listing.like i).
Proof.
  intros Hfk. cbv zeta.
  destruct (GET_invitations_run db user Hfk) as [Hmap [Hst Hfrom]].
  split; [exact Hst |]. rewrite Hmap. split; [| split; [| exact Hfrom]].
  - rewrite (filter_perm _ _ _ (sort_desc_perm _ _)), filter_and.
    reflexivity.
  - apply StronglySorted_filter, sort_desc_sorted.
Qed.

Lemma invitations_are_pending_likes_witness :
  let r := Listing.GET_invitations (Some "a") LedgerSpec.half_matched in
  Listing.status r = 200%nat
  /\ Permutation (map Listing.like (Listing.invitations r))
       (filter (ListingSpec.pending LedgerSpec.half_matched "a")
          (Store.likes LedgerSpec.half_matched))
  /\ StronglySorted (ListingSpec.later Like.createdAt)
       (map Listing.like (Listing.invitations r))
  /\ forall i, In i (Listing.invitations r) ->
               Listing.id (Listing.from i) = Like.fromId (Listing.like i).
Proof.
  apply (invitations_are_pending_likes LedgerSpec.half_matched "a").
  intros l [<- | []]. split; reflexivity.
Defined.

(** X19. The life of an invitation: on a store whose likes refer to stored
    users and where neither like and no match row of the pair was there,
    the like of [b] by [a] is among the invitations of [b]; once [b] has
    liked [a] back, no invitation of [b] comes from [a] and none of [a]
    comes from [b]. *)
Theorem invitation_lifecycle (db : Store.t) (a b : string)
    (messageA messageB : option string) :
  a <> b ->
  Store.user_exists db a = true ->
  Store.user_exists db b = true ->
  LedgerSpec.stored_likes db a b = 0%nat ->
  LedgerSpec.stored_likes db b a = 0%nat ->
  LedgerSpec.match_rows db a b = 0%nat ->
  LikeSpec.likes_fk db ->
  let db1 := LikeSpec.serve [LikeSpec.like a b messageA] db in
  let db2 :=
    LikeSpec.serve [LikeSpec.like a b messageA; LikeSpec.like b a messageB] db in
  In (Store.new_like db a b messageA)
     (map Listing.like
        (Listing.invitations (Listing.GET_invitations (Some b) db1)))
  /\ (forall l,
        In l (map Listing.like
                (Listing.invitations (Listing.GET_invitations (Some b) db2))) ->
        Like.fromId l <> a)
  /\ (forall l,
        In l (map Listing.like
                (Listing.invitations (Listing.GET_invitations (Some a) db2))) ->
        Like.fromId l <> b).
Proof.
  intros Hab Ha Hb Lab Lba M Hfk. cbv zeta.
  destruct (serve_mutual db a b messageA messageB Hab Ha Hb Lab Lba M)
    as [-> ->].
  destruct (after_mutual_fk db a b messageA messageB Ha Hb) as [Hfk2 _].
  specialize (Hfk2 Hfk).
  assert (Hfk1 : LikeSpec.likes_fk
                   (Store.insert_like db (Store.new_like db a b messageA))).
  { intros l Hl. simpl in Hl. apply in_app_iff in Hl.
    destruct Hl as [Hl | [<- | []]]; [now apply Hfk | now split]. }
  destruct (no_match_rows db a b M) as [Mab [Mba _]].
  assert (Mpair : existsb (LedgerSpec.pair_is a b) (Store.matches db) = false)
    by (now apply count_none).
  split; [| split].
  - destruct (GET_invitations_run _ b Hfk1) as [-> _].
    apply filter_In. split.
    + apply (Permutation_in _ (Permutation_sym (sort_desc_perm _ _))).
      apply filter_In. split; [| simpl; apply String.eqb_refl].
      simpl. apply in_app_iff. right. now left.
    + simpl. rewrite Mpair. reflexivity.
  - destruct (GET_invitations_run _ b Hfk2) as [-> _].
    intros l Hl Hfrom. apply filter_In in Hl. destruct Hl as [_ Hl].
    rewrite Hfrom in Hl. simpl in Hl.
    rewrite existsb_snoc in Hl. unfold LedgerSpec.pair_is in Hl at 2.
    rewrite !match_is_new, !String.eqb_refl in Hl. simpl in Hl.
    rewrite !orb_true_r in Hl. discriminate.
  - destruct (GET_invitations_run _ a Hfk2) as [-> _].
    intros l Hl Hfrom. apply filter_In in Hl. destruct Hl as [_ Hl].
    rewrite Hfrom in Hl. simpl in Hl.
    rewrite existsb_snoc in Hl. unfold LedgerSpec.pair_is in Hl at 2.
    rewrite !match_is_new, !String.eqb_refl in Hl. simpl in Hl.
    rewrite !orb_true_r in Hl. discriminate.
Qed.

Lemma invitation_lifecycle_witness :
  let db := LedgerSpec.fresh in
  let db1 := LikeSpec.serve [LikeSpec.like "a" "b" None] db in
  let db2 :=
    LikeSpec.serve [LikeSpec.like "a" "b" None; LikeSpec.like "b" "a" None] db in
  In (Store.new_like db "a" "b" None)
     (map Listing.like
        (Listing.invitations (Listing.GET_invitations (Some "b") db1)))
  /\ (forall l,
        In l (map Listing.like
                (Listing.invitations (Listing.GET_invitations (Some "b") db2))) ->
        Like.fromId l <> "a")
  /\ (forall l,
        In l (map Listing.like
                (Listing.invitations (Listing.GET_invitations (Some "a") db2))) ->
        Like.fromId l <> "b").
Proof.
  apply (invitation_lifecycle LedgerSpec.fresh "a" "b" None None);
    try reflexivity; try discriminate.
  intros l [].
Defined.

(** ** The account deletion route *)

Section AccountFacts.
Import Db AccountRoute AccountSpec.

Lemma kept_twice {A : Type} (p : A -> bool) (l : list A) :
  kept p (kept p l) = kept p l.
Proof.
  unfold kept. induction l as [| x l IH]; simpl; [reflexivity |].
  destruct (p x) eqn:E; simpl; [exact IH |]. now rewrite E, IH.
Qed.

Lemma kept_comm {A : Type} (p q : A -> bool) (l : list A) :
  kept p (kept q l) = kept q (kept p l).
Proof.
  unfold kept. induction l as [| x l IH]; simpl; [reflexivity |].
  destruct (p x) eqn:Ep, (q x) eqn:Eq; simpl; rewrite ?Ep, ?Eq; simpl;
    now rewrite IH.
Qed.

Lemma filter_kept {A : Type} (p : A -> bool) (l : list A) :
  filter p (kept p l) = [].
Proof.
  unfold kept. induction l as [| x l IH]; simpl; [reflexivity |].
  destruct (p x) eqn:E; simpl; [exact IH |]. now rewrite E.
Qed.

Lemma kept_none {A : Type} (p : A -> bool) (l : list A) :
  (forall x, In x l -> p x = false) -> kept p l = l.
Proof.
  unfold kept. induction l as [| x l IH]; intros H; simpl; [reflexivity |].
  rewrite (H x (or_introl eq_refl)). simpl. f_equal.
  apply IH. intros y Hy. apply H. now right.
Qed.

Lemma In_kept {A : Type} (p : A -> bool) (l : list A) (x : A) :
  In x (kept p l) <-> In x l /\ p x = false.
Proof.
  unfold kept. rewrite filter_In. now rewrite negb_true_iff.
Qed.

Lemma update_profile_exists
    (f : Scoring.UserWithRelations -> Scoring.UserWithRelations)
    (uid : string) (s : Store.t) (x : string) :
  Store.user_exists (update_profile f uid s) x = Store.user_exists s x.
Proof.
  unfold Store.user_exists, update_profile. simpl.
  induction (Store.users s) as [| u l IH]; simpl; [reflexivity |].
  rewrite IH. now destruct (String.eqb (User.id u) uid).
Qed.

(** Emptying relations of the rows of a user, then deleting the rows, is
    deleting them. *)
Lemma update_profile_kept
    (f : Scoring.UserWithRelations -> Scoring.UserWithRelations)
    (uid : string) (s : Store.t) :
  kept (fun u => String.eqb (User.id u) uid)
       (Store.users (update_profile f uid s))
  = kept (fun u => String.eqb (User.id u) uid) (Store.users s).
Proof.
  unfold kept, update_profile. simpl.
  induction (Store.users s) as [| u l IH]; simpl; [reflexivity |].
  destruct (String.eqb (User.id u) uid) eqn:E; simpl; rewrite E; simpl;
    now rewrite IH.
Qed.

Lemma user_exists_find (s : Store.t) (uid : string) :
  Store.user_exists s uid = true ->
  exists u, Store.user_findUnique s uid = Some u.
Proof.
  unfold Store.user_exists, Store.user_findUnique. rewrite existsb_find.
  destruct (find _ _) as [u |]; [now exists u | discriminate].
Qed.

Lemma bind_ok {A B : Type} (m : M A) (k : A -> M B) (db db' : t) (a : A) :
  m db = (db', Ok a) -> bind m k db = k a db'.
Proof. intros E. unfold bind. now rewrite E. Qed.

(** When two databases agree on what the deletion of the user row leaves,
    the deletion gives the same database. *)
Lemma cascade_ext (uid : string) (db1 db2 : t) :
  kept (fun u => String.eqb (User.id u) uid) (Store.users (core db1))
  = kept (fun u => String.eqb (User.id u) uid) (Store.users (core db2)) ->
  kept (like_involves uid) (Store.likes (core db1))
  = kept (like_involves uid) (Store.likes (core db2)) ->
  Store.messages (core (cascade uid db1))
  = Store.messages (core (cascade uid db2)) ->
  kept (Listing.involves uid) (Store.matches (core db1))
  = kept (Listing.involves uid) (Store.matches (core db2)) ->
  Store.realtime (core db1) = Store.realtime (core db2) ->
  Store.nextId (core db1) = Store.nextId (core db2) ->
  Store.clock (core db1) = Store.clock (core db2) ->
  kept (fun r => String.eqb (Report.reporterId r) uid) (reports db1)
  = kept (fun r => String.eqb (Report.reporterId r) uid) (reports db2) ->
  kept (fun st => String.eqb (Startup.ownerId st) uid) (startups db1)
  = kept (fun st => String.eqb (Startup.ownerId st) uid) (startups db2) ->
  accounts db1 = accounts db2 ->
  cascade uid db1 = cascade uid db2.
Proof.
  unfold cascade, delete_matches, set_messages, set_matches, set_likes,
    set_users. simpl.
  intros Hu Hl Hmsg Hm Hr Hn Hc Hrep Hst Hacc.
  now rewrite Hu, Hl, Hmsg, Hm, Hr, Hn, Hc, Hrep, Hst, Hacc.
Qed.

Lemma cascade_messages (uid : string) (db : t) :
  Store.messages (core (cascade uid db))
  = kept (fun msg => String.eqb (Message.senderId msg) uid)
      (kept (fun msg =>
               existsb (fun m => Nat.eqb (Match.id m) (Message.matchId msg))
                       (filter (Listing.involves uid)
                               (Store.matches (core db))))
         (Store.messages (core db))).
Proof. reflexivity. Qed.

Lemma kept_no_match (msgs : list Message.t) :
  kept (fun msg : Message.t =>
          existsb (fun m => Nat.eqb (Match.id m) (Message.matchId msg)) [])
       msgs = msgs.
Proof. apply kept_none. reflexivity. Qed.

(** Each of the eight [deleteMany] calls of the route succeeds, keeps the
    row of the user, and deletes only what the deletion of the user row
    would take with it. *)
Lemma message_deleteMany_absorbed (uid : string) (db : t) :
  exists n db',
    message_deleteMany uid db = (db', Ok n)
    /\ cascade uid db' = cascade uid db
    /\ Store.user_exists (core db') uid = Store.user_exists (core db) uid.
Proof.
  eexists. eexists. split; [reflexivity |]. split; [| reflexivity].
  apply cascade_ext; try reflexivity.
  rewrite !cascade_messages. simpl.
  rewrite (kept_comm _ (fun msg => String.eqb (Message.senderId msg) uid)).
  now rewrite kept_twice.
Qed.

Lemma match_deleteMany_absorbed (uid : string) (db : t) :
  exists n db',
    match_deleteMany uid db = (db', Ok n)
    /\ cascade uid db' = cascade uid db
    /\ Store.user_exists (core db') uid = Store.user_exists (core db) uid.
Proof.
  eexists. eexists. split; [reflexivity |]. split; [| reflexivity].
  apply cascade_ext; try reflexivity.
  - rewrite !cascade_messages. simpl.
    now rewrite filter_kept, kept_no_match.
  - simpl. apply kept_twice.
Qed.

Lemma like_deleteMany_absorbed (uid : string) (db : t) :
  exists n db',
    like_deleteMany uid db = (db', Ok n)
    /\ cascade uid db' = cascade uid db
    /\ Store.user_exists (core db') uid = Store.user_exists (core db) uid.
Proof.
  eexists. eexists. split; [reflexivity |]. split; [| reflexivity].
  apply cascade_ext; try reflexivity. simpl. apply kept_twice.
Qed.

Lemma report_deleteMany_absorbed (uid : string) (db : t) :
  exists n db',
    report_deleteMany uid db = (db', Ok n)
    /\ cascade uid db' = cascade uid db
    /\ Store.user_exists (core db') uid = Store.user_exists (core db) uid.
Proof.
  eexists. eexists. split; [reflexivity |]. split; [| reflexivity].
  apply cascade_ext; try reflexivity. simpl. apply kept_twice.
Qed.

Lemma startup_deleteMany_absorbed (uid : string) (db : t) :
  exists n db',
    startup_deleteMany uid db = (db', Ok n)
    /\ cascade uid db' = cascade uid db
    /\ Store.user_exists (core db') uid = Store.user_exists (core db) uid.
Proof.
  eexists. eexists. split; [reflexivity |]. split; [| reflexivity].
  apply cascade_ext; try reflexivity. simpl. apply kept_twice.
Qed.

Lemma update_profile_absorbed
    (f : Scoring.UserWithRelations -> Scoring.UserWithRelations)
    (uid : string) (db : t) :
  cascade uid (set_core db (update_profile f uid (core db))) = cascade uid db
  /\ Store.user_exists (update_profile f uid (core db)) uid
     = Store.user_exists (core db) uid.
Proof.
  split; [| apply update_profile_exists].
  apply cascade_ext; try reflexivity. apply update_profile_kept.
Qed.

Lemma skillOnUser_deleteMany_absorbed (uid : string) (db : t) :
  exists n db',
    skillOnUser_deleteMany uid db = (db', Ok n)
    /\ cascade uid db' = cascade uid db
    /\ Store.user_exists (core db') uid = Store.user_exists (core db) uid.
Proof.
  eexists. eexists. split; [reflexivity |]. apply update_profile_absorbed.
Qed.

Lemma offer_deleteMany_absorbed (uid : string) (db : t) :
  exists n db',
    offer_deleteMany uid db = (db', Ok n)
    /\ cascade uid db' = cascade uid db
    /\ Store.user_exists (core db') uid = Store.user_exists (core db) uid.
Proof.
  eexists. eexists. split; [reflexivity |]. apply update_profile_absorbed.
Qed.

Lemma lookingFor_deleteMany_absorbed (uid : string) (db : t) :
  exists n db',
    lookingFor_deleteMany uid db = (db', Ok n)
    /\ cascade uid db' = cascade uid db
    /\ Store.user_exists (core db') uid = Store.user_exists (core db) uid.
Proof.
  eexists. eexists. split; [reflexivity |]. apply update_profile_absorbed.
Qed.

(** The database before the deletion of the user row: what is gone from it
    would go with the row, and the row is as it was found or not. *)
Lemma DELETE_steps (uid : string) (refused : bool) (db : t) :
  exists db8,
    cascade uid db8 = cascade uid db
    /\ Store.user_exists (core db8) uid = Store.user_exists (core db) uid
    /\ DELETE (Some uid) refused db
       = try_catch
           (bind (user_delete uid)
              (fun _ =>
                 bind (auth_admin_deleteUser refused uid)
                   (fun _ =>
                      ret (json (DeletedBody "Account deleted successfully"
                                   true)))))
           (fun error =>
              json_status (FailedBody "Failed to delete account" error) 500)
           db8.
Proof.
  destruct (message_deleteMany_absorbed uid db) as [n1 [db1 [E1 [C1 U1]]]].
  destruct (match_deleteMany_absorbed uid db1) as [n2 [db2 [E2 [C2 U2]]]].
  destruct (like_deleteMany_absorbed uid db2) as [n3 [db3 [E3 [C3 U3]]]].
  destruct (report_deleteMany_absorbed uid db3) as [n4 [db4 [E4 [C4 U4]]]].
  destruct (startup_deleteMany_absorbed uid db4) as [n5 [db5 [E5 [C5 U5]]]].
  destruct (skillOnUser_deleteMany_absorbed uid db5)
    as [n6 [db6 [E6 [C6 U6]]]].
  destruct (offer_deleteMany_absorbed uid db6) as [n7 [db7 [E7 [C7 U7]]]].
  destruct (lookingFor_deleteMany_absorbed uid db7)
    as [n8 [db8 [E8 [C8 U8]]]].
  exists db8. split; [congruence |]. split; [congruence |].
  unfold DELETE, try_catch.
  rewrite (bind_ok _ _ _ _ _ E1), (bind_ok _ _ _ _ _ E2),
    (bind_ok _ _ _ _ _ E3), (bind_ok _ _ _ _ _ E4), (bind_ok _ _ _ _ _ E5),
    (bind_ok _ _ _ _ _ E6), (bind_ok _ _ _ _ _ E7), (bind_ok _ _ _ _ _ E8).
  reflexivity.
Qed.

(** The response and the database the route leaves for a user who has a
    row: those of the deletion of the user row alone. *)
Lemma DELETE_run (db : t) (uid : string) (refused : bool) :
  Store.user_exists (core db) uid = true ->
  DELETE (Some uid) refused db
  = (json (DeletedBody "Account deleted successfully" true),
     fst (auth_admin_deleteUser refused uid (cascade uid db))).
Proof.
  intros Hu.
  destruct (DELETE_steps uid refused db) as [db8 [C [U ->]]].
  rewrite Hu in U. destruct (user_exists_find _ _ U) as [u Hfind].
  unfold try_catch, bind, user_delete. rewrite Hfind, C.
  unfold auth_admin_deleteUser. now destruct refused.
Qed.

Lemma user_exists_kept (s : Store.t) (uid x : string) :
  x <> uid ->
  existsb (fun u => String.eqb (User.id u) x)
    (kept (fun u => String.eqb (User.id u) uid) (Store.users s))
  = Store.user_exists s x.
Proof.
  intros Hx. unfold Store.user_exists, kept.
  induction (Store.users s) as [| u l IH]; simpl; [reflexivity |].
  destruct (String.eqb_spec (User.id u) uid) as [E | E]; simpl.
  - rewrite IH. destruct (String.eqb_spec (User.id u) x); [congruence |].
    reflexivity.
  - now rewrite IH.
Qed.

Lemma user_missing_kept (s : Store.t) (uid : string) :
  existsb (fun u => String.eqb (User.id u) uid)
    (kept (fun u => String.eqb (User.id u) uid) (Store.users s)) = false.
Proof.
  unfold kept. induction (Store.users s) as [| u l IH]; simpl; [reflexivity |].
  destruct (String.eqb (User.id u) uid) eqn:E; simpl; [exact IH |].
  now rewrite E.
Qed.

Lemma NoDup_map_kept {A B : Type} (key : A -> B) (p : A -> bool)
    (l : list A) :
  NoDup (map key l) -> NoDup (map key (kept p l)).
Proof.
  unfold kept. induction l as [| x l IH]; simpl; intros H; [constructor |].
  inversion H as [| ? ? Hx Hl]; subst.
  destruct (p x); simpl; [now apply IH |].
  constructor; [| now apply IH].
  intros Hin. apply Hx. apply in_map_iff in Hin.
  destruct Hin as [y [Hy Hin]]. apply filter_In in Hin.
  apply in_map_iff. exists y. tauto.
Qed.

Lemma involves_false (uid : string) (m : Match.t) :
  Listing.involves uid m = false
  <-> Match.userAId m <> uid /\ Match.userBId m <> uid.
Proof.
  unfold Listing.involves. rewrite orb_false_iff.
  now rewrite !String.eqb_neq.
Qed.

Lemma like_involves_false (uid : string) (l : Like.t) :
  like_involves uid l = false
  <-> Like.fromId l <> uid /\ Like.toId l <> uid.
Proof.
  unfold like_involves. rewrite orb_false_iff.
  now rewrite !String.eqb_neq.
Qed.

(** The rows the deletion of a user row leaves. *)
Lemma cascade_rows (uid : string) (db : t) :
  (forall u, In u (Store.users (core (cascade uid db)))
             <-> In u (Store.users (core db)) /\ User.id u <> uid)
  /\ (forall l, In l (Store.likes (core (cascade uid db)))
                <-> In l (Store.likes (core db))
                    /\ Like.fromId l <> uid /\ Like.toId l <> uid)
  /\ (forall m, In m (Store.matches (core (cascade uid db)))
                <-> In m (Store.matches (core db))
                    /\ Match.userAId m <> uid /\ Match.userBId m <> uid)
  /\ (forall msg, In msg (Store.messages (core (cascade uid db)))
                  <-> In msg (Store.messages (core db))
                      /\ Message.senderId msg <> uid
                      /\ forall m, match_of db msg m ->
                           Match.userAId m <> uid /\ Match.userBId m <> uid)
  /\ (forall r, In r (reports (cascade uid db))
                <-> In r (reports db) /\ Report.reporterId r <> uid)
  /\ (forall st, In st (startups (cascade uid db))
                 <-> In st (startups db) /\ Startup.ownerId st <> uid).
Proof.
  split; [| split; [| split; [| split; [| split]]]].
  - intros u. simpl. now rewrite In_kept, String.eqb_neq.
  - intros l. simpl. now rewrite In_kept, like_involves_false.
  - intros m. simpl. now rewrite In_kept, involves_false.
  - intros msg. rewrite cascade_messages, !In_kept, String.eqb_neq.
    split.
    + intros [[Hin Hex] Hs]. split; [exact Hin | split; [exact Hs |]].
      intros m [Hm Hid]. apply involves_false.
      destruct (Listing.involves uid m) eqn:E; [| reflexivity].
      rewrite <- Hex. symmetry. apply existsb_exists. exists m.
      split; [apply filter_In; now split | now apply Nat.eqb_eq].
    + intros [Hin [Hs Hm]]. split; [split; [exact Hin |] | exact Hs].
      destruct (existsb _ _) eqn:E; [| reflexivity].
      apply existsb_exists in E. destruct E as [m [Hf Hid]].
      apply filter_In in Hf. destruct Hf as [Hf Hinv].
      apply Nat.eqb_eq in Hid.
      assert (H : Listing.involves uid m = false)
        by (apply involves_false, Hm; now split).
      congruence.
  - intros r. simpl. now rewrite In_kept, String.eqb_neq.
  - intros st. simpl. now rewrite In_kept, String.eqb_neq.
Qed.

Lemma cascade_erased (uid : string) (db : t) : erased uid (cascade uid db).
Proof.
  destruct (cascade_rows uid db) as [_ [Hl [Hm [Hmsg [Hr Hst]]]]].
  split; [apply user_missing_kept |].
  split; [intros l H; now apply Hl in H |].
  split; [intros m H; now apply Hm in H |].
  split; [intros msg H; apply Hmsg in H; tauto |].
  split; [intros r H; now apply Hr in H | intros st H; now apply Hst in H].
Qed.

Lemma cascade_constraints (uid : string) (db : t) :
  constraints_ok db -> constraints_ok (cascade uid db).
Proof.
  intros [[Hlu [Hmu [Hlf [Hmf Hgf]]]] [Hrf Hsf]].
  destruct (cascade_rows uid db) as [_ [Hl [Hm [Hmsg [Hr Hst]]]]].
  assert (Hex : forall x, x <> uid ->
            Store.user_exists (core (cascade uid db)) x
            = Store.user_exists (core db) x)
    by (intros x Hx; now apply user_exists_kept).
  split; [split; [| split; [| split; [| split]]] | split].
  - apply NoDup_map_kept, Hlu.
  - apply NoDup_map_kept, Hmu.
  - intros l H. apply Hl in H. destruct H as [H [Hf Ht]].
    rewrite !Hex by assumption. now apply Hlf.
  - intros m H. apply Hm in H. destruct H as [H [Ha Hb]].
    rewrite !Hex by assumption. now apply Hmf.
  - intros msg H. apply Hmsg in H. destruct H as [H [Hs Hrow]].
    destruct (Hgf msg H) as [Hmatch Hsender].
    split; [| rewrite Hex by assumption; exact Hsender].
    unfold Store.match_exists in *. apply existsb_exists in Hmatch.
    destruct Hmatch as [m [Hin Hid]]. apply Nat.eqb_eq in Hid.
    apply existsb_exists. exists m. split; [| now apply Nat.eqb_eq].
    apply Hm. split; [exact Hin |]. apply Hrow. now split.
  - intros r H. apply Hr in H. destruct H as [H Hne].
    rewrite Hex by assumption. now apply Hrf.
  - intros st H. apply Hst in H. destruct H as [H Hne].
    rewrite Hex by assumption. now apply Hsf.
Qed.

(** Under the foreign keys, a user without a row has no row of any table
    referring to it. *)
Lemma constraints_erased (uid : string) (db : t) :
  constraints_ok db ->
  Store.user_exists (core db) uid = false ->
  erased uid db.
Proof.
  intros [[Hlu [Hmu [Hlf [Hmf Hgf]]]] [Hrf Hsf]] Hu.
  split; [exact Hu |].
  split; [intros l H; destruct (Hlf l H); split; congruence |].
  split; [intros m H; destruct (Hmf m H); split; congruence |].
  split; [intros msg H; destruct (Hgf msg H); congruence |].
  split; [intros r H; specialize (Hrf r H); congruence |].
  intros st H. specialize (Hsf st H). congruence.
Qed.

Lemma update_profile_missing
    (f : Scoring.UserWithRelations -> Scoring.UserWithRelations)
    (uid : string) (s : Store.t) :
  Store.user_exists s uid = false -> update_profile f uid s = s.
Proof.
  destruct s as [users likes matches messages realtime nextId clock].
  unfold Store.user_exists, update_profile, set_users. simpl.
  intros H. f_equal.
  induction users as [| u l IH]; simpl in *; [reflexivity |].
  apply orb_false_iff in H. destruct H as [Hu Hl].
  now rewrite Hu, IH.
Qed.

(** On a database where nothing refers to the user, the eight
    [deleteMany] calls delete nothing, and the route ends in its [catch]
    block. *)
Lemma DELETE_erased (uid : string) (refused : bool) (db : t) :
  erased uid db ->
  DELETE (Some uid) refused db
  = (json_status
       (FailedBody "Failed to delete account" (RecordNotFound "User")) 500,
     db).
Proof.
  intros [Hu [Hl [Hm [Hmsg [Hr Hst]]]]].
  assert (E1 : exists n, message_deleteMany uid db = (db, Ok n)).
  { eexists. unfold message_deleteMany. rewrite kept_none.
    - destruct db as [[] ? ? ?]. reflexivity.
    - intros msg H. apply String.eqb_neq. now apply Hmsg. }
  assert (E2 : exists n, match_deleteMany uid db = (db, Ok n)).
  { eexists. unfold match_deleteMany, delete_matches.
    assert (Hnone : forall m, In m (Store.matches (core db)) ->
                      Listing.involves uid m = false)
      by (intros m H; now apply involves_false, Hm).
    rewrite (kept_none _ _ Hnone).
    assert (Hfil : filter (Listing.involves uid) (Store.matches (core db))
                   = []).
    { rewrite <- (kept_none _ _ Hnone) at 1. apply filter_kept. }
    rewrite Hfil. simpl. rewrite kept_no_match.
    destruct db as [[] ? ? ?]. reflexivity. }
  assert (E3 : exists n, like_deleteMany uid db = (db, Ok n)).
  { eexists. unfold like_deleteMany. rewrite kept_none.
    - destruct db as [[] ? ? ?]. reflexivity.
    - intros l H. now apply like_involves_false, Hl. }
  assert (E4 : exists n, report_deleteMany uid db = (db, Ok n)).
  { eexists. unfold report_deleteMany. rewrite kept_none.
    - destruct db. reflexivity.
    - intros r H. apply String.eqb_neq. now apply Hr. }
  assert (E5 : exists n, startup_deleteMany uid db = (db, Ok n)).
  { eexists. unfold startup_deleteMany. rewrite kept_none.
    - destruct db. reflexivity.
    - intros st H. apply String.eqb_neq. now apply Hst. }
  assert (E6 : exists n, skillOnUser_deleteMany uid db = (db, Ok n)).
  { eexists. unfold skillOnUser_deleteMany.
    rewrite update_profile_missing by exact Hu. destruct db. reflexivity. }
  assert (E7 : exists n, offer_deleteMany uid db = (db, Ok n)).
  { eexists. unfold offer_deleteMany.
    rewrite update_profile_missing by exact Hu. destruct db. reflexivity. }
  assert (E8 : exists n, lookingFor_deleteMany uid db = (db, Ok n)).
  { eexists. unfold lookingFor_deleteMany.
    rewrite update_profile_missing by exact Hu. destruct db. reflexivity. }
  destruct E1 as [n1 E1], E2 as [n2 E2], E3 as [n3 E3], E4 as [n4 E4],
    E5 as [n5 E5], E6 as [n6 E6], E7 as [n7 E7], E8 as [n8 E8].
  unfold DELETE, try_catch.
  rewrite (bind_ok _ _ _ _ _ E1), (bind_ok _ _ _ _ _ E2),
    (bind_ok _ _ _ _ _ E3), (bind_ok _ _ _ _ _ E4), (bind_ok _ _ _ _ _ E5),
    (bind_ok _ _ _ _ _ E6), (bind_ok _ _ _ _ _ E7), (bind_ok _ _ _ _ _ E8).
  unfold bind, user_delete, Store.user_findUnique.
  unfold Store.user_exists in Hu. rewrite existsb_find in Hu.
  destruct (find _ _); [discriminate | reflexivity].
Qed.

Lemma sample_constraints : constraints_ok sample.
Proof.
  split; [split; [| split; [| split; [| split]]] | split].
  - unfold LedgerSpec.likes_unique. simpl.
    repeat constructor; simpl; intuition discriminate.
  - unfold LedgerSpec.matches_unique. simpl.
    repeat constructor; simpl; intuition discriminate.
  - intros l H. simpl in H.
    destruct H as [<- | [<- | [<- | []]]]; split; reflexivity.
  - intros m H. simpl in H. destruct H as [<- | []]; split; reflexivity.
  - intros msg H. simpl in H.
    destruct H as [<- | [<- | []]]; split; reflexivity.
  - intros r H. simpl in H. destruct H as [<- | [<- | []]]; reflexivity.
  - intros st H. simpl in H. destruct H as [<- | []]; reflexivity.
Qed.

(** The provider's answer changes nothing but its own users. *)
Lemma auth_admin_deleteUser_core (refused : bool) (uid : string) (db : t) :
  core (fst (auth_admin_deleteUser refused uid db)) = core db
  /\ reports (fst (auth_admin_deleteUser refused uid db)) = reports db
  /\ startups (fst (auth_admin_deleteUser refused uid db)) = startups db.
Proof. unfold auth_admin_deleteUser. now destruct refused. Qed.

End AccountFacts.

(** X20. Account deletion erases the user: for a user who has a row, on a
    database that satisfies the constraints of the migration, the route
    answers 200 with [deleted: true]; afterwards the user has no row, no
    like, match, message, report or startup row refers to them through a
    foreign key, and the constraints still hold.  The provider's user is
    gone when the provider accepted the deletion and is still there when it
    refused, the answer being the same. *)
Theorem delete_account_erases (db : Db.t) (uid : string) (refused : bool) :
  Store.user_exists (Db.core db) uid = true ->
  AccountSpec.constraints_ok db ->
  let r := AccountRoute.DELETE (Some uid) refused db in
  fst r = AccountRoute.json
            (AccountRoute.DeletedBody "Account deleted successfully" true)
  /\ AccountSpec.erased uid (snd r)
  /\ AccountSpec.constraints_ok (snd r)
  /\ (if refused then Db.accounts (snd r) = Db.accounts db
      else ~ In uid (Db.accounts (snd r))).
Proof.
  intros Hu Hc. cbv zeta. rewrite (DELETE_run db uid refused Hu).
  split; [reflexivity |].
  pose proof (cascade_erased uid db) as He.
  pose proof (cascade_constraints uid db Hc) as Hc'.
  destruct refused; simpl.
  - split; [exact He | split; [exact Hc' | reflexivity]].
  - split; [exact He | split; [exact Hc' |]].
    intros Hin. apply In_kept in Hin. destruct Hin as [_ Hin].
    now rewrite String.eqb_refl in Hin.
Qed.

Lemma delete_account_erases_witness :
  let r := AccountRoute.DELETE (Some "a") false AccountSpec.sample in
  fst r = AccountRoute.json
            (AccountRoute.DeletedBody "Account deleted successfully" true)
  /\ AccountSpec.erased "a" (snd r)
  /\ AccountSpec.constraints_ok (snd r)
  /\ ~ In "a" (Db.accounts (snd r)).
Proof.
  apply (delete_account_erases AccountSpec.sample "a" false);
    [reflexivity | exact sample_constraints].
Defined.

(** X21. The eight [deleteMany] calls of the route are redundant: on a
    database that satisfies the foreign keys of the migration, which are
    all [ON DELETE CASCADE], the route gives the response and leaves the
    database of the route reduced to the deletion of the user row and of
    the provider's user, whether the session has a user or not and whether
    that user has a row or not. *)
Theorem deleteMany_calls_redundant (db : Db.t) (auth : option string)
    (refused : bool) :
  AccountSpec.constraints_ok db ->
  AccountRoute.DELETE auth refused db
  = AccountSpec.DELETE_user_row auth refused db.
Proof.
  intros Hc. destruct auth as [uid |]; [| reflexivity].
  destruct (Store.user_exists (Db.core db) uid) eqn:Hu.
  - rewrite (DELETE_run db uid refused Hu).
    destruct (user_exists_find _ _ Hu) as [u Hfind].
    unfold AccountSpec.DELETE_user_row, AccountRoute.try_catch, Db.bind,
      Db.user_delete.
    rewrite Hfind. unfold Db.auth_admin_deleteUser. now destruct refused.
  - rewrite (DELETE_erased uid refused db (constraints_erased uid db Hc Hu)).
    unfold AccountSpec.DELETE_user_row, AccountRoute.try_catch, Db.bind,
      Db.user_delete, Store.user_findUnique.
    unfold Store.user_exists in Hu. rewrite existsb_find in Hu.
    destruct (find _ _); [discriminate | reflexivity].
Qed.

Lemma deleteMany_calls_redundant_witness :
  AccountRoute.DELETE (Some "a") false AccountSpec.sample
  = AccountSpec.DELETE_user_row (Some "a") false AccountSpec.sample.
Proof.
  apply (deleteMany_calls_redundant AccountSpec.sample (Some "a") false).
  exact sample_constraints.
Defined.

(** X22. Account deletion touches nothing of the others: for a user who
    has a row, the rows left are exactly the user rows of the others (with
    their relations as they were), the likes neither from nor to the user,
    the matches without the user, the messages that the user did not send
    and whose match is not one of the user, the reports the user did not
    file, so that reports against the user stay, and the startups of the
    others. *)
Theorem delete_account_keeps_others (db : Db.t) (uid : string)
    (refused : bool) :
  Store.user_exists (Db.core db) uid = true ->
  let db' := snd (AccountRoute.DELETE (Some uid) refused db) in
  (forall u, In u (Store.users (Db.core db'))
             <-> In u (Store.users (Db.core db)) /\ User.id u <> uid)
  /\ (forall l, In l (Store.likes (Db.core db'))
                <-> In l (Store.likes (Db.core db))
                    /\ Like.fromId l <> uid /\ Like.toId l <> uid)
  /\ (forall m, In m (Store.matches (Db.core db'))
                <-> In m (Store.matches (Db.core db))
                    /\ Match.userAId m <> uid /\ Match.userBId m <> uid)
  /\ (forall msg, In msg (Store.messages (Db.core db'))
                  <-> In msg (Store.messages (Db.core db))
                      /\ Message.senderId msg <> uid
                      /\ forall m, AccountSpec.match_of db msg m ->
                           Match.userAId m <> uid /\ Match.userBId m <> uid)
  /\ (forall r, In r (Db.reports db')
                <-> In r (Db.reports db) /\ Report.reporterId r <> uid)
  /\ (forall st, In st (Db.startups db')
                 <-> In st (Db.startups db) /\ Startup.ownerId st <> uid).
Proof.
  intros Hu. cbv zeta. rewrite (DELETE_run db uid refused Hu).
  cbn [snd].
  destruct (auth_admin_deleteUser_core refused uid (Db.cascade uid db))
    as [-> [-> ->]].
  apply cascade_rows.
Qed.

Lemma delete_account_keeps_others_witness :
  let uid := "a" in
  let db := AccountSpec.sample in
  let db' := snd (AccountRoute.DELETE (Some uid) true db) in
  (forall u, In u (Store.users (Db.core db'))
             <-> In u (Store.users (Db.core db)) /\ User.id u <> uid)
  /\ (forall l, In l (Store.likes (Db.core db'))
                <-> In l (Store.likes (Db.core db))
                    /\ Like.fromId l <> uid /\ Like.toId l <> uid)
  /\ (forall m, In m (Store.matches (Db.core db'))
                <-> In m (Store.matches (Db.core db))
                    /\ Match.userAId m <> uid /\ Match.userBId m <> uid)
  /\ (forall msg, In msg (Store.messages (Db.core db'))
                  <-> In msg (Store.messages (Db.core db))
                      /\ Message.senderId msg <> uid
                      /\ forall m, AccountSpec.match_of db msg m ->
                           Match.userAId m <> uid /\ Match.userBId m <> uid)
  /\ (forall r, In r (Db.reports db')
                <-> In r (Db.reports db) /\ Report.reporterId r <> uid)
  /\ (forall st, In st (Db.startups db')
                 <-> In st (Db.startups db) /\ Startup.ownerId st <> uid).
Proof.
  apply (delete_account_keeps_others AccountSpec.sample "a" true).
  reflexivity.
Defined.

(** X23. Deleting an account that has no user row: on a database that
    satisfies the foreign keys, for a session user without a row the route
    answers 500 "Failed to delete account" with the error of the missing
    record, and leaves the database as it was, the provider's user
    included. *)
Theorem delete_account_without_row (db : Db.t) (uid : string)
    (refused : bool) :
  Store.user_exists (Db.core db) uid = false ->
  AccountSpec.constraints_ok db ->
  AccountRoute.DELETE (Some uid) refused db
  = (AccountRoute.json_status
       (AccountRoute.FailedBody "Failed to delete account"
          (Db.RecordNotFound "User")) 500,
     db).
Proof.
  intros Hu Hc. apply DELETE_erased. now apply constraints_erased.
Qed.

Lemma delete_account_without_row_witness :
  AccountRoute.DELETE (Some "z") false AccountSpec.sample
  = (AccountRoute.json_status
       (AccountRoute.FailedBody "Failed to delete account"
          (Db.RecordNotFound "User")) 500,
     AccountSpec.sample).
Proof.
  apply (delete_account_without_row AccountSpec.sample "z" false);
    [reflexivity | exact sample_constraints].
Defined.

(** X24. A deleted user is gone from every route: after the deletion of a
    user who had a row, on a database that satisfied the constraints, a
    like toward them is answered 404 "User not found"; no feed, no list of
    matches and no list of invitations of anyone shows them; and they
    themselves get 404 from the messages route for every match. *)
Theorem deleted_user_is_gone (db : Db.t) (uid : string) (refused : bool) :
  Store.user_exists (Db.core db) uid = true ->
  AccountSpec.constraints_ok db ->
  let s := Db.core (snd (AccountRoute.DELETE (Some uid) refused db)) in
  (forall v message, v <> uid ->
     Handler.run (LikeRoute.POST (LikeSpec.like v uid message)) s
     = (LikeSpec.userNotFound, s))
  /\ (forall v r,
        In r (LedgerSpec.feed
                (fst (Handler.run (RecommendationsRoute.GET (Some v)) s))) ->
        User.id (RecommendationsRoute.candidate r) <> uid)
  /\ (forall v e,
        In e (Listing.entries (Listing.GET_matches (Some v) s)) ->
        Listing.id (Listing.user e) <> uid)
  /\ (forall v i,
        In i (Listing.invitations (Listing.GET_invitations (Some v) s)) ->
        Listing.id (Listing.from i) <> uid)
  /\ (forall m,
        fst (Handler.run (MessagesRoute.listMessages uid m) s)
        = LedgerSpec.notFound).
Proof.
  intros Hu Hc. cbv zeta. rewrite (DELETE_run db uid refused Hu).
  cbn [snd].
  destruct (auth_admin_deleteUser_core refused uid (Db.cascade uid db))
    as [-> _].
  pose proof (cascade_erased uid db) as [He [Hl [Hm _]]].
  pose proof (cascade_constraints uid db Hc) as [[_ [_ [Hlf [Hmf _]]]] _].
  set (s := Db.core (Db.cascade uid db)) in *.
  split; [| split; [| split; [| split]]].
  - intros v message Hv. apply String.eqb_neq in Hv.
    unfold Handler.run, LikeRoute.POST, LikeSpec.like. simpl. rewrite Hv.
    simpl. unfold Store.user_findUnique. unfold Store.user_exists in He.
    rewrite existsb_find in He.
    destruct (find (fun u => String.eqb (User.id u) uid) (Store.users s));
      [discriminate | reflexivity].
  - intros v r. unfold Handler.run, RecommendationsRoute.GET. simpl.
    destruct (Store.user_findUnique s v) as [currentUser |]; simpl;
      [| tauto].
    intros Hr. apply In_sort, in_map_iff in Hr. destruct Hr as [u [<- Hin]].
    unfold RecommendationsRoute.candidate. simpl.
    apply findMany_excludes in Hin. destruct Hin as [Hin _].
    intros Heq. unfold Store.user_exists in He.
    assert (Hex : existsb (fun u => String.eqb (User.id u) uid)
                    (Store.users s) = true)
      by (apply existsb_exists; exists u; split;
          [exact Hin | now apply String.eqb_eq]).
    congruence.
  - intros v e. rewrite (GET_matches_run s v Hmf).
    unfold Listing.entries, Listing.json. cbn [Listing.payload].
    intros He'. apply in_map_iff in He'. destruct He' as [m [<- Hin]].
    apply (Permutation_in _ (sort_desc_perm _ _)), filter_In in Hin.
    destruct Hin as [Hin _]. destruct (Hm m Hin) as [Ha Hb].
    unfold ListingSpec.entry_of. cbn [Listing.user]. rewrite public_id.
    unfold ListingSpec.other.
    now destruct (String.eqb (Match.userAId m) v).
  - intros v i Hi.
    destruct (GET_invitations_run s v Hlf) as [Hmap [_ Hfrom]].
    rewrite (Hfrom i Hi).
    assert (Hin : In (Listing.like i)
                    (map Listing.like
                       (Listing.invitations
                          (Listing.GET_invitations (Some v) s))))
      by now apply in_map.
    rewrite Hmap in Hin. apply filter_In in Hin. destruct Hin as [Hin _].
    apply (Permutation_in _ (sort_desc_perm _ _)), filter_In in Hin.
    destruct Hin as [Hin _]. now apply Hl in Hin.
  - intros m. rewrite listMessages_run.
    destruct (Store.match_findFirst s m uid) as [row |] eqn:E;
      [| reflexivity].
    assert (Hacc : LedgerSpec.canAccess s uid m)
      by (apply findFirst_canAccess; now exists row).
    destruct Hacc as [row' [Hin [_ [Hpart _]]]].
    destruct (Hm row' Hin) as [Ha Hb]. tauto.
Qed.

Lemma deleted_user_is_gone_witness :
  let uid := "a" in
  let s := Db.core (snd (AccountRoute.DELETE (Some uid) false
                           AccountSpec.sample)) in
  (forall v message, v <> uid ->
     Handler.run (LikeRoute.POST (LikeSpec.like v uid message)) s
     = (LikeSpec.userNotFound, s))
  /\ (forall v r,
        In r (LedgerSpec.feed
                (fst (Handler.run (RecommendationsRoute.GET (Some v)) s))) ->
        User.id (RecommendationsRoute.candidate r) <> uid)
  /\ (forall v e,
        In e (Listing.entries (Listing.GET_matches (Some v) s)) ->
        Listing.id (Listing.user e) <> uid)
  /\ (forall v i,
        In i (Listing.invitations (Listing.GET_invitations (Some v) s)) ->
        Listing.id (Listing.from i) <> uid)
  /\ (forall m,
        fst (Handler.run (MessagesRoute.listMessages uid m) s)
        = LedgerSpec.notFound).
Proof.
  apply (deleted_user_is_gone AccountSpec.sample "a" false);
    [reflexivity | exact sample_constraints].
Defined.

(** ** Comma-separated lists *)

Section TagFacts.
Import JSString ProfileRoute EditPage TagSpec.

Lemma split_nonempty (sep : N) (s : t) : split sep s <> [].
Proof.
  destruct s as [| c rest]; simpl; [discriminate |].
  destruct (c =? sep)%N; [discriminate |].
  destruct (split sep rest); discriminate.
Qed.

Lemma split_cons (sep c : N) (s : t) :
  (c =? sep)%N = false ->
  exists piece pieces,
    split sep s = piece :: pieces
    /\ split sep (c :: s) = (c :: piece) :: pieces.
Proof.
  intros Hc. simpl. rewrite Hc.
  destruct (split sep s) as [| piece pieces] eqn:E.
  - now destruct (split_nonempty sep s).
  - now exists piece, pieces.
Qed.

(** The pieces of two strings joined by the separator are the pieces of
    the first followed by those of the second. *)
Lemma split_app (sep : N) (x y : t) :
  split sep (x ++ sep :: y)%list = (split sep x ++ split sep y)%list.
Proof.
  induction x as [| c x IH]; simpl.
  - now rewrite N.eqb_refl.
  - destruct (c =? sep)%N; [now rewrite IH |].
    rewrite IH. destruct (split sep x) as [| piece pieces] eqn:E.
    + now destruct (split_nonempty sep x).
    + reflexivity.
Qed.

Lemma split_no_sep (sep : N) (s piece : t) :
  In piece (split sep s) -> ~ In sep piece.
Proof.
  revert piece. induction s as [| c rest IH]; simpl; intros piece H.
  - destruct H as [<- | []]. tauto.
  - destruct (c =? sep)%N eqn:Hc.
    + destruct H as [<- | H]; [tauto | now apply IH].
    + destruct (split sep rest) as [| p ps] eqn:E.
      * destruct H as [<- | []]. simpl. apply N.eqb_neq in Hc.
        intros [H | []]. congruence.
      * destruct H as [<- | H].
        -- simpl. apply N.eqb_neq in Hc. intros [H | H]; [congruence |].
           revert H. apply IH. now left.
        -- apply IH. now right.
Qed.

(** A string without the separator is its only piece. *)
Lemma split_whole (sep : N) (s : t) :
  existsb (N.eqb sep) s = false -> split sep s = [s].
Proof.
  induction s as [| c rest IH]; simpl; intros H; [reflexivity |].
  apply orb_false_iff in H. destruct H as [Hc Hrest].
  rewrite N.eqb_sym in Hc. rewrite Hc, (IH Hrest). reflexivity.
Qed.

Lemma trimStart_In (s : t) (c : N) : In c (trimStart s) -> In c s.
Proof.
  induction s as [| d rest IH]; simpl; [tauto |].
  destruct (isWhiteSpace d); [intros H; right; now apply IH | tauto].
Qed.

Lemma trimEnd_In (s : t) (c : N) : In c (trimEnd s) -> In c s.
Proof.
  induction s as [| d rest IH]; simpl; [tauto |].
  destruct (trimEnd rest) as [| k ks].
  - destruct (isWhiteSpace d); simpl; tauto.
  - intros [H | H]; [now left | right; now apply IH].
Qed.

Lemma trimStart_starts_clean (s : t) : starts_clean (trimStart s) = true.
Proof.
  induction s as [| c rest IH]; simpl; [reflexivity |].
  destruct (isWhiteSpace c) eqn:E; [exact IH |]. simpl. now rewrite E.
Qed.

Lemma trimEnd_starts_clean (s : t) :
  starts_clean s = true -> starts_clean (trimEnd s) = true.
Proof.
  destruct s as [| c rest]; simpl; [reflexivity |].
  intros H. apply negb_true_iff in H.
  destruct (trimEnd rest); rewrite ?H; simpl; now rewrite ?H.
Qed.

Lemma trimEnd_ends_clean (s : t) : ends_clean (trimEnd s) = true.
Proof.
  induction s as [| c rest IH]; simpl; [reflexivity |].
  destruct (trimEnd rest) as [| k ks] eqn:E.
  - destruct (isWhiteSpace c) eqn:Ec; simpl; [reflexivity | now rewrite Ec].
  - exact IH.
Qed.

Lemma trimStart_clean (s : t) : starts_clean s = true -> trimStart s = s.
Proof.
  destruct s as [| c rest]; simpl; [reflexivity |].
  intros H. apply negb_true_iff in H. now rewrite H.
Qed.

Lemma trimEnd_clean (s : t) : ends_clean s = true -> trimEnd s = s.
Proof.
  induction s as [| c rest IH]; [reflexivity |].
  destruct rest as [| d rest'].
  - simpl. intros H. apply negb_true_iff in H. now rewrite H.
  - intros H. change (ends_clean (d :: rest') = true) in H.
    change (trimEnd (c :: d :: rest'))
      with (match trimEnd (d :: rest') with
            | [] => if isWhiteSpace c then [] else [c]
            | kept => c :: kept
            end).
    now rewrite (IH H).
Qed.

Lemma clean_spec (s : t) :
  clean s = true
  <-> s <> [] /\ ~ In comma s
      /\ starts_clean s = true /\ ends_clean s = true.
Proof.
  unfold clean. rewrite !andb_true_iff, negb_true_iff.
  split.
  - intros [[[Hlen Hcomma] Hs] He]. repeat split; try assumption.
    + intros ->. discriminate.
    + intros Hin. assert (H : existsb (N.eqb comma) s = true)
        by (apply existsb_exists; exists comma; split;
            [exact Hin | apply N.eqb_refl]).
      congruence.
  - intros [Hne [Hcomma [Hs He]]]. repeat split; try assumption.
    + destruct s; [congruence | reflexivity].
    + destruct (existsb (N.eqb comma) s) eqn:E; [| reflexivity].
      apply existsb_exists in E. destruct E as [c [Hin Hc]].
      apply N.eqb_eq in Hc. subst c. tauto.
Qed.

(** A clean name is the only name the route reads in it. *)
Lemma skillNames_clean_name (s : t) : clean s = true -> skillNames s = [s].
Proof.
  intros H. unfold clean in H. rewrite !andb_true_iff in H.
  destruct H as [[[Hlen Hcomma] Hs] He]. apply negb_true_iff in Hcomma.
  unfold skillNames. rewrite (split_whole _ _ Hcomma). simpl.
  unfold trim. rewrite (trimStart_clean _ Hs), (trimEnd_clean _ He).
  now rewrite Hlen.
Qed.

Lemma skillNames_app (x y : t) :
  skillNames (x ++ comma :: y)%list = (skillNames x ++ skillNames y)%list.
Proof.
  unfold skillNames. now rewrite split_app, map_app, filter_app.
Qed.

Lemma skillNames_space (s : t) : skillNames (space :: s) = skillNames s.
Proof.
  unfold skillNames.
  destruct (split_cons comma space s eq_refl) as [p [ps [E ->]]].
  rewrite E. reflexivity.
Qed.

Lemma skillNames_are_clean (s name : t) :
  In name (skillNames s) -> clean name = true.
Proof.
  unfold skillNames. intros H. apply filter_In in H.
  destruct H as [H Hlen]. apply in_map_iff in H.
  destruct H as [piece [<- Hpiece]].
  apply clean_spec. split; [| split; [| split]].
  - intros E. rewrite E in Hlen. discriminate.
  - intros Hin. apply (split_no_sep _ _ _ Hpiece).
    now apply trimStart_In, trimEnd_In.
  - apply trimEnd_starts_clean, trimStart_starts_clean.
  - apply trimEnd_ends_clean.
Qed.

(** A list of clean names is read back as it is. *)
Lemma skillNames_field_clean (l : list t) :
  forallb clean l = true -> skillNames (skillsField l) = l.
Proof.
  unfold skillsField. induction l as [| x l IH]; [reflexivity |].
  intros H. apply andb_true_iff in H. destruct H as [Hx Hl].
  destruct l as [| y l].
  - simpl. now apply skillNames_clean_name.
  - change (join [comma; space] (x :: y :: l))
      with (x ++ comma :: space :: join [comma; space] (y :: l))%list.
    rewrite skillNames_app, skillNames_space, (IH Hl).
    now rewrite (skillNames_clean_name x Hx).
Qed.

End TagFacts.

(** X25. The names the route reads in a string: every name of
    [skills.split(',').map(s => s.trim()).filter(s => s.length > 0)] is
    not empty, has no comma in it, and neither starts nor ends with white
    space. *)
Theorem skillNames_well_formed (skills name : JSString.t) :
  In name (ProfileRoute.skillNames skills) ->
  name <> []
  /\ ~ In JSString.comma name
  /\ TagSpec.starts_clean name = true
  /\ TagSpec.ends_clean name = true.
Proof.
  intros H. apply clean_spec. now apply (skillNames_are_clean skills).
Qed.

Lemma skillNames_well_formed_witness :
  JSString.units "Go" <> []
  /\ ~ In JSString.comma (JSString.units "Go")
  /\ TagSpec.starts_clean (JSString.units "Go") = true
  /\ TagSpec.ends_clean (JSString.units "Go") = true.
Proof.
  apply (skillNames_well_formed (JSString.units " React ,, Go ,")
           (JSString.units "Go")).
  vm_compute. right. left. reflexivity.
Defined.

(** X26. From the page to the route: the names the route reads in the
    [skills] field that the page makes of its list with [join(', ')] are
    the names it reads in each entry of the list, in the order of the
    list.  So an entry with a comma in it comes back as several names, an
    entry of white space as none, and the empty list as no name. *)
Theorem skillNames_of_field (skills : list JSString.t) :
  ProfileRoute.skillNames (EditPage.skillsField skills)
  = flat_map ProfileRoute.skillNames skills.
Proof.
  unfold EditPage.skillsField.
  induction skills as [| x l IH]; [reflexivity |].
  destruct l as [| y l].
  - simpl. now rewrite app_nil_r.
  - change (JSString.join [JSString.comma; JSString.space] (x :: y :: l))
      with (x ++ JSString.comma :: JSString.space
              :: JSString.join [JSString.comma; JSString.space] (y :: l))%list.
    rewrite skillNames_app, skillNames_space, IH. reflexivity.
Qed.

(** X27. The round trip of a list of skills: when every name of the list
    of the page is not empty, has no comma and no white space at either
    end, the route reads back the list itself; and whatever string the
    route was given, the names it read are read back unchanged when they
    are sent again. *)
Theorem skills_round_trip (skills : list JSString.t) (field : JSString.t) :
  forallb TagSpec.clean skills = true ->
  ProfileRoute.skillNames (EditPage.skillsField skills) = skills
  /\ ProfileRoute.skillNames
       (EditPage.skillsField (ProfileRoute.skillNames field))
     = ProfileRoute.skillNames field.
Proof.
  intros H. split.
  - now apply skillNames_field_clean.
  - apply skillNames_field_clean. apply forallb_forall.
    intros name. apply skillNames_are_clean.
Qed.

Lemma skills_round_trip_witness :
  ProfileRoute.skillNames
    (EditPage.skillsField
       [JSString.units "React"; JSString.units "Node.js";
        JSString.units "Product Design"])
  = [JSString.units "React"; JSString.units "Node.js";
     JSString.units "Product Design"]
  /\ ProfileRoute.skillNames
       (EditPage.skillsField
          (ProfileRoute.skillNames (JSString.units " a,b ,, c")))
     = ProfileRoute.skillNames (JSString.units " a,b ,, c").
Proof.
  apply (skills_round_trip
           [JSString.units "React"; JSString.units "Node.js";
            JSString.units "Product Design"]
           (JSString.units " a,b ,, c")).
  reflexivity.
Defined.

(** ** The startup routes *)

Section StartupFacts.
Import Db StartupRoute StartupSpec.

Lemma find_pkey (l : list Startup.t) (s : Startup.t) :
  NoDup (map Startup.id l) -> In s l ->
  find (fun x => Nat.eqb (Startup.id x) (Startup.id s)) l = Some s.
Proof.
  induction l as [| x l IH]; simpl; intros Hnd Hin; [tauto |].
  inversion Hnd as [| ? ? Hx Hl]; subst.
  destruct Hin as [-> | Hin].
  - now rewrite Nat.eqb_refl.
  - destruct (Nat.eqb_spec (Startup.id x) (Startup.id s)) as [E | E].
    + exfalso. apply Hx. rewrite E. now apply in_map.
    + now apply IH.
Qed.


(** The row the routes find for its owner. *)
Lemma findFirst_row (db : t) (user : string) (id : nat) (row : Startup.t) :
  find (fun s => Nat.eqb (Startup.id s) id
                 && String.eqb (Startup.ownerId s) user)
       (startups db) = Some row ->
  In row (startups db) /\ Startup.id row = id /\ Startup.ownerId row = user.
Proof.
  intros H. apply find_some in H. destruct H as [Hin H].
  apply andb_true_iff in H. destruct H as [Hid Hown].
  apply Nat.eqb_eq in Hid. apply String.eqb_eq in Hown. tauto.
Qed.





(** The four routes, by what the caller owns. *)
Lemma startup_GET_run (db : t) (user : string) (id : nat) :
  GET (Some user) id db
  = match find (fun s => Nat.eqb (Startup.id s) id
                         && String.eqb (Startup.ownerId s) user)
               (startups db) with
    | Some row => (json (StartupBody row), db)
    | None => (notFound, db)
    end.
Proof.
  unfold GET, try_catch, bind, startup_findFirst.
  now destruct (find _ _).
Qed.


Lemma startup_DELETE_run (db : t) (user : string) (id : nat) :
  startups_pkey db ->
  DELETE (Some user) id db
  = match find (fun s => Nat.eqb (Startup.id s) id
                         && String.eqb (Startup.ownerId s) user)
               (startups db) with
    | Some row =>
        (json (MessageBody "Startup deleted successfully"),
         set_startups db
           (kept (fun s => Nat.eqb (Startup.id s) id) (startups db)))
    | None => (notFound, db)
    end.
Proof.
  intros Hpk. unfold DELETE, try_catch, bind, startup_findFirst.
  destruct (find _ _) as [row |] eqn:E; [| reflexivity].
  destruct (findFirst_row _ _ _ _ E) as [Hin [Hid Hown]].
  unfold startup_delete. rewrite <- Hid, (find_pkey _ _ Hpk Hin).
  reflexivity.
Qed.

Lemma GET_list_run (db : t) (user : string) :
  GET_list (Some user) db
  = (json (StartupsBody
             (Listing.sort_desc Startup.createdAt
                (filter (fun s => String.eqb (Startup.ownerId s) user)
                        (startups db)))),
     db).
Proof. reflexivity. Qed.

(** The row of an id that [user] owns is the one the routes find. *)
Lemma find_owned (db : t) (user : string) (row : Startup.t) :
  startups_pkey db -> In row (startups db) -> Startup.ownerId row = user ->
  find (fun s => Nat.eqb (Startup.id s) (Startup.id row)
                 && String.eqb (Startup.ownerId s) user)
       (startups db) = Some row.
Proof.
  intros Hpk Hin Hown. pose proof (find_pkey _ _ Hpk Hin) as H.
  revert H. clear Hpk Hin.
  induction (startups db) as [| x l IH]; simpl; [discriminate |].
  destruct (Nat.eqb (Startup.id x) (Startup.id row)) eqn:E; simpl.
  - intros H. injection H as ->. now rewrite Hown, String.eqb_refl.
  - exact IH.
Qed.

Lemma sample_pkey : startups_pkey AccountSpec.sample.
Proof. unfold startups_pkey. simpl. repeat constructor. simpl. tauto. Qed.

End StartupFacts.





(** X30. A deleted startup is gone: under the primary key, when the owner
    deletes a startup the route answers 200; the table is then the old one
    without that row, so a [GET] or a second [DELETE] of the id answers
    404, and the list of the owner is the old list without it, still with
    the latest first. *)
Theorem startup_delete_then_gone (db : Db.t) (user : string)
    (row : Startup.t) :
  StartupSpec.startups_pkey db ->
  In row (Db.startups db) ->
  Startup.ownerId row = user ->
  let r := StartupRoute.DELETE (Some user) (Startup.id row) db in
  fst r = StartupRoute.json
            (StartupRoute.MessageBody "Startup deleted successfully")
  /\ (forall s, In s (Db.startups (snd r))
                <-> In s (Db.startups db) /\ Startup.id s <> Startup.id row)
  /\ StartupRoute.GET (Some user) (Startup.id row) (snd r)
     = (StartupSpec.notFound, snd r)
  /\ StartupRoute.DELETE (Some user) (Startup.id row) (snd r)
     = (StartupSpec.notFound, snd r)
  /\ (forall s,
        In s (StartupSpec.listed
                (fst (StartupRoute.GET_list (Some user) (snd r))))
        <-> In s (StartupSpec.listed
                    (fst (StartupRoute.GET_list (Some user) db)))
            /\ Startup.id s <> Startup.id row)
  /\ StronglySorted (ListingSpec.later Startup.createdAt)
       (StartupSpec.listed (fst (StartupRoute.GET_list (Some user) (snd r)))).
Proof.
  intros Hpk Hin Hown. cbv zeta.
  pose proof (find_owned db user row Hpk Hin Hown) as Hfind.
  rewrite (startup_DELETE_run _ _ _ Hpk), Hfind. cbn [fst snd].
  set (db' := StartupRoute.set_startups db
                (Db.kept (fun s => Nat.eqb (Startup.id s) (Startup.id row))
                         (Db.startups db))).
  assert (Hrows : forall s, In s (Db.startups db')
                    <-> In s (Db.startups db)
                        /\ Startup.id s <> Startup.id row).
  { intros s. unfold db'. simpl. now rewrite In_kept, Nat.eqb_neq. }
  assert (Hpk' : StartupSpec.startups_pkey db')
    by (unfold StartupSpec.startups_pkey, db'; simpl;
        now apply NoDup_map_kept).
  assert (Hnone : find (fun s => Nat.eqb (Startup.id s) (Startup.id row)
                                 && String.eqb (Startup.ownerId s) user)
                    (Db.startups db') = None).
  { destruct (find _ (Db.startups db')) as [s |] eqn:E; [| reflexivity].
    destruct (findFirst_row _ _ _ _ E) as [Hs [Hid _]].
    apply Hrows in Hs. tauto. }
  split; [reflexivity |]. split; [exact Hrows |].
  split; [now rewrite startup_GET_run, Hnone |].
  split; [now rewrite (startup_DELETE_run _ _ _ Hpk'), Hnone |].
  rewrite !GET_list_run. unfold StartupSpec.listed. cbn [fst StartupRoute.json
    StartupRoute.payload].
  split.
  - intros s.
    assert (Hperm : forall l : list Startup.t,
              In s (Listing.sort_desc Startup.createdAt l) <-> In s l).
    { intros l. split; apply Permutation_in;
        [| apply Permutation_sym]; apply sort_desc_perm. }
    rewrite !Hperm, !filter_In, Hrows. tauto.
  - apply sort_desc_sorted.
Qed.

Lemma startup_delete_then_gone_witness :
  let db := AccountSpec.sample in
  let row := AccountSpec.acme in
  let r := StartupRoute.DELETE (Some "a") (Startup.id row) db in
  fst r = StartupRoute.json
            (StartupRoute.MessageBody "Startup deleted successfully")
  /\ (forall s, In s (Db.startups (snd r))
                <-> In s (Db.startups db) /\ Startup.id s <> Startup.id row)
  /\ StartupRoute.GET (Some "a") (Startup.id row) (snd r)
     = (StartupSpec.notFound, snd r)
  /\ StartupRoute.DELETE (Some "a") (Startup.id row) (snd r)
     = (StartupSpec.notFound, snd r)
  /\ (forall s,
        In s (StartupSpec.listed
                (fst (StartupRoute.GET_list (Some "a") (snd r))))
        <-> In s (StartupSpec.listed
                    (fst (StartupRoute.GET_list (Some "a") db)))
            /\ Startup.id s <> Startup.id row)
  /\ StronglySorted (ListingSpec.later Startup.createdAt)
       (StartupSpec.listed (fst (StartupRoute.GET_list (Some "a") (snd r)))).
Proof.
  apply (startup_delete_then_gone AccountSpec.sample "a" AccountSpec.acme);
    [exact sample_pkey | left; reflexivity | reflexivity].
Defined.
